(** * Deposit tracking core of the dog-poo detector: model and properties

    Shallow embedding of [backend/detector.py] (the [Detection] value
    object), [backend/poop_tracker.py], [backend/event_detector.py] and
    [backend/state_manager.py].

    Conventions of the embedding.
    - Python floats are idealised as exact rationals ([Q]); equality of
      computed numbers is [Qeq] (written [==]).
    - [x ** 0.5 < t] is written without a root as [0 < t /\ x < t * t],
      which is the same comparison over the reals for [x >= 0].  Where a
      root is averaged ([DogTrack.get_average_movement]) the root function
      is a parameter of the model.
    - [datetime.now()] is one clock reading per processing cycle, passed in
      as a number of seconds.
    - [str(uuid.uuid4())] is a fresh identifier drawn from a counter kept
      next to the tracker's fields ([uuid_supply]).
    - A callback invocation is recorded as an element of the list of events
      a call returns, in emission order. *)

From Stdlib Require Import QArith Qminmax ZArith Lia Lqa Bool.
From stdpp Require Import base gmap sets list strings.

Local Open Scope Q_scope.

(** ** Numbers *)

(** Strict comparison of rationals as a boolean, Python's [x < y]. *)
Definition Qlt_bool (x y : Q) : bool := negb (Qle_bool y x).

(** Python's [x ** 2]. *)
Definition Qsquare (x : Q) : Q := x * x.

(** ** Geometry *)

(** A bounding box is the 4-tuple [(x1, y1, x2, y2)]. *)
Record Box : Type := mkBox { bx1 : Q; by1 : Q; bx2 : Q; by2 : Q }.

Definition Point : Type := (Q * Q)%type.

(** The default [bbox] of a [PoopInstance]: [(0, 0, 0, 0)]. *)
Definition zero_box : Box := mkBox 0 0 0 0.

(** The area expression the code computes for a box. *)
Definition box_area (b : Box) : Q := (bx2 b - bx1 b) * (by2 b - by1 b).

(** The corner convention of [(x1, y1, x2, y2)]: top-left, bottom-right. *)
Definition box_wf (b : Box) : Prop := bx1 b <= bx2 b /\ by1 b <= by2 b.

(** [Detection.center] applied to a box. *)
Definition box_center (b : Box) : Point :=
  ((bx1 b + bx2 b) / 2, (by1 b + by2 b) / 2).

(** [distance < threshold] for
    [distance = ((x1 - x2) ** 2 + (y1 - y2) ** 2) ** 0.5]. *)
Definition distance_lt (p q : Point) (threshold : Q) : bool :=
  Qlt_bool 0 threshold &&
  Qlt_bool (Qsquare (fst p - fst q) + Qsquare (snd p - snd q))
           (Qsquare threshold).

(** ** detector.py *)

Module Detector.

Record Detection : Type := mkDetection {
  class_id : Z;
  class_name : string;
  confidence : Q;
  bbox : Box
}.

Definition center (d : Detection) : Point := box_center (bbox d).

Definition width (d : Detection) : Q := bx2 (bbox d) - bx1 (bbox d).

Definition height (d : Detection) : Q := by2 (bbox d) - by1 (bbox d).

Definition aspect_ratio (d : Detection) : Q :=
  if Qlt_bool 0 (width d) then height d / width d else 0.

(** One box of a YOLO result as [detect] reads it: [box.conf[0]],
    [box.cls[0]], the name [result.names[class_id]] and [box.xyxy[0]]. *)
Record RawBox : Type := mkRawBox {
  raw_conf : Q;
  raw_cls : Z;
  raw_name : string;
  raw_xyxy : Box
}.

(** The fields of a [Detector] object that [detect] uses; the YOLO model
    is what produces the results passed to [detect]. *)
Record Detector : Type := mkDetector {
  model_path : string;
  confidence_threshold : Q;
  inference_interval : Z;
  frame_count : Z
}.

Definition CLASS_PERSON : Z := 0.

Definition CLASS_DOG : Z := 16.

(** [class_id in [self.CLASS_PERSON, self.CLASS_DOG] or class_name == 'poop'] *)
Definition relevant_class (b : RawBox) : bool :=
  (raw_cls b =? CLASS_PERSON)%Z || (raw_cls b =? CLASS_DOG)%Z ||
  bool_decide (raw_name b = "poop").

(** [for box in boxes] (lines 96-109), appending to [detections]. *)
Fixpoint collect_boxes (threshold : Q) (boxes : list RawBox)
    (detections : list Detection) : list Detection :=
  match boxes with
  | [] => detections
  | box :: rest =>
      if Qlt_bool (raw_conf box) threshold
      then collect_boxes threshold rest detections
      else if relevant_class box
      then collect_boxes threshold rest
             (detections ++
                [mkDetection (raw_cls box) (raw_name box) (raw_conf box)
                   (raw_xyxy box)])
      else collect_boxes threshold rest detections
  end.

(** [for result in results] (lines 93-109). *)
Fixpoint collect_results (threshold : Q) (results : list (list RawBox))
    (detections : list Detection) : list Detection :=
  match results with
  | [] => detections
  | boxes :: rest =>
      collect_results threshold rest (collect_boxes threshold boxes detections)
  end.

(** [Detector.detect]; [results] is what [self.model(frame)] returns for
    the frame.  [None] stands for the [ZeroDivisionError] of
    [frame_count % 0]. *)
Definition detect (d : Detector) (results : list (list RawBox))
  : Detector * option (list Detection) :=
  let d' :=
    mkDetector (model_path d) (confidence_threshold d) (inference_interval d)
      (frame_count d + 1) in
  if (inference_interval d =? 0)%Z then (d', None)
  else if negb (frame_count d' mod inference_interval d =? 0)%Z
  then (d', Some [])
  else (d', Some (collect_results (confidence_threshold d) results [])).

End Detector.

(** ** poop_tracker.py *)

Module PoopTracker.

Import Detector.

Inductive Status : Type := pending | active | cleaned.

#[global] Instance Status_eq_dec : EqDecision Status.
Proof. solve_decision. Defined.

Record PoopInstance : Type := mkPoopInstance {
  id : nat;
  location : Point;
  bbox : Box;
  first_seen : Q;
  last_seen : Q;
  status : Status;
  deposited_by : option string;
  missing_frames : Z;
  cleanup_candidate_frames : Z
}.

(** The calls made to [event_callback]: event name and payload. *)
Inductive Event : Type :=
| poop_detected (i : nat) (loc : Point) (box : Box)
| poop_confirmed (i : nat) (loc : Point)
| poop_cleaned (i : nat) (loc : Point).

(** The fields of a [PoopTracker] object; [event_callback] records
    whether a callback was given, [uuid_supply] is the model's source of
    fresh identifiers. *)
Record PoopTracker : Type := mkPoopTracker {
  iou_threshold : Q;
  stale_threshold : Z;
  cleanup_confirm_frames : Z;
  event_callback : bool;
  active_poops : list PoopInstance;
  cleaned_count : Z;
  total_deposits : Z;
  uuid_supply : nat
}.

(** [PoopTracker.__init__] *)
Definition init (iou_thr : Q) (stale confirm : Z) (callback : bool)
  : PoopTracker :=
  mkPoopTracker iou_thr stale confirm callback [] 0 0 0.

(** [PoopTracker._calculate_iou] *)
Definition _calculate_iou (bbox1 bbox2 : Box) : Q :=
  let x1_i := Qmax (bx1 bbox1) (bx1 bbox2) in
  let y1_i := Qmax (by1 bbox1) (by1 bbox2) in
  let x2_i := Qmin (bx2 bbox1) (bx2 bbox2) in
  let y2_i := Qmin (by2 bbox1) (by2 bbox2) in
  if Qlt_bool x2_i x1_i || Qlt_bool y2_i y1_i then 0
  else
    let intersection := (x2_i - x1_i) * (y2_i - y1_i) in
    let area1 := (bx2 bbox1 - bx1 bbox1) * (by2 bbox1 - by1 bbox1) in
    let area2 := (bx2 bbox2 - bx1 bbox2) * (by2 bbox2 - by1 bbox2) in
    let union := area1 + area2 - intersection in
    if Qlt_bool 0 union then intersection / union else 0.

(** [PoopTracker._is_human_nearby]; [update] calls it with the default
    [threshold = 100]. *)
Definition _is_human_nearby (poop : PoopInstance)
    (person_detections : list Detection) (threshold : Q) : bool :=
  existsb (fun person => distance_lt (location poop) (center person) threshold)
          person_detections.

Definition proximity_radius : Q := 100.

(** The inner loop of [update] (lines 97-104): scan the enumerated
    detections from index [i], skipping claimed ones, keeping the best
    candidate so far. *)
Fixpoint scan_detections (thr : Q) (pbox : Box) (matched_indices : gset nat)
    (i : nat) (ds : list Detection)
    (best_iou : Q) (best_detection : option (nat * Detection))
  : option (nat * Detection) :=
  match ds with
  | [] => best_detection
  | detection :: ds' =>
      if bool_decide (i ∈ matched_indices)
      then scan_detections thr pbox matched_indices (S i) ds'
             best_iou best_detection
      else
        let iou := _calculate_iou pbox (Detector.bbox detection) in
        if Qlt_bool best_iou iou && Qlt_bool thr iou
        then scan_detections thr pbox matched_indices (S i) ds'
               iou (Some (i, detection))
        else scan_detections thr pbox matched_indices (S i) ds'
               best_iou best_detection
  end.

(** The search a deposit runs over [poop_detections]: [best_iou = 0],
    [best_detection = None], then the scan. *)
Definition find_best (thr : Q) (pbox : Box) (matched_indices : gset nat)
    (poop_detections : list Detection) : option (nat * Detection) :=
  scan_detections thr pbox matched_indices 0%nat poop_detections 0 None.

(** What the loop over [self.active_poops] carries from one deposit to
    the next. *)
Record LoopState : Type := mkLoopState {
  matched_indices : gset nat;
  ls_cleaned_count : Z;
  ls_events : list Event
}.

Definition emit (callback : bool) (e : Event) (log : list Event)
  : list Event :=
  if callback then log ++ [e] else log.

(** The branch taken on a match (lines 107-125). *)
Definition on_match (t : PoopTracker) (now : Q) (st : LoopState)
    (poop : PoopInstance) (idx : nat) (detection : Detection)
  : PoopInstance * LoopState :=
  let refreshed st' :=
    mkPoopInstance (id poop) (center detection) (Detector.bbox detection)
      (first_seen poop) now st' (deposited_by poop) 0 0 in
  let matched' := {[ idx ]} ∪ matched_indices st in
  match status poop with
  | pending =>
      (refreshed active,
       mkLoopState matched' (ls_cleaned_count st)
         (emit (event_callback t)
            (poop_confirmed (id poop) (center detection)) (ls_events st)))
  | s => (refreshed s, mkLoopState matched' (ls_cleaned_count st) (ls_events st))
  end.

(** The branch taken when no detection matched (lines 126-144). *)
Definition on_miss (t : PoopTracker) (person_detections : list Detection)
    (st : LoopState) (poop : PoopInstance) : PoopInstance * LoopState :=
  let missing := (missing_frames poop + 1)%Z in
  if _is_human_nearby poop person_detections proximity_radius then
    let candidate := (cleanup_candidate_frames poop + 1)%Z in
    if (cleanup_confirm_frames t <=? candidate)%Z then
      (mkPoopInstance (id poop) (location poop) (bbox poop)
         (first_seen poop) (last_seen poop) cleaned (deposited_by poop)
         missing candidate,
       mkLoopState (matched_indices st) (ls_cleaned_count st + 1)%Z
         (emit (event_callback t)
            (poop_cleaned (id poop) (location poop)) (ls_events st)))
    else
      (mkPoopInstance (id poop) (location poop) (bbox poop)
         (first_seen poop) (last_seen poop) (status poop)
         (deposited_by poop) missing candidate,
       st)
  else
    (mkPoopInstance (id poop) (location poop) (bbox poop)
       (first_seen poop) (last_seen poop) (status poop)
       (deposited_by poop) missing 0,
     st).

(** One iteration of [for poop in self.active_poops] (lines 93-144). *)
Definition track_poop (t : PoopTracker)
    (poop_detections person_detections : list Detection) (now : Q)
    (st : LoopState) (poop : PoopInstance) : PoopInstance * LoopState :=
  match find_best (iou_threshold t) (bbox poop) (matched_indices st)
          poop_detections with
  | Some (idx, detection) => on_match t now st poop idx detection
  | None => on_miss t person_detections st poop
  end.

(** The whole loop: the deposits are mutated in place, in list order. *)
Fixpoint track_poops (t : PoopTracker)
    (poop_detections person_detections : list Detection) (now : Q)
    (st : LoopState) (poops : list PoopInstance)
  : list PoopInstance * LoopState :=
  match poops with
  | [] => ([], st)
  | poop :: rest =>
      let '(poop', st') :=
        track_poop t poop_detections person_detections now st poop in
      let '(rest', st'') :=
        track_poops t poop_detections person_detections now st' rest in
      (poop' :: rest', st'')
  end.

(** The deposit built from an unmatched detection (lines 149-153). *)
Definition new_poop (uuid : nat) (now : Q) (detection : Detection)
  : PoopInstance :=
  mkPoopInstance uuid (center detection) (Detector.bbox detection)
    now now active None 0 0.

(** The deposit built from a pooping event (lines 166-169); [bbox] keeps
    the dataclass default. *)
Definition pending_poop (uuid : nat) (now : Q) (event_location : Point)
  : PoopInstance :=
  mkPoopInstance uuid event_location zero_box now now pending None 0 0.

(** What the two creation loops carry. *)
Record CreateState : Type := mkCreateState {
  created : list PoopInstance;
  cs_total_deposits : Z;
  cs_events : list Event;
  cs_uuid : nat
}.

(** [for i, detection in enumerate(poop_detections)] (lines 147-162),
    from index [i]. *)
Fixpoint create_tracks (callback : bool) (matched : gset nat) (now : Q)
    (i : nat) (ds : list Detection) (cs : CreateState) : CreateState :=
  match ds with
  | [] => cs
  | detection :: ds' =>
      if bool_decide (i ∈ matched)
      then create_tracks callback matched now (S i) ds' cs
      else
        let p := new_poop (cs_uuid cs) now detection in
        create_tracks callback matched now (S i) ds'
          (mkCreateState (created cs ++ [p])
             (cs_total_deposits cs + 1)%Z
             (emit callback (poop_detected (id p) (location p) (bbox p))
                (cs_events cs))
             (S (cs_uuid cs)))
  end.

(** [for event_location in pooping_events] (lines 165-171). *)
Fixpoint create_pending (now : Q) (pooping_events : list Point)
    (cs : CreateState) : CreateState :=
  match pooping_events with
  | [] => cs
  | event_location :: rest =>
      create_pending now rest
        (mkCreateState
           (created cs ++ [pending_poop (cs_uuid cs) now event_location])
           (cs_total_deposits cs) (cs_events cs) (S (cs_uuid cs)))
  end.

(** The filter of lines 174-177. *)
Definition keep (stale : Z) (p : PoopInstance) : bool :=
  negb (bool_decide (status p = cleaned)) && (missing_frames p <? stale)%Z.

Definition is_class (name : string) (d : Detection) : bool :=
  bool_decide (class_name d = name).

(** [[d for d in detections if d.class_name == 'poop']] *)
Definition poop_detections (detections : list Detection) : list Detection :=
  List.filter (is_class "poop") detections.

(** [[d for d in detections if d.class_name == 'person']] *)
Definition person_detections (detections : list Detection) : list Detection :=
  List.filter (is_class "person") detections.

(** The loop starts with [matched_indices = set()] and nothing emitted. *)
Definition loop_start (t : PoopTracker) : LoopState :=
  mkLoopState ∅ (cleaned_count t) [].

(** The state of [update] just before the final filter: every deposit of
    the call, the counters, and the events emitted. *)
Record Staged : Type := mkStaged {
  staged_poops : list PoopInstance;
  staged_matched : gset nat;
  staged_cleaned_count : Z;
  staged_total_deposits : Z;
  staged_events : list Event;
  staged_uuid : nat
}.

Definition stage (t : PoopTracker) (detections : list Detection)
    (pooping_events : list Point) (now : Q) : Staged :=
  let '(tracked, st) :=
    track_poops t (poop_detections detections) (person_detections detections)
      now (loop_start t) (active_poops t) in
  let cs1 :=
    create_tracks (event_callback t) (matched_indices st) now 0%nat
      (poop_detections detections)
      (mkCreateState tracked (total_deposits t) (ls_events st) (uuid_supply t)) in
  let cs2 := create_pending now pooping_events cs1 in
  mkStaged (created cs2) (matched_indices st) (ls_cleaned_count st)
    (cs_total_deposits cs2) (cs_events cs2) (cs_uuid cs2).

(** [PoopTracker.update]: the new tracker and the callback invocations of
    the call. *)
Definition update (t : PoopTracker) (detections : list Detection)
    (pooping_events : list Point) (now : Q) : PoopTracker * list Event :=
  let s := stage t detections pooping_events now in
  (mkPoopTracker (iou_threshold t) (stale_threshold t)
     (cleanup_confirm_frames t) (event_callback t)
     (List.filter (keep (stale_threshold t)) (staged_poops s))
     (staged_cleaned_count s) (staged_total_deposits s) (staged_uuid s),
   staged_events s).

(** The dictionary [get_state] returns. *)
Record State : Type := mkState {
  st_active_poops : list PoopInstance;
  st_pending_poops : list PoopInstance;
  st_cleaned_count : Z;
  st_total_deposits : Z
}.

(** [PoopTracker.get_state] *)
Definition get_state (t : PoopTracker) : State :=
  mkState
    (List.filter (fun p => bool_decide (status p = active)) (active_poops t))
    (List.filter (fun p => bool_decide (status p = pending)) (active_poops t))
    (cleaned_count t) (total_deposits t).

End PoopTracker.

(** ** event_detector.py *)

Module EventDetector.

Import Detector.

(** A number or [float('inf')]. *)
Inductive ExtQ : Type := Finite (q : Q) | Infinity.

(** [x < y] where [y] may be infinite. *)
Definition lt_ext (x : Q) (y : ExtQ) : bool :=
  match y with Finite q => Qlt_bool x q | Infinity => true end.

(** [x > y] where [x] may be infinite. *)
Definition ext_gt (x : ExtQ) (y : Q) : bool :=
  match x with Finite q => Qlt_bool y q | Infinity => true end.

(** [x <= y] where [x] may be infinite. *)
Definition ext_le (x : ExtQ) (y : Q) : Prop :=
  match x with Finite q => q <= y | Infinity => False end.

(** One entry of [DogTrack.positions]. *)
Record Position : Type := mkPosition {
  p_center : Point;
  p_bbox : Box;
  p_aspect_ratio : Q;
  p_timestamp : Q
}.

(** [DogTrack]: [positions] is the deque, oldest sample first. *)
Record DogTrack : Type := mkDogTrack {
  positions : list Position;
  last_update : Q
}.

(** [deque(maxlen=90)] *)
Definition maxlen : nat := 90.

(** [deque.append] on a bounded deque: a full deque drops its oldest
    element. *)
Definition deque_append (dq : list Position) (x : Position) : list Position :=
  if (maxlen <=? length dq)%nat then drop 1 dq ++ [x] else dq ++ [x].

(** [DogTrack.add_position] *)
Definition add_position (track : DogTrack) (detection : Detection) (now : Q)
  : DogTrack :=
  mkDogTrack
    (deque_append (positions track)
       (mkPosition (center detection) (Detector.bbox detection)
          (aspect_ratio detection) now))
    now.

(** [DogTrack.__init__] *)
Definition new_track (detection : Detection) (now : Q) : DogTrack :=
  add_position (mkDogTrack [] now) detection now.

(** [DogTrack.is_stale], with its default [max_age_seconds = 1.0]. *)
Definition is_stale (track : DogTrack) (now : Q) (max_age_seconds : Q) : bool :=
  Qlt_bool max_age_seconds (now - last_update track).

Definition Qsum (l : list Q) : Q := fold_left Qplus l 0.

Section Movement.

(** [x ** 0.5] *)
Variable root : Q -> Q.

(** The [distance] of one step of [get_average_movement]. *)
Definition step_distance (a b : Position) : Q :=
  root (Qsquare (fst (p_center b) - fst (p_center a)) +
        Qsquare (snd (p_center b) - snd (p_center a))).

(** [for i in range(1, len(positions))]: the distances between
    consecutive samples, added to [total_movement]. *)
Fixpoint total_movement (acc : Q) (ps : list Position) : Q :=
  match ps with
  | a :: (b :: _) as rest => total_movement (acc + step_distance a b) rest
  | _ => acc
  end.

(** [DogTrack.get_average_movement] *)
Definition get_average_movement (track : DogTrack) : ExtQ :=
  if (length (positions track) <? 2)%nat then Infinity
  else Finite (total_movement 0 (positions track) /
               inject_Z (Z.of_nat (length (positions track) - 1))).

End Movement.

(** [DogTrack.get_average_aspect_ratio] *)
Definition get_average_aspect_ratio (track : DogTrack) : Q :=
  match positions track with
  | [] => 1
  | ps => Qsum (map p_aspect_ratio ps) / inject_Z (Z.of_nat (length ps))
  end.

(** [DogTrack.get_track_duration] *)
Definition get_track_duration (track : DogTrack) : Q :=
  if (length (positions track) <? 2)%nat then 0
  else
    match head (positions track), last (positions track) with
    | Some first, Some final => p_timestamp final - p_timestamp first
    | _, _ => 0
    end.

(** [DogTrack.get_ground_location] *)
Definition get_ground_location (track : DogTrack) : Point :=
  match last (positions track) with
  | None => (0, 0)
  | Some final =>
      let b := p_bbox final in ((bx1 b + bx2 b) / 2, by2 b)
  end.

(** The fields of an [EventDetector] object; [dog_tracks] is the
    dictionary as the list of its items, in insertion order. *)
Record EventDetector : Type := mkEventDetector {
  stationary_threshold : Q;
  aspect_ratio_threshold : Q;
  dog_tracks : list (nat * DogTrack);
  next_track_id : nat;
  movement_threshold : Q
}.

(** [EventDetector.__init__] *)
Definition init (stationary aspect : Q) : EventDetector :=
  mkEventDetector stationary aspect [] 0 5.

(** Squared length of [point2 - point1]; [_distance] is its root, and two
    roots compare as their radicands do. *)
Definition distance2 (point1 point2 : Point) : Q :=
  Qsquare (fst point2 - fst point1) + Qsquare (snd point2 - snd point1).

(** The inner loop of [_update_tracks] (lines 142-149), from index [i];
    [best_distance] is carried squared, the gate [distance < 100] is
    [distance2 < 100 ** 2]. *)
Fixpoint nearest_detection (last_center : Point) (matched_detections : gset nat)
    (i : nat) (ds : list Detection)
    (best_distance : ExtQ) (best_detection_idx : option nat) : option nat :=
  match ds with
  | [] => best_detection_idx
  | detection :: ds' =>
      if bool_decide (i ∈ matched_detections)
      then nearest_detection last_center matched_detections (S i) ds'
             best_distance best_detection_idx
      else
        let d2 := distance2 last_center (center detection) in
        if lt_ext d2 best_distance && Qlt_bool d2 (Qsquare 100)
        then nearest_detection last_center matched_detections (S i) ds'
               (Finite d2) (Some i)
        else nearest_detection last_center matched_detections (S i) ds'
               best_distance best_detection_idx
  end.

(** [for track_id, track in self.dog_tracks.items()] (lines 134-154). *)
Fixpoint match_tracks (dog_detections : list Detection) (now : Q)
    (matched_detections : gset nat) (tracks : list (nat * DogTrack))
  : list (nat * DogTrack) * gset nat :=
  match tracks with
  | [] => ([], matched_detections)
  | (track_id, track) :: rest =>
      match last (positions track) with
      | None =>
          let '(rest', m) := match_tracks dog_detections now matched_detections rest in
          ((track_id, track) :: rest', m)
      | Some final =>
          match nearest_detection (p_center final) matched_detections 0%nat
                  dog_detections Infinity None with
          | Some idx =>
              let track' :=
                match dog_detections !! idx with
                | Some detection => add_position track detection now
                | None => track
                end in
              let '(rest', m) :=
                match_tracks dog_detections now ({[ idx ]} ∪ matched_detections) rest in
              ((track_id, track') :: rest', m)
          | None =>
              let '(rest', m) :=
                match_tracks dog_detections now matched_detections rest in
              ((track_id, track) :: rest', m)
          end
      end
  end.

(** [for i, detection in enumerate(dog_detections)] (lines 157-160). *)
Fixpoint spawn_tracks (matched_detections : gset nat) (now : Q) (i : nat)
    (ds : list Detection) (tracks : list (nat * DogTrack)) (next_id : nat)
  : list (nat * DogTrack) * nat :=
  match ds with
  | [] => (tracks, next_id)
  | detection :: ds' =>
      if bool_decide (i ∈ matched_detections)
      then spawn_tracks matched_detections now (S i) ds' tracks next_id
      else spawn_tracks matched_detections now (S i) ds'
             (tracks ++ [(next_id, new_track detection now)]) (S next_id)
  end.

(** [EventDetector._update_tracks] *)
Definition _update_tracks (ed : EventDetector) (dog_detections : list Detection)
    (now : Q) : EventDetector :=
  let '(tracks, matched) := match_tracks dog_detections now ∅ (dog_tracks ed) in
  let '(tracks', next_id) :=
    spawn_tracks matched now 0%nat dog_detections tracks (next_track_id ed) in
  mkEventDetector (stationary_threshold ed) (aspect_ratio_threshold ed)
    tracks' next_id (movement_threshold ed).

(** [EventDetector._is_pooping] *)
Definition _is_pooping (root : Q -> Q) (ed : EventDetector) (track : DogTrack)
  : bool :=
  if Qlt_bool (get_track_duration track) (stationary_threshold ed) then false
  else if ext_gt (get_average_movement root track) (movement_threshold ed)
  then false
  else if Qlt_bool (aspect_ratio_threshold ed) (get_average_aspect_ratio track)
  then false
  else true.

(** The loop of [process] over the tracks (lines 109-113), appending to
    [pooping_events]. *)
Fixpoint collect_events (root : Q -> Q) (ed : EventDetector)
    (tracks : list (nat * DogTrack)) (pooping_events : list Point)
  : list Point :=
  match tracks with
  | [] => pooping_events
  | (_, track) :: rest =>
      if _is_pooping root ed track
      then collect_events root ed rest
             (pooping_events ++ [get_ground_location track])
      else collect_events root ed rest pooping_events
  end.

(** [EventDetector.process] *)
Definition process (root : Q -> Q) (ed : EventDetector)
    (detections : list Detection) (now : Q) : EventDetector * list Point :=
  let dog_detections :=
    List.filter (fun d => bool_decide (class_name d = "dog")) detections in
  let ed1 := _update_tracks ed dog_detections now in
  let pooping_events := collect_events root ed1 (dog_tracks ed1) [] in
  (mkEventDetector (stationary_threshold ed1) (aspect_ratio_threshold ed1)
     (List.filter (fun '(_, track) => negb (is_stale track now 1)) (dog_tracks ed1))
     (next_track_id ed1) (movement_threshold ed1),
   pooping_events).

End EventDetector.

(** ** state_manager.py *)

Module StateManager.

Import PoopTracker.

(** The logger calls of the three [_alert_*] methods. *)
Inductive Alert : Type :=
| new_poop_alert (poop_id : nat)
| cleanup_alert (count : Z)
| aged_poop_alert (poop_id : nat).

(** The fields of a [StateManager] object; [last_state] is the dictionary
    of the three counters, empty at construction. *)
Record StateManager : Type := mkStateManager {
  alert_new_poop : bool;
  alert_cleanup : bool;
  aged_minutes : Q;
  known_poop_ids : gset nat;
  last_state : gmap string Z
}.

(** [StateManager.__init__] *)
Definition init (new_poop cleanup : bool) (aged : Q) : StateManager :=
  mkStateManager new_poop cleanup aged ∅ ∅.

(** [{poop.id for poop in active_poops}] *)
Definition current_ids (active : list PoopInstance) : gset nat :=
  list_to_set (map id active).

(** [age_minutes >= self.aged_minutes] *)
Definition is_aged (sm : StateManager) (now : Q) (poop : PoopInstance) : bool :=
  Qle_bool (aged_minutes sm) ((now - first_seen poop) / 60).

(** [for poop_id in new_ids] (lines 42-44): raise the alert, then add the
    id to [known_poop_ids]. *)
Fixpoint alert_new_ids (new_ids : list nat) (known : gset nat)
    (alerts : list Alert) : gset nat * list Alert :=
  match new_ids with
  | [] => (known, alerts)
  | poop_id :: rest =>
      alert_new_ids rest ({[ poop_id ]} ∪ known)
        (alerts ++ [new_poop_alert poop_id])
  end.

(** [for poop in active_poops] (lines 54-57). *)
Fixpoint alert_aged (sm : StateManager) (now : Q)
    (active : list PoopInstance) (alerts : list Alert) : list Alert :=
  match active with
  | [] => alerts
  | poop :: rest =>
      if is_aged sm now poop
      then alert_aged sm now rest (alerts ++ [aged_poop_alert (id poop)])
      else alert_aged sm now rest alerts
  end.

(** [StateManager.update]: the new object and the alerts raised, in
    order.  The iteration over the set [new_ids] goes through its
    [elements]. *)
Definition update (sm : StateManager) (tracker_state : State) (now : Q)
  : StateManager * list Alert :=
  let active_poops := st_active_poops tracker_state in
  let cleaned_count := st_cleaned_count tracker_state in
  let total_deposits := st_total_deposits tracker_state in
  let '(known, alerts1) :=
    if alert_new_poop sm then
      let new_ids := current_ids active_poops ∖ known_poop_ids sm in
      alert_new_ids (elements new_ids) (known_poop_ids sm) []
    else (known_poop_ids sm, []) in
  let alerts2 :=
    if alert_cleanup sm then
      let prev_cleaned := default 0%Z (last_state sm !! "cleaned_count") in
      if (prev_cleaned <? cleaned_count)%Z
      then alerts1 ++ [cleanup_alert (cleaned_count - prev_cleaned)]
      else alerts1
    else alerts1 in
  let alerts3 := alert_aged sm now active_poops alerts2 in
  (mkStateManager (alert_new_poop sm) (alert_cleanup sm) (aged_minutes sm)
     known
     (<["total_deposits" := total_deposits]>
        (<["cleaned_count" := cleaned_count]>
           (<["active_count" := Z.of_nat (length active_poops)]> ∅))),
   alerts3).

End StateManager.

(** ** web_server.py *)

Module WebServer.

Import PoopTracker.

(** A tracker-state dictionary as [_format_status] reads it: each of the
    four keys may be missing ([self.current_state] is [{}] until the first
    [update_state]). *)
Record StateDict : Type := mkStateDict {
  d_active_poops : option (list PoopInstance);
  d_pending_poops : option (list PoopInstance);
  d_cleaned_count : option Z;
  d_total_deposits : option Z
}.

(** [{}] *)
Definition empty_state : StateDict := mkStateDict None None None None.

(** The dictionary [get_state] builds, with its four keys. *)
Definition of_state (s : State) : StateDict :=
  mkStateDict (Some (st_active_poops s)) (Some (st_pending_poops s))
    (Some (st_cleaned_count s)) (Some (st_total_deposits s)).

(** An entry of ["active_poops"] in the response. *)
Record ActiveEntry : Type := mkActiveEntry {
  a_id : nat;
  a_location : list Q;
  a_bbox : list Q;
  a_age_seconds : Q;
  a_status : Status
}.

(** An entry of ["pending_poops"] in the response. *)
Record PendingEntry : Type := mkPendingEntry {
  p_id : nat;
  p_location : list Q;
  p_status : Status
}.

Record Metrics : Type := mkMetrics {
  active_count : nat;
  pending_count : nat;
  m_cleaned_count : Z;
  m_total_deposits : Z
}.

Record StatusResponse : Type := mkStatusResponse {
  r_active_poops : list ActiveEntry;
  r_pending_poops : list PendingEntry;
  metrics : Metrics
}.

(** [list(poop.location)] *)
Definition point_list (p : Point) : list Q := [fst p; snd p].

(** [list(poop.bbox)] *)
Definition box_list (b : Box) : list Q := [bx1 b; by1 b; bx2 b; by2 b].

(** [WebServer._format_status]; [now] is the clock reading of the call. *)
Definition _format_status (now : Q) (state : StateDict) : StatusResponse :=
  let active_poops := default [] (d_active_poops state) in
  let pending_poops := default [] (d_pending_poops state) in
  mkStatusResponse
    (map (fun poop =>
            mkActiveEntry (id poop) (point_list (location poop))
              (box_list (bbox poop)) (now - first_seen poop) (status poop))
         active_poops)
    (map (fun poop =>
            mkPendingEntry (id poop) (point_list (location poop)) (status poop))
         pending_poops)
    (mkMetrics (length active_poops) (length pending_poops)
       (default 0%Z (d_cleaned_count state))
       (default 0%Z (d_total_deposits state))).

End WebServer.

(** ** main.py *)

Module Main.

(** What one iteration of the processing loop is given: the results the
    model returns on the frame and the clock reading of the iteration. *)
Record Frame : Type := mkFrame {
  frame_results : list (list Detector.RawBox);
  frame_time : Q
}.

(** The four components [main] threads through its loop; the web server
    and the annotator only read what the others produce. *)
Record System : Type := mkSystem {
  detector : Detector.Detector;
  event_detector : EventDetector.EventDetector;
  poop_tracker : PoopTracker.PoopTracker;
  state_manager : StateManager.StateManager
}.

(** What one iteration produces for the outside: the tracker's callback
    invocations, the alerts, and the state given to the web server. *)
Record Output : Type := mkOutput {
  out_events : list PoopTracker.Event;
  out_alerts : list StateManager.Alert;
  out_state : PoopTracker.State
}.

(** The body of [for frame in capture.get_frames()] (lines 57-76).
    [None]: [detect] raised, which ends the loop. *)
Definition process_frame (root : Q -> Q) (s : System) (f : Frame)
  : option (System * Output) :=
  match Detector.detect (detector s) (frame_results f) with
  | (_, None) => None
  | (detector', Some detections) =>
      let '(event_detector', pooping_events) :=
        EventDetector.process root (event_detector s) detections (frame_time f) in
      let '(poop_tracker', events) :=
        PoopTracker.update (poop_tracker s) detections pooping_events
          (frame_time f) in
      let current_state := PoopTracker.get_state poop_tracker' in
      let '(state_manager', alerts) :=
        StateManager.update (state_manager s) current_state (frame_time f) in
      Some (mkSystem detector' event_detector' poop_tracker' state_manager',
            mkOutput events alerts current_state)
  end.

(** The loop over the frames: the final system and the outputs, in
    order, or [None] if an iteration raised. *)
Fixpoint process_frames (root : Q -> Q) (s : System) (frames : list Frame)
  : option (System * list Output) :=
  match frames with
  | [] => Some (s, [])
  | f :: rest =>
      match process_frame root s f with
      | None => None
      | Some (s', out) =>
          match process_frames root s' rest with
          | None => None
          | Some (s'', outs) => Some (s'', out :: outs)
          end
      end
  end.

End Main.

(** * Vocabulary of the properties *)

Import Detector PoopTracker.

(** [_calculate_iou] after its four corner computations. *)
Definition iou_core (x1_i y1_i x2_i y2_i area1 area2 : Q) : Q :=
  if Qlt_bool x2_i x1_i || Qlt_bool y2_i y1_i then 0
  else
    let intersection := (x2_i - x1_i) * (y2_i - y1_i) in
    let union := area1 + area2 - intersection in
    if Qlt_bool 0 union then intersection / union else 0.

(** Two boxes are disjoint when one lies entirely to one side of the
    other (touching edges included: no region of positive area is
    shared). *)
Definition boxes_disjoint (a b : Box) : Prop :=
  bx2 a <= bx1 b \/ bx2 b <= bx1 a \/ by2 a <= by1 b \/ by2 b <= by1 a.

(** Area of the intersection rectangle, 0 when there is none. *)
Definition intersection_area (a b : Box) : Q :=
  let x1_i := Qmax (bx1 a) (bx1 b) in
  let y1_i := Qmax (by1 a) (by1 b) in
  let x2_i := Qmin (bx2 a) (bx2 b) in
  let y2_i := Qmin (by2 a) (by2 b) in
  if Qlt_bool x2_i x1_i || Qlt_bool y2_i y1_i then 0
  else (x2_i - x1_i) * (y2_i - y1_i).

(** Area of the union of two boxes. *)
Definition union_area (a b : Box) : Q :=
  box_area a + box_area b - intersection_area a b.

(** The loop state of [update] when it reaches the deposit at index [k]
    of [active_poops]. *)
Definition loop_state_at (t : PoopTracker) (detections : list Detection)
    (now : Q) (k : nat) : LoopState :=
  snd (track_poops t (poop_detections detections) (person_detections detections)
         now (loop_start t) (take k (active_poops t))).

(** The detection the deposit [p], at index [k], claims in this call. *)
Definition claimed_by (t : PoopTracker) (detections : list Detection)
    (now : Q) (k : nat) (p : PoopInstance) : option (nat * Detection) :=
  find_best (iou_threshold t) (PoopTracker.bbox p)
    (matched_indices (loop_state_at t detections now k))
    (poop_detections detections).

(** The detections, from index [i] on, whose index is not in [matched]. *)
Fixpoint unclaimed (matched : gset nat) (i : nat) (ds : list Detection)
  : list Detection :=
  match ds with
  | [] => []
  | d :: ds' =>
      if bool_decide (i ∈ matched) then unclaimed matched (S i) ds'
      else d :: unclaimed matched (S i) ds'
  end.

Definition event_id (e : Event) : nat :=
  match e with
  | poop_detected i _ _ | poop_confirmed i _ | poop_cleaned i _ => i
  end.

Definition is_detected (e : Event) : bool :=
  match e with poop_detected _ _ _ => true | _ => false end.

Definition is_confirmed_for (i : nat) (e : Event) : bool :=
  match e with poop_confirmed j _ => bool_decide (j = i) | _ => false end.

Definition is_cleaned_for (i : nat) (e : Event) : bool :=
  match e with poop_cleaned j _ => bool_decide (j = i) | _ => false end.

(** The inputs of one processing cycle. *)
Record Cycle : Type := mkCycle {
  detections : list Detection;
  pooping_events : list Point;
  now : Q
}.

Definition step (t : PoopTracker) (c : Cycle) : PoopTracker :=
  fst (update t (detections c) (pooping_events c) (now c)).

Definition cycle_events (t : PoopTracker) (c : Cycle) : list Event :=
  snd (update t (detections c) (pooping_events c) (now c)).

Definition staged (t : PoopTracker) (c : Cycle) : Staged :=
  stage t (detections c) (pooping_events c) (now c).

(** The tracker after the cycles [cs], in order. *)
Definition run (t : PoopTracker) (cs : list Cycle) : PoopTracker :=
  fold_left step cs t.

(** Every callback invocation of the cycles [cs], in order. *)
Fixpoint run_events (t : PoopTracker) (cs : list Cycle) : list Event :=
  match cs with
  | [] => []
  | c :: cs' => cycle_events t c ++ run_events (step t c) cs'
  end.

(** Identifiers are distinct and were all drawn from the supply. *)
Definition ids_ok (t : PoopTracker) : Prop :=
  NoDup (map id (active_poops t)) /\
  Forall (fun p => (id p < uuid_supply t)%nat) (active_poops t).

(** The deposits of [active_poops] as the loop of [update] leaves them. *)
Definition tracked (t : PoopTracker) (detections : list Detection) (now : Q)
  : list PoopInstance :=
  fst (track_poops t (poop_detections detections) (person_detections detections)
         now (loop_start t) (active_poops t)).

(** The loop state of [update] after the last deposit. *)
Definition loop_end (t : PoopTracker) (detections : list Detection) (now : Q)
  : LoopState :=
  loop_state_at t detections now (length (active_poops t)).

(** One active deposit per detection of [us], with consecutive fresh
    identifiers from [uuid]. *)
Definition fresh_active (now : Q) (uuid : nat) (us : list Detection)
  : list PoopInstance :=
  imap (fun j d => new_poop (uuid + j) now d) us.

(** One pending deposit per point, with consecutive fresh identifiers. *)
Definition fresh_pending (now : Q) (uuid : nat) (points : list Point)
  : list PoopInstance :=
  imap (fun j pt => pending_poop (uuid + j) now pt) points.

(** One [poop_detected] notification per detection of [us]. *)
Definition detected_events (uuid : nat) (us : list Detection) : list Event :=
  imap (fun j d => poop_detected (uuid + j) (center d) (Detector.bbox d)) us.

(** The notifications of one iteration of the loop of [update], for the
    deposit [p] met with the claimed indices [matched]. *)
Definition poop_events (t : PoopTracker) (pds pers : list Detection)
    (matched : gset nat) (p : PoopInstance) : list Event :=
  if event_callback t then
    match find_best (iou_threshold t) (PoopTracker.bbox p) matched pds with
    | Some (_, d) =>
        if bool_decide (status p = pending)
        then [poop_confirmed (id p) (center d)] else []
    | None =>
        if _is_human_nearby p pers proximity_radius &&
           (cleanup_confirm_frames t <=? cleanup_candidate_frames p + 1)%Z
        then [poop_cleaned (id p) (location p)] else []
    end
  else [].

(** The order of the lifecycle: pending, then active, then cleaned. *)
Definition status_rank (s : Status) : nat :=
  match s with pending => 0 | active => 1 | cleaned => 2 end.

(** A status change along one of the two edges pending-to-active and
    active-to-cleaned, or no change. *)
Definition two_edges_only (s s' : Status) : Prop :=
  s' = s \/ (s = pending /\ s' = active) \/ (s = active /\ s' = cleaned).

(** A detection box with [x1 > 0] and [y1 > 0]. *)
Definition positive_corner (d : Detection) : Prop :=
  0 < bx1 (Detector.bbox d) /\ 0 < by1 (Detector.bbox d).

(** Every pending deposit of the live list still has the default box. *)
Definition pending_have_zero_box (t : PoopTracker) : Prop :=
  forall p, p ∈ active_poops t -> status p = pending ->
            PoopTracker.bbox p = zero_box.

(** In the cycle [c] from the state [t], the deposit with id [i] is in
    the live list, claims no detection and has a person within the
    proximity radius. *)
Definition missed_near (t : PoopTracker) (c : Cycle) (i : nat) : Prop :=
  exists k p,
    active_poops t !! k = Some p /\ id p = i /\
    claimed_by t (detections c) (now c) k p = None /\
    _is_human_nearby p (person_detections (detections c)) proximity_radius
      = true.

(** Every live deposit has its cleanup counter below the confirm count. *)
Definition counters_below_confirm (t : PoopTracker) : Prop :=
  forall p, p ∈ active_poops t ->
    (0 <= cleanup_candidate_frames p < cleanup_confirm_frames t)%Z.

Definition is_new_poop_alert (a : StateManager.Alert) : bool :=
  match a with StateManager.new_poop_alert _ => true | _ => false end.

Definition is_cleanup_alert (a : StateManager.Alert) : bool :=
  match a with StateManager.cleanup_alert _ => true | _ => false end.

(** ** The measures of a track, from the words of the specification *)

(** Euclidean distance between two points; [root] stands for the
    square root. *)
Definition euclidean_distance (root : Q -> Q) (a b : Point) : Q :=
  root ((fst b - fst a) * (fst b - fst a) + (snd b - snd a) * (snd b - snd a)).

(** The distance from the center of each sample to the center of the
    next one: entry [i] is the step from sample [i] to sample [i + 1]. *)
Definition stepwise_displacements (root : Q -> Q)
    (ps : list EventDetector.Position) : list Q :=
  map (fun i =>
         match ps !! i, ps !! S i with
         | Some a, Some b =>
             euclidean_distance root (EventDetector.p_center a)
               (EventDetector.p_center b)
         | _, _ => 0
         end)
      (seq 0 (length ps - 1)).

(** Arithmetic mean. *)
Definition mean (l : list Q) : Q :=
  fold_right Qplus 0 l / inject_Z (Z.of_nat (length l)).

(** Last minus first sample timestamp. *)
Definition duration_of (ps : list EventDetector.Position) : Q :=
  match head ps, last ps with
  | Some first, Some final =>
      EventDetector.p_timestamp final - EventDetector.p_timestamp first
  | _, _ => 0
  end.

(** ** Sample inputs *)

Definition sample_poop (x1 y1 x2 y2 : Q) : Detection :=
  mkDetection 99 "poop" (85 # 100) (mkBox x1 y1 x2 y2).

Definition sample_person (x1 y1 x2 y2 : Q) : Detection :=
  mkDetection 0 "person" (92 # 100) (mkBox x1 y1 x2 y2).

Definition sample_dog (x1 y1 x2 y2 : Q) : Detection :=
  mkDetection 16 "dog" (95 # 100) (mkBox x1 y1 x2 y2).

(** A tracker with IoU threshold 0.3, stale threshold 3, confirm count 2
    and a callback. *)
Definition sample_tracker : PoopTracker := PoopTracker.init (3 # 10) 3 2 true.

(** A tracker holding one pending deposit that has a box, as
    [PoopInstance(location=..., bbox=...)] builds it. *)
Definition sample_pending : PoopInstance :=
  mkPoopInstance 0 (115, 115) (mkBox 100 100 130 130) 0 0 pending None 0 0.

Definition sample_pending_tracker : PoopTracker :=
  mkPoopTracker (3 # 10) 3 2 true [sample_pending] 0 0 1.

(** A rational lower approximation of the square root, to run the
    event detector on samples: [sqrt (n / d) = sqrt (n * d) / d]. *)
Definition sample_root (q : Q) : Q :=
  inject_Z (Z.sqrt (Qnum q * Zpos (Qden q))) / inject_Z (Zpos (Qden q)).

(** An event detector with stationary threshold 3 s and aspect-ratio
    threshold 0.8, after one dog detection at time 0. *)
Definition sample_detector : EventDetector.EventDetector :=
  fst (EventDetector.process sample_root (EventDetector.init 3 (8 # 10))
         [sample_dog 100 100 200 150] 0).

(** The track of [sample_detector] after a second detection at time 4:
    50 to the right of the first; of the same center but four times as
    high as wide; the same box again. *)
Definition sample_track_after (d : Detection) : EventDetector.DogTrack :=
  EventDetector.add_position
    (EventDetector.new_track (sample_dog 100 100 200 150) 0) d 4.

Definition sample_moving_track : EventDetector.DogTrack :=
  sample_track_after (sample_dog 150 100 250 150).

Definition sample_upright_track : EventDetector.DogTrack :=
  sample_track_after (sample_dog 125 25 175 225).

Definition sample_still_track : EventDetector.DogTrack :=
  sample_track_after (sample_dog 100 100 200 150).

(** ** Vocabulary of the further properties *)

Definition is_cleaned_event (e : Event) : bool :=
  match e with poop_cleaned _ _ => true | _ => false end.

(** What the loop of [update] leaves of a deposit that claims nothing
    and has no person nearby. *)
Definition missed (p : PoopInstance) : PoopInstance :=
  mkPoopInstance (id p) (location p) (PoopTracker.bbox p) (first_seen p)
    (last_seen p) (status p) (deposited_by p) (missing_frames p + 1) 0.

(** Of any two cycles in a row, one has no person detection. *)
Definition no_adjacent_person_cycles (cs : list Cycle) : Prop :=
  forall k c1 c2, cs !! k = Some c1 -> cs !! S k = Some c2 ->
    person_detections (detections c1) = [] \/
    person_detections (detections c2) = [].

(** The [Detection] that [detect] builds from a box of a result. *)
Definition to_detection (b : Detector.RawBox) : Detection :=
  mkDetection (Detector.raw_cls b) (Detector.raw_name b) (Detector.raw_conf b)
    (Detector.raw_xyxy b).

(** The two tests of [detect] on a box: confidence not below the
    threshold, and a class of interest. *)
Definition passes (threshold : Q) (b : Detector.RawBox) : bool :=
  negb (Qlt_bool (Detector.raw_conf b) threshold) && Detector.relevant_class b.

(** [detect] called on a sequence of frames, given the model's results
    for each: the detector afterwards and what each call returned. *)
Fixpoint detect_frames (d : Detector.Detector)
    (frames : list (list (list Detector.RawBox)))
  : Detector.Detector * list (option (list Detection)) :=
  match frames with
  | [] => (d, [])
  | results :: rest =>
      let '(d', out) := Detector.detect d results in
      let '(d'', outs) := detect_frames d' rest in
      (d'', out :: outs)
  end.

(** The cycles the tracker is given by the loop of [main] on the frames,
    up to the first iteration that raises. *)
Fixpoint tracker_cycles (root : Q -> Q) (d : Detector.Detector)
    (ed : EventDetector.EventDetector) (frames : list Main.Frame)
  : list Cycle :=
  match frames with
  | [] => []
  | f :: rest =>
      match Detector.detect d (Main.frame_results f) with
      | (_, None) => []
      | (d', Some dets) =>
          let '(ed', pooping) :=
            EventDetector.process root ed dets (Main.frame_time f) in
          mkCycle dets pooping (Main.frame_time f)
          :: tracker_cycles root d' ed' rest
      end
  end.

(** A detector with confidence threshold 0.5 that runs the model on
    every second call, after its first call. *)
Definition sample_model_detector : Detector.Detector :=
  Detector.mkDetector "yolov8n.pt" (1 # 2) 2 1.

(** One result of the model: a dog, a faint person, a bus and a poop. *)
Definition sample_results : list (list Detector.RawBox) :=
  [[Detector.mkRawBox (9 # 10) 16 "dog" (mkBox 100 100 200 150);
    Detector.mkRawBox (3 # 10) 0 "person" (mkBox 0 0 10 10);
    Detector.mkRawBox (9 # 10) 5 "bus" (mkBox 300 300 400 400);
    Detector.mkRawBox (8 # 10) 80 "poop" (mkBox 100 100 130 130)]].

Definition sample_dogs_and_poop_dog : Detection :=
  mkDetection 16 "dog" (9 # 10) (mkBox 100 100 200 150).

Definition sample_dogs_and_poop_poop : Detection :=
  mkDetection 80 "poop" (8 # 10) (mkBox 100 100 130 130).

(** The system [main] builds, with inference on every second frame, and
    three frames of the same model output taken one second apart. *)
Definition sample_system : Main.System :=
  Main.mkSystem (Detector.mkDetector "yolov8n.pt" (1 # 2) 2 0)
    (EventDetector.init 3 (8 # 10)) sample_tracker
    (StateManager.init true true 10).

Definition sample_frames : list Main.Frame :=
  [Main.mkFrame sample_results 0; Main.mkFrame sample_results 1;
   Main.mkFrame sample_results 2].

(** The sample [add_position] stores for a detection. *)
Definition sample_of (d : Detection) (now : Q) : EventDetector.Position :=
  EventDetector.mkPosition (center d) (Detector.bbox d) (aspect_ratio d) now.

(** [[d for d in detections if d.class_name == 'dog']] *)
Definition dog_detections (ds : list Detection) : list Detection :=
  List.filter (fun d => bool_decide (class_name d = "dog")) ds.

(** The event detector after [process] was called on each input, in
    order: the detections of a frame and the clock reading. *)
Definition process_all (root : Q -> Q) (ed : EventDetector.EventDetector)
    (inputs : list (list Detection * Q)) : EventDetector.EventDetector :=
  fold_left (fun ed input =>
               fst (EventDetector.process root ed (fst input) (snd input)))
            inputs ed.

(** Track ids are distinct and below the next id, and every track holds
    between 1 and [maxlen] samples. *)
Definition tracks_ok (ed : EventDetector.EventDetector) : Prop :=
  NoDup (map fst (EventDetector.dog_tracks ed)) /\
  Forall (fun x =>
            (fst x < EventDetector.next_track_id ed)%nat /\
            (1 <= length (EventDetector.positions (snd x))
               <= EventDetector.maxlen)%nat)
         (EventDetector.dog_tracks ed).

(** [update] of the aggregator called on each snapshot in order, with
    the clock reading of each call: the aggregator afterwards and the
    alerts of each call. *)
Fixpoint update_all (sm : StateManager.StateManager)
    (snapshots : list (State * Q))
  : StateManager.StateManager * list (list StateManager.Alert) :=
  match snapshots with
  | [] => (sm, [])
  | (st, clock) :: rest =>
      let '(sm', alerts) := StateManager.update sm st clock in
      let '(sm'', later) := update_all sm' rest in
      (sm'', alerts :: later)
  end.

Definition is_aged_alert (a : StateManager.Alert) : bool :=
  match a with StateManager.aged_poop_alert _ => true | _ => false end.

(** The counts the cleanup alerts carry, added up. *)
Definition cleanup_total (alerts : list StateManager.Alert) : Z :=
  fold_right (fun a acc =>
                match a with
                | StateManager.cleanup_alert n => (n + acc)%Z
                | _ => acc
                end) 0%Z alerts.

(** No element is below the one before it. *)
Definition nondecreasing (l : list Z) : Prop :=
  forall k a b, l !! k = Some a -> l !! S k = Some b -> (a <= b)%Z.

(** The clock never goes back from one cycle to a later one. *)
Definition clocks_nondecreasing (cs : list Cycle) : Prop :=
  forall j k cj ck, (j <= k)%nat ->
    cs !! j = Some cj -> cs !! k = Some ck -> now cj <= now ck.

(** An active deposit first seen at time 0. *)
Definition sample_active : PoopInstance :=
  mkPoopInstance 0 (115, 115) (mkBox 100 100 130 130) 0 0 active None 0 0.

(** The system with inference on every frame, and three frames one
    second apart: a poop, then twice a person standing on it. *)
Definition sample_live_system : Main.System :=
  Main.mkSystem (Detector.mkDetector "yolov8n.pt" (1 # 2) 1 0)
    (EventDetector.init 3 (8 # 10)) sample_tracker
    (StateManager.init true true 10).

Definition sample_cleanup_frames : list Main.Frame :=
  [Main.mkFrame
     [[Detector.mkRawBox (8 # 10) 80 "poop" (mkBox 100 100 130 130)]] 0;
   Main.mkFrame
     [[Detector.mkRawBox (9 # 10) 0 "person" (mkBox 100 100 130 130)]] 1;
   Main.mkFrame
     [[Detector.mkRawBox (9 # 10) 0 "person" (mkBox 100 100 130 130)]] 2].

(** * Properties *)

(** ** Comparisons *)

Lemma Qlt_bool_iff x y : Qlt_bool x y = true <-> x < y.
Proof.
  unfold Qlt_bool. rewrite negb_true_iff. split.
  - intros H. apply Qnot_le_lt. intros Hle. apply Qle_bool_iff in Hle. congruence.
  - intros H. destruct (Qle_bool y x) eqn:E; [|done].
    apply Qle_bool_iff in E. lra.
Qed.

Lemma Qlt_bool_false_iff x y : Qlt_bool x y = false <-> y <= x.
Proof.
  unfold Qlt_bool. rewrite negb_false_iff. apply Qle_bool_iff.
Qed.

#[local] Instance Qlt_bool_proper : Proper (Qeq ==> Qeq ==> eq) Qlt_bool.
Proof. intros x x' Hx y y' Hy. unfold Qlt_bool. by rewrite Hx, Hy. Qed.

(** ** Intersection over union *)

Lemma calculate_iou_core a b :
  _calculate_iou a b =
  iou_core (Qmax (bx1 a) (bx1 b)) (Qmax (by1 a) (by1 b))
           (Qmin (bx2 a) (bx2 b)) (Qmin (by2 a) (by2 b))
           (box_area a) (box_area b).
Proof. reflexivity. Qed.

Lemma iou_core_proper x1 x1' y1 y1' x2 x2' y2 y2' a1 a1' a2 a2' :
  x1 == x1' -> y1 == y1' -> x2 == x2' -> y2 == y2' ->
  a1 + a2 == a1' + a2' ->
  iou_core x1 y1 x2 y2 a1 a2 == iou_core x1' y1' x2' y2' a1' a2'.
Proof.
  intros Hx1 Hy1 Hx2 Hy2 Ha. unfold iou_core.
  rewrite Hx1, Hy1, Hx2, Hy2.
  destruct (Qlt_bool x2' x1' || Qlt_bool y2' y1'); [reflexivity|].
  cbv zeta.
  assert (Hu : a1 + a2 - (x2 - x1) * (y2 - y1)
               == a1' + a2' - (x2' - x1') * (y2' - y1')).
  { rewrite Ha, Hx1, Hy1, Hx2, Hy2. reflexivity. }
  rewrite Hu.
  destruct (Qlt_bool 0 _); [|reflexivity].
  rewrite Hu, Hx1, Hy1, Hx2, Hy2. reflexivity.
Qed.

Lemma calculate_iou_sym a b : _calculate_iou a b == _calculate_iou b a.
Proof.
  rewrite !calculate_iou_core.
  apply iou_core_proper; auto using Q.max_comm, Q.min_comm, Qplus_comm.
Qed.

Lemma calculate_iou_self a :
  box_wf a -> 0 < box_area a -> _calculate_iou a a == 1.
Proof.
  intros [Hx Hy] Ha. rewrite calculate_iou_core.
  rewrite (iou_core_proper _ (bx1 a) _ (by1 a) _ (bx2 a) _ (by2 a)
             _ (box_area a) _ (box_area a));
    try apply Q.max_id; try apply Q.min_id; try reflexivity.
  unfold iou_core.
  apply Qlt_bool_false_iff in Hx, Hy. rewrite Hx, Hy. cbn [orb]. cbv zeta.
  fold (box_area a).
  assert (Hu : box_area a + box_area a - box_area a == box_area a) by ring.
  rewrite Hu. apply Qlt_bool_iff in Ha as Hb. rewrite Hb.
  rewrite Hu. field. lra.
Qed.

(** The value is 0 as soon as the intersection rectangle has no area. *)
Lemma calculate_iou_no_overlap a b :
  Qmin (bx2 a) (bx2 b) <= Qmax (bx1 a) (bx1 b) \/
  Qmin (by2 a) (by2 b) <= Qmax (by1 a) (by1 b) ->
  _calculate_iou a b == 0.
Proof.
  intros H. unfold _calculate_iou. cbv zeta.
  destruct (Qlt_bool (Qmin (bx2 a) (bx2 b)) (Qmax (bx1 a) (bx1 b))) eqn:Ex;
    [reflexivity|].
  destruct (Qlt_bool (Qmin (by2 a) (by2 b)) (Qmax (by1 a) (by1 b))) eqn:Ey;
    [reflexivity|].
  cbn [orb]. apply Qlt_bool_false_iff in Ex, Ey.
  assert (Hi : (Qmin (bx2 a) (bx2 b) - Qmax (bx1 a) (bx1 b)) *
               (Qmin (by2 a) (by2 b) - Qmax (by1 a) (by1 b)) == 0).
  { destruct H as [H|H].
    - assert (E : Qmin (bx2 a) (bx2 b) - Qmax (bx1 a) (bx1 b) == 0) by lra.
      rewrite E. ring.
    - assert (E : Qmin (by2 a) (by2 b) - Qmax (by1 a) (by1 b) == 0) by lra.
      rewrite E. ring. }
  destruct (Qlt_bool 0 _); [|reflexivity].
  rewrite Hi. unfold Qdiv. ring.
Qed.

Lemma calculate_iou_disjoint a b :
  boxes_disjoint a b -> _calculate_iou a b == 0.
Proof.
  intros H. apply calculate_iou_no_overlap.
  pose proof (Q.le_min_l (bx2 a) (bx2 b)). pose proof (Q.le_min_r (bx2 a) (bx2 b)).
  pose proof (Q.le_min_l (by2 a) (by2 b)). pose proof (Q.le_min_r (by2 a) (by2 b)).
  pose proof (Q.le_max_l (bx1 a) (bx1 b)). pose proof (Q.le_max_r (bx1 a) (bx1 b)).
  pose proof (Q.le_max_l (by1 a) (by1 b)). pose proof (Q.le_max_r (by1 a) (by1 b)).
  destruct H as [H|[H|[H|H]]]; [left|left|right|right]; lra.
Qed.

Lemma calculate_iou_union_zero a b :
  union_area a b == 0 -> _calculate_iou a b == 0.
Proof.
  unfold union_area, intersection_area, _calculate_iou, box_area. cbv zeta.
  destruct (_ || _); [reflexivity|]. intros H.
  destruct (Qlt_bool 0 _) eqn:E; [|reflexivity].
  apply Qlt_bool_iff in E. lra.
Qed.

(** A box with [x1 > 0] and [y1 > 0] has no overlap with [(0,0,0,0)]. *)
Lemma calculate_iou_zero_box b :
  0 < bx1 b -> 0 < by1 b -> _calculate_iou zero_box b == 0.
Proof.
  intros Hx Hy. apply calculate_iou_no_overlap. left. cbn [zero_box bx1 bx2].
  pose proof (Q.le_min_l 0 (bx2 b)). pose proof (Q.le_max_r 0 (bx1 b)). lra.
Qed.

(** Whatever the detection, the overlap with [(0,0,0,0)] has no area. *)
Lemma calculate_iou_zero_box_any b : _calculate_iou zero_box b == 0.
Proof.
  apply calculate_iou_no_overlap. left. cbn [zero_box bx1 bx2].
  pose proof (Q.le_min_l 0 (bx2 b)). pose proof (Q.le_max_l 0 (bx1 b)). lra.
Qed.

(** C9: [_calculate_iou] is symmetric; it gives 1 for a box of positive
    area (corners in order: [x1 <= x2], [y1 <= y2]) against itself; it
    gives 0 for disjoint boxes and for boxes whose union has area 0. *)
Theorem iou_symmetric_self_disjoint (a b : Box) :
  _calculate_iou a b == _calculate_iou b a /\
  (box_wf a -> 0 < box_area a -> _calculate_iou a a == 1) /\
  (boxes_disjoint a b \/ union_area a b == 0 -> _calculate_iou a b == 0).
Proof.
  split; [apply calculate_iou_sym|].
  split; [apply calculate_iou_self|].
  intros [H|H]; [by apply calculate_iou_disjoint|by apply calculate_iou_union_zero].
Qed.

Lemma iou_symmetric_self_disjoint_witness :
  _calculate_iou (mkBox 100 100 130 130) (mkBox 102 101 132 131)
    == _calculate_iou (mkBox 102 101 132 131) (mkBox 100 100 130 130) /\
  _calculate_iou (mkBox 100 100 130 130) (mkBox 100 100 130 130) == 1 /\
  _calculate_iou (mkBox 100 100 130 130) (mkBox 130 100 160 130) == 0 /\
  _calculate_iou (mkBox 5 5 5 5) (mkBox 5 5 5 5) == 0.
Proof.
  split; [apply (iou_symmetric_self_disjoint _ _)|].
  split.
  { apply (iou_symmetric_self_disjoint (mkBox 100 100 130 130) zero_box).
    - split; vm_compute; discriminate.
    - reflexivity. }
  split.
  - apply (iou_symmetric_self_disjoint
             (mkBox 100 100 130 130) (mkBox 130 100 160 130)).
    left. left. vm_compute. discriminate.
  - apply (iou_symmetric_self_disjoint (mkBox 5 5 5 5) (mkBox 5 5 5 5)).
    right. reflexivity.
Defined.

(** ** The loop over the deposits *)

Section Loop.

Context (t : PoopTracker) (pds pers : list Detection) (now : Q).

Lemma track_poops_app st l1 l2 :
  track_poops t pds pers now st (l1 ++ l2) =
  let '(r1, st1) := track_poops t pds pers now st l1 in
  let '(r2, st2) := track_poops t pds pers now st1 l2 in
  (r1 ++ r2, st2).
Proof.
  revert st. induction l1 as [|p l1 IH]; intros st; cbn [track_poops app].
  - by destruct (track_poops t pds pers now st l2).
  - destruct (track_poop t pds pers now st p) as [p' st'].
    rewrite IH.
    destruct (track_poops t pds pers now st' l1) as [r1 st1].
    by destruct (track_poops t pds pers now st1 l2).
Qed.

Lemma track_poops_length st l :
  length (fst (track_poops t pds pers now st l)) = length l.
Proof.
  revert st. induction l as [|p l IH]; intros st; cbn [track_poops]; [done|].
  destruct (track_poop t pds pers now st p) as [p' st'].
  specialize (IH st').
  destruct (track_poops t pds pers now st' l). cbn in *. by rewrite IH.
Qed.

Lemma track_poops_lookup st l k p :
  l !! k = Some p ->
  fst (track_poops t pds pers now st l) !! k =
  Some (fst (track_poop t pds pers now
               (snd (track_poops t pds pers now st (take k l))) p)).
Proof.
  revert st k. induction l as [|q l IH]; intros st k Hk; [done|].
  cbn [track_poops].
  destruct (track_poop t pds pers now st q) as [q' st'] eqn:Eq.
  destruct k as [|k]; cbn in Hk.
  - injection Hk as ->. cbn [take track_poops snd]. rewrite Eq.
    by destruct (track_poops t pds pers now st' l).
  - specialize (IH st' k Hk). cbn [take track_poops]. rewrite Eq.
    destruct (track_poops t pds pers now st' l) as [r st''].
    destruct (track_poops t pds pers now st' (take k l)) as [r2 st2].
    cbn in *. exact IH.
Qed.

Lemma track_poops_snoc st l p :
  snd (track_poops t pds pers now st (l ++ [p])) =
  snd (track_poop t pds pers now (snd (track_poops t pds pers now st l)) p).
Proof.
  rewrite track_poops_app.
  destruct (track_poops t pds pers now st l) as [r1 st1]. cbn [track_poops snd].
  by destruct (track_poop t pds pers now st1 p).
Qed.

End Loop.

(** ** The creation loops and the staged state *)

Lemma create_tracks_spec cb m now i ds cs :
  create_tracks cb m now i ds cs =
  mkCreateState
    (created cs ++ fresh_active now (cs_uuid cs) (unclaimed m i ds))
    (cs_total_deposits cs + Z.of_nat (length (unclaimed m i ds)))%Z
    (cs_events cs ++
       (if cb then detected_events (cs_uuid cs) (unclaimed m i ds) else []))
    (cs_uuid cs + length (unclaimed m i ds)).
Proof.
  revert i cs. induction ds as [|d ds IH]; intros i cs;
    cbn [create_tracks unclaimed].
  - unfold fresh_active, detected_events. cbn.
    rewrite !app_nil_r, Z.add_0_r, Nat.add_0_r.
    destruct cb; rewrite ?app_nil_r; by destruct cs.
  - case_bool_decide as Hm; [apply IH|].
    rewrite IH. cbn [created cs_total_deposits cs_events cs_uuid length].
    unfold fresh_active, detected_events. cbn [imap].
    rewrite <- !app_assoc. cbn [app].
    rewrite Nat.add_0_r.
    f_equal.
    + do 2 f_equal. apply imap_ext. intros j x _. cbn. f_equal. lia.
    + lia.
    + unfold emit. destruct cb; [|done].
      rewrite <- app_assoc. cbn [app]. do 2 f_equal.
      apply imap_ext. intros j x _. cbn. f_equal. lia.
    + lia.
Qed.

Lemma create_pending_spec now points cs :
  create_pending now points cs =
  mkCreateState
    (created cs ++ fresh_pending now (cs_uuid cs) points)
    (cs_total_deposits cs) (cs_events cs)
    (cs_uuid cs + length points).
Proof.
  revert cs. induction points as [|pt points IH]; intros cs;
    cbn [create_pending].
  - unfold fresh_pending. cbn. rewrite app_nil_r, Nat.add_0_r. by destruct cs.
  - rewrite IH. cbn [created cs_total_deposits cs_events cs_uuid length].
    unfold fresh_pending. cbn [imap]. rewrite <- app_assoc. cbn [app].
    rewrite Nat.add_0_r. f_equal; [|lia].
    do 2 f_equal. apply imap_ext. intros j x _. cbn. f_equal. lia.
Qed.

Lemma loop_end_eq t ds now :
  track_poops t (poop_detections ds) (person_detections ds) now
    (loop_start t) (active_poops t) = (tracked t ds now, loop_end t ds now).
Proof.
  unfold tracked, loop_end, loop_state_at. rewrite firstn_all.
  by destruct (track_poops _ _ _ _ _ _).
Qed.

(** The staged state, field by field. *)
Lemma stage_eq t ds points now :
  stage t ds points now =
  let us := unclaimed (matched_indices (loop_end t ds now)) 0
              (poop_detections ds) in
  mkStaged
    (tracked t ds now ++ fresh_active now (uuid_supply t) us ++
       fresh_pending now (uuid_supply t + length us) points)
    (matched_indices (loop_end t ds now))
    (ls_cleaned_count (loop_end t ds now))
    (total_deposits t + Z.of_nat (length us))%Z
    (ls_events (loop_end t ds now) ++
       (if event_callback t then detected_events (uuid_supply t) us else []))
    (uuid_supply t + length us + length points).
Proof.
  unfold stage. rewrite loop_end_eq.
  rewrite create_pending_spec, create_tracks_spec.
  cbn [created cs_total_deposits cs_events cs_uuid].
  by rewrite <- app_assoc.
Qed.

Lemma tracked_length t ds now :
  length (tracked t ds now) = length (active_poops t).
Proof. apply track_poops_length. Qed.

Lemma tracked_lookup t ds now k p :
  active_poops t !! k = Some p ->
  tracked t ds now !! k =
  Some (fst (track_poop t (poop_detections ds) (person_detections ds) now
               (loop_state_at t ds now k) p)).
Proof. apply track_poops_lookup. Qed.

Lemma staged_lookup t ds points now k p :
  active_poops t !! k = Some p ->
  staged_poops (stage t ds points now) !! k =
  Some (fst (track_poop t (poop_detections ds) (person_detections ds) now
               (loop_state_at t ds now k) p)).
Proof.
  intros Hk. rewrite stage_eq. cbn [staged_poops].
  rewrite lookup_app_l; [by apply tracked_lookup|].
  rewrite tracked_length. by eapply lookup_lt_Some.
Qed.

Lemma loop_state_at_S t ds now k p :
  active_poops t !! k = Some p ->
  loop_state_at t ds now (S k) =
  snd (track_poop t (poop_detections ds) (person_detections ds) now
         (loop_state_at t ds now k) p).
Proof.
  intros Hk. unfold loop_state_at.
  rewrite (take_S_r _ _ _ Hk). apply track_poops_snoc.
Qed.

(** ** The search for the best detection *)

Lemma scan_detections_Some_stays thr pb m i ds b x :
  scan_detections thr pb m i ds b (Some x) <> None.
Proof.
  revert i b x. induction ds as [|d ds IH]; intros i b x; cbn [scan_detections];
    [done|].
  case_bool_decide; [apply IH|]. cbv zeta.
  destruct (_ && _); apply IH.
Qed.

Lemma scan_detections_None thr pb m i ds b best :
  scan_detections thr pb m i ds b best = None <->
  best = None /\
  forall j d, ds !! j = Some d -> (i + j)%nat ∉ m ->
    ~ (b < _calculate_iou pb (Detector.bbox d) /\
       thr < _calculate_iou pb (Detector.bbox d)).
Proof.
  revert i b best. induction ds as [|d ds IH]; intros i b best;
    cbn [scan_detections].
  - split; [intros ->; split; [done|]; intros j d' Hj; by destruct j|by intros [-> _]].
  - case_bool_decide as Hm.
    + rewrite IH. split; intros [-> H]; (split; [done|]); intros j d' Hj Hn.
      * destruct j as [|j]; cbn in Hj.
        { exfalso. apply Hn. by rewrite Nat.add_0_r. }
        apply (H j d' Hj). by rewrite Nat.add_succ_comm.
      * apply (H (S j) d'); [done|]. by rewrite <- Nat.add_succ_comm.
    + cbv zeta.
      destruct (Qlt_bool b _ && Qlt_bool thr _) eqn:E.
      * split.
        { intros H. by apply scan_detections_Some_stays in H. }
        intros [-> H]. exfalso. apply (H 0%nat d); [done|by rewrite Nat.add_0_r|].
        apply andb_true_iff in E as [E1 E2]. by rewrite <- !Qlt_bool_iff.
      * rewrite IH. split; intros [-> H]; (split; [done|]); intros j d' Hj Hn.
        { destruct j as [|j]; cbn in Hj.
          - injection Hj as <-. rewrite <- !Qlt_bool_iff. intros [E1 E2].
            rewrite E1, E2 in E. discriminate E.
          - apply (H j d' Hj). by rewrite Nat.add_succ_comm. }
        apply (H (S j) d'); [done|]. by rewrite <- Nat.add_succ_comm.
Qed.

Lemma scan_detections_Some thr pb m i ds b best i' d' :
  scan_detections thr pb m i ds b best = Some (i', d') ->
  best = Some (i', d') \/
  exists j, i' = (i + j)%nat /\ ds !! j = Some d' /\ (i' ∉ m) /\
            thr < _calculate_iou pb (Detector.bbox d').
Proof.
  revert i b best. induction ds as [|d ds IH]; intros i b best;
    cbn [scan_detections]; [by left|].
  assert (Hshift : forall j, i' = (S i + j)%nat -> ds !! j = Some d' ->
            exists j0, i' = (i + j0)%nat /\ (d :: ds) !! j0 = Some d').
  { intros j -> Hj. exists (S j). split; [lia|done]. }
  case_bool_decide as Hm.
  - intros H. apply IH in H as [H|(j & Hi & Hj & Hn & Hlt)]; [by left|right].
    destruct (Hshift j Hi Hj) as (j0 & ? & ?). by exists j0.
  - cbv zeta. destruct (Qlt_bool b _ && Qlt_bool thr _) eqn:E.
    + intros H. apply IH in H as [H|(j & Hi & Hj & Hn & Hlt)]; right.
      * injection H as <- <-. exists 0%nat.
        apply andb_true_iff in E as [_ E2]. apply Qlt_bool_iff in E2.
        rewrite Nat.add_0_r. done.
      * destruct (Hshift j Hi Hj) as (j0 & ? & ?). by exists j0.
    + intros H. apply IH in H as [H|(j & Hi & Hj & Hn & Hlt)]; [by left|right].
      destruct (Hshift j Hi Hj) as (j0 & ? & ?). by exists j0.
Qed.

Lemma find_best_None thr pb m ds :
  find_best thr pb m ds = None <->
  forall j d, ds !! j = Some d -> j ∉ m ->
    ~ (0 < _calculate_iou pb (Detector.bbox d) /\
       thr < _calculate_iou pb (Detector.bbox d)).
Proof.
  unfold find_best. rewrite scan_detections_None. cbn [Nat.add].
  split; [intros [_ H]; exact H|intros H; split; [reflexivity|exact H]].
Qed.

Lemma find_best_Some thr pb m ds i d :
  find_best thr pb m ds = Some (i, d) ->
  ds !! i = Some d /\ (i ∉ m) /\ thr < _calculate_iou pb (Detector.bbox d).
Proof.
  unfold find_best. intros H.
  apply scan_detections_Some in H as [H|(j & -> & Hj & Hn & Hlt)]; [done|].
  done.
Qed.

(** With a threshold that is not negative, a deposit is matched exactly
    when an unclaimed detection has IoU above the threshold. *)
Lemma find_best_is_Some thr pb m ds :
  0 <= thr ->
  is_Some (find_best thr pb m ds) <->
  exists j d, ds !! j = Some d /\ (j ∉ m) /\
              thr < _calculate_iou pb (Detector.bbox d).
Proof.
  intros Hthr. split.
  - intros [[i d] H]. apply find_best_Some in H. by exists i, d.
  - intros (j & d & Hj & Hn & Hlt).
    destruct (find_best thr pb m ds) eqn:E; [done|].
    exfalso. rewrite find_best_None in E. apply (E j d Hj Hn). split; [lra|done].
Qed.

(** The default box never matches anything. *)
Lemma find_best_zero_box thr m ds : find_best thr zero_box m ds = None.
Proof.
  apply find_best_None. intros j d _ _ [H _].
  rewrite calculate_iou_zero_box_any in H. lra.
Qed.

(** ** The events of a call *)

Lemma filter_nil_Forall {A} (f : A -> bool) (l : list A) :
  Forall (fun x => f x = false) l -> List.filter f l = [].
Proof.
  induction 1 as [|x l Hx _ IH]; [done|]. cbn. by rewrite Hx.
Qed.

Lemma filter_all_Forall {A} (f : A -> bool) (l : list A) :
  Forall (fun x => f x = true) l -> List.filter f l = l.
Proof.
  induction 1 as [|x l Hx _ IH]; [done|]. cbn. by rewrite Hx, IH.
Qed.

(** What the loop body emits for a deposit carries that deposit's id and
    is never a [poop_detected]. *)
Lemma track_poop_events t pds pers now st p :
  exists E,
    ls_events (snd (track_poop t pds pers now st p)) = ls_events st ++ E /\
    Forall (fun e => event_id e = id p /\ is_detected e = false) E.
Proof.
  unfold track_poop.
  destruct (find_best _ _ _ _) as [[idx d]|].
  - unfold on_match, emit.
    destruct (status p), (event_callback t); cbn [snd ls_events];
      first [ by exists []; rewrite app_nil_r
            | eexists [_]; split; [reflexivity|]; by repeat constructor ].
  - unfold on_miss, emit.
    destruct (_is_human_nearby _ _ _); [|by exists []; rewrite app_nil_r].
    destruct (_ <=? _)%Z; [|by exists []; rewrite app_nil_r].
    destruct (event_callback t); cbn [snd ls_events];
      first [ by exists []; rewrite app_nil_r
            | eexists [_]; split; [reflexivity|]; by repeat constructor ].
Qed.

(** The events between two points of the loop belong to the deposits in
    between. *)
Lemma loop_events_between t ds now k n :
  (k + n <= length (active_poops t))%nat ->
  exists E,
    ls_events (loop_state_at t ds now (k + n)) =
    ls_events (loop_state_at t ds now k) ++ E /\
    Forall (fun e => is_detected e = false /\
              exists j p, (k <= j < k + n)%nat /\
                          active_poops t !! j = Some p /\ event_id e = id p) E.
Proof.
  induction n as [|n IH]; intros Hle.
  - exists []. rewrite Nat.add_0_r, app_nil_r. by split.
  - destruct IH as (E & HE & HF); [lia|].
    destruct (lookup_lt_is_Some_2 (active_poops t) (k + n)) as [p Hp]; [lia|].
    replace (k + S n)%nat with (S (k + n)) by lia.
    rewrite (loop_state_at_S _ _ _ _ _ Hp).
    destruct (track_poop_events t (poop_detections ds) (person_detections ds)
                now (loop_state_at t ds now (k + n)) p) as (E' & HE' & HF').
    exists (E ++ E'). split; [by rewrite HE', HE, app_assoc|].
    apply Forall_app. split.
    + eapply Forall_impl; [exact HF|]. cbn.
      intros e (Hd & j & q & Hj & Hq & He). split; [done|].
      exists j, q. split; [lia|done].
    + eapply Forall_impl; [exact HF'|]. cbn.
      intros e (He & Hd). split; [done|]. exists (k + n)%nat, p.
      split; [lia|done].
Qed.

Lemma loop_state_at_0 t ds now : loop_state_at t ds now 0 = loop_start t.
Proof. reflexivity. Qed.

(** Every event of the loop belongs to a deposit of [active_poops]. *)
Lemma loop_events_ids t ds now :
  Forall (fun e => is_detected e = false /\
            exists p, p ∈ active_poops t /\ event_id e = id p)
         (ls_events (loop_end t ds now)).
Proof.
  destruct (loop_events_between t ds now 0 (length (active_poops t)))
    as (E & HE & HF); [lia|].
  unfold loop_end. cbn [Nat.add] in HE. rewrite HE, loop_state_at_0. cbn.
  eapply Forall_impl; [exact HF|]. cbn.
  intros e (Hd & j & p & _ & Hp & He). split; [done|].
  exists p. split; [|done]. by eapply list_elem_of_lookup_2.
Qed.

Lemma detected_events_kind uuid us :
  Forall (fun e => is_detected e = true) (detected_events uuid us).
Proof.
  unfold detected_events. apply Forall_forall. intros e He.
  apply elem_of_lookup_imap in He as (j & d & -> & _). done.
Qed.

Lemma update_events t ds points now :
  snd (update t ds points now) =
  ls_events (loop_end t ds now) ++
  (if event_callback t
   then detected_events (uuid_supply t)
          (unclaimed (matched_indices (loop_end t ds now)) 0 (poop_detections ds))
   else []).
Proof. unfold update. cbn [snd]. by rewrite stage_eq. Qed.

(** ** Creation of deposits *)

Lemma elem_of_unclaimed m i ds d :
  d ∈ unclaimed m i ds <-> exists j, ds !! j = Some d /\ (i + j)%nat ∉ m.
Proof.
  revert i. induction ds as [|x ds IH]; intros i; cbn [unclaimed].
  - split; [by intros ?%elem_of_nil|by intros (j & ? & _)].
  - assert (Hshift : (exists j, ds !! j = Some d /\ (S i + j)%nat ∉ m) ->
                     exists j, (x :: ds) !! j = Some d /\ (i + j)%nat ∉ m).
    { intros (j & Hj & Hn). exists (S j). split; [done|].
      by rewrite <- Nat.add_succ_comm. }
    case_bool_decide as Hm.
    + rewrite IH. split; [done|]. intros ([|j] & Hj & Hn).
      * exfalso. apply Hn. by rewrite Nat.add_0_r.
      * exists j. split; [done|]. by rewrite Nat.add_succ_comm.
    + rewrite elem_of_cons, IH. split.
      * intros [->|H]; [|by apply Hshift].
        exists 0%nat. split; [done|]. by rewrite Nat.add_0_r.
      * intros ([|j] & Hj & Hn); [left; by injection Hj|right].
        exists j. split; [done|]. by rewrite Nat.add_succ_comm.
Qed.

Lemma keep_new_poop stale uuid now d :
  (0 < stale)%Z -> keep stale (new_poop uuid now d) = true.
Proof. intros H. unfold keep. cbn. by apply Z.ltb_lt. Qed.

Lemma keep_pending_poop stale uuid now pt :
  (0 < stale)%Z -> keep stale (pending_poop uuid now pt) = true.
Proof. intros H. unfold keep. cbn. by apply Z.ltb_lt. Qed.

Lemma elem_of_filter_keep stale (l : list PoopInstance) p :
  p ∈ List.filter (keep stale) l <-> p ∈ l /\ keep stale p = true.
Proof. rewrite !list_elem_of_In. apply filter_In. Qed.

(** C6: every poop detection whose index the matching loop left
    unclaimed yields exactly one new deposit, created active with the
    detection's box and center and a fresh id; [total_deposits] grows by
    the number of such detections; with a callback registered, the
    [poop_detected] notifications of the call are exactly one per such
    detection, carrying id, location and box; with a positive stale
    threshold the new deposits are in the live list the call leaves. *)
Theorem unclaimed_detections_create_active
    (t : PoopTracker) (ds : list Detection) (points : list Point) (now : Q) :
  let s := stage t ds points now in
  let t' := fst (update t ds points now) in
  let us := unclaimed (staged_matched s) 0 (poop_detections ds) in
  let news := fresh_active now (uuid_supply t) us in
  (forall d, d ∈ us <->
     exists j, poop_detections ds !! j = Some d /\ j ∉ staged_matched s) /\
  staged_poops s =
    tracked t ds now ++ news ++
    fresh_pending now (uuid_supply t + length us) points /\
  length news = length us /\
  (forall j d, us !! j = Some d ->
     news !! j =
       Some (mkPoopInstance (uuid_supply t + j) (center d) (Detector.bbox d)
               now now active None 0 0)) /\
  total_deposits t' = (total_deposits t + Z.of_nat (length us))%Z /\
  (event_callback t = true ->
     List.filter is_detected (snd (update t ds points now)) =
       detected_events (uuid_supply t) us /\
     forall j d, us !! j = Some d ->
       detected_events (uuid_supply t) us !! j =
         Some (poop_detected (uuid_supply t + j) (center d) (Detector.bbox d))) /\
  ((0 < stale_threshold t)%Z -> forall p, p ∈ news -> p ∈ active_poops t').
Proof.
  cbv zeta. unfold update. cbn [fst snd]. rewrite stage_eq.
  cbn [staged_poops staged_matched staged_total_deposits staged_events
       total_deposits active_poops].
  set (us := unclaimed _ _ _).
  split; [intros d; apply (elem_of_unclaimed _ 0)|].
  split; [done|].
  split; [apply length_imap|].
  split.
  { intros j d Hj. unfold fresh_active. rewrite list_lookup_imap, Hj. done. }
  split; [done|].
  split.
  - intros ->. split.
    + rewrite List.filter_app.
      rewrite (filter_nil_Forall _ (ls_events _)).
      * cbn [app]. apply filter_all_Forall, detected_events_kind.
      * eapply Forall_impl; [apply loop_events_ids|]. by intros e [He _].
    + intros j d Hj. unfold detected_events. by rewrite list_lookup_imap, Hj.
  - intros Hstale p Hp. apply elem_of_filter_keep. split.
    + apply elem_of_app. right. apply elem_of_app. by left.
    + apply elem_of_lookup_imap in Hp as (j & d & -> & _).
      by apply keep_new_poop.
Qed.

(** C7: every pooping event point yields exactly one new deposit, created
    pending at that point with the default box and a fresh id, whatever
    deposits exist already; the points change neither [total_deposits]
    nor the notifications of the call; with a positive stale threshold,
    [n] points make the live list [n] deposits longer. *)
Theorem event_points_create_pending
    (t : PoopTracker) (ds : list Detection) (points : list Point) (now : Q) :
  let s := stage t ds points now in
  let t' := fst (update t ds points now) in
  let t0 := fst (update t ds [] now) in
  let u := (uuid_supply t +
            length (unclaimed (staged_matched s) 0 (poop_detections ds)))%nat in
  let news := fresh_pending now u points in
  staged_poops s = staged_poops (stage t ds [] now) ++ news /\
  length news = length points /\
  (forall j pt, points !! j = Some pt ->
     news !! j =
       Some (mkPoopInstance (u + j) pt zero_box now now pending None 0 0)) /\
  total_deposits t' = total_deposits t0 /\
  snd (update t ds points now) = snd (update t ds [] now) /\
  ((0 < stale_threshold t)%Z ->
     (forall p, p ∈ news -> p ∈ active_poops t') /\
     active_poops t' = active_poops t0 ++ news /\
     length (active_poops t') =
       (length (active_poops t0) + length points)%nat).
Proof.
  cbv zeta. unfold update. cbn [fst snd]. rewrite !stage_eq.
  cbn [staged_poops staged_matched staged_total_deposits staged_events
       total_deposits active_poops].
  set (us := unclaimed _ _ _). set (u := (uuid_supply t + length us)%nat).
  assert (Hnil : fresh_pending now u [] = []) by done.
  rewrite Hnil, !app_nil_r.
  split; [by rewrite <- app_assoc|].
  split; [apply length_imap|].
  split.
  { intros j pt Hj. unfold fresh_pending. by rewrite list_lookup_imap, Hj. }
  split; [done|]. split; [done|].
  intros Hstale.
  assert (Hkeep : List.filter (keep (stale_threshold t)) (fresh_pending now u points)
                  = fresh_pending now u points).
  { apply filter_all_Forall, Forall_forall. intros p Hp.
    apply elem_of_lookup_imap in Hp as (j & pt & -> & _).
    by apply keep_pending_poop. }
  assert (Heq : List.filter (keep (stale_threshold t))
                  (tracked t ds now ++ fresh_active now (uuid_supply t) us ++
                   fresh_pending now u points) =
                List.filter (keep (stale_threshold t))
                  (tracked t ds now ++ fresh_active now (uuid_supply t) us) ++
                fresh_pending now u points).
  { by rewrite app_assoc, List.filter_app, Hkeep. }
  split; [|split].
  - intros p Hp. rewrite Heq. apply elem_of_app. by right.
  - exact Heq.
  - rewrite Heq, length_app. f_equal. apply length_imap.
Qed.

(** ** The loop body, case by case *)

Lemma track_poop_id t pds pers now st p :
  id (fst (track_poop t pds pers now st p)) = id p.
Proof.
  unfold track_poop, on_match, on_miss.
  destruct (find_best _ _ _ _) as [[idx d]|].
  - by destruct (status p).
  - destruct (_is_human_nearby _ _ _); [|done]. by destruct (_ <=? _)%Z.
Qed.

Lemma track_poop_exact_events t pds pers now st p :
  ls_events (snd (track_poop t pds pers now st p)) =
  ls_events st ++ poop_events t pds pers (matched_indices st) p.
Proof.
  unfold track_poop, poop_events, on_match, on_miss, emit.
  destruct (find_best _ _ _ _) as [[idx d]|].
  - destruct (status p), (event_callback t); cbn; by rewrite ?app_nil_r.
  - destruct (_is_human_nearby _ _ _), (_ <=? _)%Z, (event_callback t);
      cbn; by rewrite ?app_nil_r.
Qed.

Lemma poop_events_id t pds pers m p e :
  e ∈ poop_events t pds pers m p -> event_id e = id p.
Proof.
  unfold poop_events. destruct (event_callback t); [|by intros ?%elem_of_nil].
  destruct (find_best _ _ _ _) as [[idx d]|].
  - case_bool_decide; [|by intros ?%elem_of_nil].
    by intros ->%list_elem_of_singleton.
  - destruct (_ && _); [|by intros ?%elem_of_nil].
    by intros ->%list_elem_of_singleton.
Qed.

(** The events of the loop are those of its iterations, in order. *)
Lemma loop_events_concat t ds now k :
  ls_events (loop_state_at t ds now k) =
  concat (imap (fun j p =>
                  poop_events t (poop_detections ds) (person_detections ds)
                    (matched_indices (loop_state_at t ds now j)) p)
               (take k (active_poops t))).
Proof.
  induction k as [|k IH]; [done|].
  destruct (active_poops t !! k) as [p|] eqn:Hp.
  - rewrite (loop_state_at_S _ _ _ _ _ Hp), track_poop_exact_events, IH.
    rewrite (take_S_r _ _ _ Hp), imap_app, concat_app. cbn [imap concat].
    rewrite app_nil_r, length_take_le, Nat.add_0_r; [done|].
    apply lookup_lt_Some in Hp. lia.
  - apply lookup_ge_None in Hp.
    unfold loop_state_at in *. rewrite take_ge in IH by lia.
    by rewrite !take_ge by lia.
Qed.

Lemma loop_end_events t ds now :
  ls_events (loop_end t ds now) =
  concat (imap (fun j p =>
                  poop_events t (poop_detections ds) (person_detections ds)
                    (matched_indices (loop_state_at t ds now j)) p)
               (active_poops t)).
Proof. unfold loop_end. by rewrite loop_events_concat, firstn_all. Qed.

Lemma elem_of_concat {A} (x : A) (ls : list (list A)) :
  x ∈ concat ls <-> exists l, x ∈ l /\ l ∈ ls.
Proof.
  rewrite list_elem_of_In, in_concat. split.
  - intros (l & Hl & Hx). exists l. by rewrite !list_elem_of_In.
  - intros (l & Hx & Hl). exists l. by rewrite <- !list_elem_of_In.
Qed.

Lemma filter_concat_imap_unique {A B} (F : nat -> A -> list B) (f : B -> bool)
    (l : list A) k p :
  l !! k = Some p ->
  (forall j q e, l !! j = Some q -> e ∈ F j q -> f e = true -> j = k) ->
  List.filter f (concat (imap F l)) = List.filter f (F k p).
Proof.
  intros Hk Huniq.
  assert (Hlen : length (take k l) = k).
  { apply length_take_le. apply lookup_lt_Some in Hk. lia. }
  rewrite <- (take_drop_middle l k p Hk) at 1.
  rewrite imap_app, concat_app, List.filter_app. cbn [imap concat].
  rewrite List.filter_app, Hlen, Nat.add_0_r.
  rewrite (filter_nil_Forall f (concat (imap F (take k l)))).
  - rewrite (filter_nil_Forall f (concat (imap _ (drop (S k) l)))).
    + by rewrite app_nil_r.
    + apply Forall_forall. intros e He.
      apply elem_of_concat in He as (es & He & Hes).
      apply elem_of_lookup_imap in Hes as (j & q & -> & Hj).
      destruct (f e) eqn:Ef; [|done]. exfalso.
      rewrite lookup_drop in Hj. cbn in He.
      replace (S k + j)%nat with (k + S j)%nat in Hj by lia.
      specialize (Huniq _ _ _ Hj He Ef). lia.
  - apply Forall_forall. intros e He.
    apply elem_of_concat in He as (es & He & Hes).
    apply elem_of_lookup_imap in Hes as (j & q & -> & Hj).
    destruct (f e) eqn:Ef; [|done]. exfalso.
    apply lookup_take_Some in Hj as [Hj Hlt].
    specialize (Huniq _ _ _ Hj He Ef). lia.
Qed.

Lemma NoDup_map_lookup_inj {A B} (g : A -> B) (l : list A) j k x y :
  NoDup (map g l) -> l !! j = Some x -> l !! k = Some y -> g x = g y -> j = k.
Proof.
  intros Hnd Hj Hk Hg.
  apply (NoDup_lookup (map g l) j k (g x) Hnd).
  - change (map g l) with (g <$> l). by rewrite list_lookup_fmap, Hj.
  - change (map g l) with (g <$> l). by rewrite list_lookup_fmap, Hk, Hg.
Qed.

(** With distinct ids, the events of a call that carry the id of the
    deposit at index [k] are those of its own iteration. *)
Lemma update_events_of_id t ds points now k p (f : Event -> bool) :
  NoDup (map id (active_poops t)) ->
  active_poops t !! k = Some p ->
  (forall e, f e = true -> event_id e = id p /\ is_detected e = false) ->
  List.filter f (snd (update t ds points now)) =
  List.filter f (poop_events t (poop_detections ds) (person_detections ds)
                   (matched_indices (loop_state_at t ds now k)) p).
Proof.
  intros Hnd Hk Hf. rewrite update_events, List.filter_app, loop_end_events.
  rewrite (filter_concat_imap_unique _ f _ k p Hk).
  - rewrite (filter_nil_Forall f (if event_callback t then _ else _));
      [by rewrite app_nil_r|].
    destruct (event_callback t); [|done].
    eapply Forall_impl; [apply detected_events_kind|]. cbn. intros e He.
    destruct (f e) eqn:Ef; [|done]. apply Hf in Ef as [_ Ef]. congruence.
  - intros j q e Hj He Ef. apply poop_events_id in He.
    apply Hf in Ef as [Ef _].
    eapply (NoDup_map_lookup_inj id); eauto. congruence.
Qed.

(** ** Identifiers *)

Lemma track_poops_ids t pds pers now st l :
  map id (fst (track_poops t pds pers now st l)) = map id l.
Proof.
  revert st. induction l as [|p l IH]; intros st; cbn [track_poops]; [done|].
  pose proof (track_poop_id t pds pers now st p) as Hid.
  destruct (track_poop t pds pers now st p) as [p' st'].
  specialize (IH st'). destruct (track_poops t pds pers now st' l).
  cbn in *. by rewrite Hid, IH.
Qed.

Lemma fresh_active_ids now u us :
  map id (fresh_active now u us) = seq u (length us).
Proof.
  revert u. induction us as [|d us IH]; intros u; [done|].
  unfold fresh_active in *. cbn [imap map length seq id new_poop].
  rewrite Nat.add_0_r. f_equal. rewrite <- IH. f_equal.
  apply imap_ext. intros j x _. cbn. f_equal. lia.
Qed.

Lemma fresh_pending_ids now u points :
  map id (fresh_pending now u points) = seq u (length points).
Proof.
  revert u. induction points as [|pt points IH]; intros u; [done|].
  unfold fresh_pending in *. cbn [imap map length seq id pending_poop].
  rewrite Nat.add_0_r. f_equal. rewrite <- IH. f_equal.
  apply imap_ext. intros j x _. cbn. f_equal. lia.
Qed.

Lemma staged_ids t ds points now :
  map id (staged_poops (stage t ds points now)) =
  map id (active_poops t) ++
  seq (uuid_supply t)
      (length (unclaimed (matched_indices (loop_end t ds now)) 0
                 (poop_detections ds)) + length points).
Proof.
  rewrite stage_eq. cbn [staged_poops].
  rewrite !map_app, fresh_active_ids, fresh_pending_ids.
  unfold tracked. rewrite track_poops_ids. by rewrite seq_app.
Qed.

Lemma staged_ids_NoDup t ds points now :
  ids_ok t -> NoDup (map id (staged_poops (stage t ds points now))).
Proof.
  intros [Hnd Hlt]. rewrite staged_ids. apply NoDup_app. split; [done|].
  split; [|apply NoDup_seq].
  intros i Hi Hs. apply list_elem_of_In, in_seq in Hs.
  change (map id (active_poops t)) with (id <$> active_poops t) in Hi.
  apply list_elem_of_fmap in Hi as (p & -> & Hp).
  rewrite Forall_forall in Hlt. specialize (Hlt p Hp). lia.
Qed.

Lemma filter_sublist {A} (f : A -> bool) (l : list A) :
  sublist (List.filter f l) l.
Proof.
  induction l as [|x l IH]; [done|]. cbn.
  destruct (f x); by constructor.
Qed.

Lemma update_ids_ok t ds points now :
  ids_ok t -> ids_ok (fst (update t ds points now)).
Proof.
  intros Hok. pose proof (staged_ids_NoDup t ds points now Hok) as Hnd.
  destruct Hok as [_ Hlt].
  unfold ids_ok, update. cbn [fst active_poops uuid_supply].
  pose proof (filter_sublist (keep (stale_threshold t))
                (staged_poops (stage t ds points now))) as Hsub.
  split.
  - eapply sublist_NoDup; [exact Hnd|].
    change (map id ?l) with (id <$> l). by apply fmap_sublist.
  - apply Forall_forall. intros p Hp.
    apply elem_of_filter_keep in Hp as [Hp _].
    assert (Hin : id p ∈ map id (staged_poops (stage t ds points now))).
    { change (map id ?l) with (id <$> l). apply list_elem_of_fmap. by exists p. }
    rewrite staged_ids in Hin. rewrite stage_eq. cbn [staged_uuid].
    apply elem_of_app in Hin as [Hin|Hin].
    + change (map id ?l) with (id <$> l) in Hin.
      apply list_elem_of_fmap in Hin as (q & -> & Hq).
      rewrite Forall_forall in Hlt. specialize (Hlt q Hq). lia.
    + apply list_elem_of_In, in_seq in Hin. lia.
Qed.

Lemma init_ids_ok thr stale confirm cb : ids_ok (init thr stale confirm cb).
Proof. split; cbn; constructor. Qed.

Lemma run_ids_ok t cs : ids_ok t -> ids_ok (run t cs).
Proof.
  revert t. induction cs as [|c cs IH]; intros t Hok; [done|].
  cbn. apply IH. by apply update_ids_ok.
Qed.

(** The configuration never changes. *)
Lemma run_config t cs :
  iou_threshold (run t cs) = iou_threshold t /\
  stale_threshold (run t cs) = stale_threshold t /\
  cleanup_confirm_frames (run t cs) = cleanup_confirm_frames t /\
  event_callback (run t cs) = event_callback t.
Proof.
  revert t. induction cs as [|c cs IH]; intros t; [done|].
  change (run t (c :: cs)) with (run (step t c) cs).
  destruct (IH (step t c)) as (-> & -> & -> & ->). done.
Qed.

(** ** One deposit through one call *)

Lemma on_miss_eq t pers st p :
  on_miss t pers st p =
  let near := _is_human_nearby p pers proximity_radius in
  let fires :=
    near && (cleanup_confirm_frames t <=? cleanup_candidate_frames p + 1)%Z in
  (mkPoopInstance (id p) (location p) (PoopTracker.bbox p) (first_seen p)
     (last_seen p) (if fires then cleaned else status p) (deposited_by p)
     (missing_frames p + 1)
     (if near then cleanup_candidate_frames p + 1 else 0)%Z,
   mkLoopState (matched_indices st)
     (ls_cleaned_count st + (if fires then 1 else 0))%Z
     (ls_events st ++
        (if fires && event_callback t
         then [poop_cleaned (id p) (location p)] else []))).
Proof.
  unfold on_miss, emit. cbv zeta.
  destruct (_is_human_nearby _ _ _), (_ <=? _)%Z, (event_callback t);
    cbn [andb]; rewrite ?app_nil_r, ?Z.add_0_r; by destruct st.
Qed.

Lemma on_match_eq t now st p idx d :
  on_match t now st p idx d =
  let was_pending := bool_decide (status p = pending) in
  (mkPoopInstance (id p) (center d) (Detector.bbox d) (first_seen p) now
     (if was_pending then active else status p) (deposited_by p) 0 0,
   mkLoopState ({[ idx ]} ∪ matched_indices st) (ls_cleaned_count st)
     (ls_events st ++
        (if was_pending && event_callback t
         then [poop_confirmed (id p) (center d)] else []))).
Proof.
  unfold on_match, emit. cbv zeta.
  destruct (status p), (event_callback t); cbn; by rewrite ?app_nil_r.
Qed.

Lemma staged_miss t ds points now k p :
  active_poops t !! k = Some p ->
  claimed_by t ds now k p = None ->
  staged_poops (stage t ds points now) !! k =
    Some (fst (on_miss t (person_detections ds) (loop_state_at t ds now k) p)) /\
  loop_state_at t ds now (S k) =
    snd (on_miss t (person_detections ds) (loop_state_at t ds now k) p).
Proof.
  intros Hk Hc. rewrite (staged_lookup _ _ _ _ _ _ Hk).
  rewrite (loop_state_at_S _ _ _ _ _ Hk).
  unfold claimed_by in Hc. unfold track_poop. by rewrite Hc.
Qed.

Lemma staged_match t ds points now k p idx d :
  active_poops t !! k = Some p ->
  claimed_by t ds now k p = Some (idx, d) ->
  staged_poops (stage t ds points now) !! k =
    Some (fst (on_match t now (loop_state_at t ds now k) p idx d)) /\
  loop_state_at t ds now (S k) =
    snd (on_match t now (loop_state_at t ds now k) p idx d).
Proof.
  intros Hk Hc. rewrite (staged_lookup _ _ _ _ _ _ Hk).
  rewrite (loop_state_at_S _ _ _ _ _ Hk).
  unfold claimed_by in Hc. unfold track_poop. by rewrite Hc.
Qed.

Lemma keep_false_iff stale p :
  keep stale p = false <->
  status p = cleaned \/ (stale <= missing_frames p)%Z.
Proof.
  unfold keep. rewrite andb_false_iff, negb_false_iff, bool_decide_eq_true.
  by rewrite Z.ltb_ge.
Qed.

Lemma keep_true_iff stale p :
  keep stale p = true <->
  status p <> cleaned /\ (missing_frames p < stale)%Z.
Proof.
  unfold keep. rewrite andb_true_iff, negb_true_iff, bool_decide_eq_false.
  by rewrite Z.ltb_lt.
Qed.

(** A [poop_cleaned] notification of a call comes from a deposit that
    the call found unmatched, with a person nearby and the counter at
    the confirm count; that deposit is staged with status cleaned. *)
Lemma cleaned_event_origin t ds points now i loc :
  poop_cleaned i loc ∈ snd (update t ds points now) ->
  exists k p,
    active_poops t !! k = Some p /\ id p = i /\ location p = loc /\
    claimed_by t ds now k p = None /\
    _is_human_nearby p (person_detections ds) proximity_radius = true /\
    (cleanup_confirm_frames t <= cleanup_candidate_frames p + 1)%Z /\
    exists p', staged_poops (stage t ds points now) !! k = Some p' /\
               id p' = i /\ status p' = cleaned.
Proof.
  rewrite update_events, elem_of_app. intros [He|He].
  - rewrite loop_end_events in He.
    apply elem_of_concat in He as (es & He & Hes).
    apply elem_of_lookup_imap in Hes as (k & p & -> & Hk).
    exists k, p. unfold poop_events in He.
    destruct (event_callback t); [|by apply elem_of_nil in He].
    destruct (find_best _ _ _ _) as [[idx d]|] eqn:Hc.
    { case_bool_decide; [|by apply elem_of_nil in He].
      by apply list_elem_of_singleton in He. }
    destruct (_is_human_nearby _ _ _) eqn:Hnear; [|by apply elem_of_nil in He].
    destruct (_ <=? _)%Z eqn:Hle; [|by apply elem_of_nil in He].
    apply list_elem_of_singleton in He. injection He as -> ->.
    apply Z.leb_le in Hle.
    destruct (staged_miss t ds points now k p Hk Hc) as [Hs _].
    rewrite on_miss_eq in Hs. cbv zeta in Hs. rewrite Hnear in Hs.
    apply Z.leb_le in Hle as Hle'. rewrite Hle' in Hs. cbn in Hs.
    repeat (split; [done|]). eexists. split; [exact Hs|done].
  - destruct (event_callback t); [|by apply elem_of_nil in He].
    pose proof (detected_events_kind (uuid_supply t)
      (unclaimed (matched_indices (loop_end t ds now)) 0 (poop_detections ds)))
      as Hk.
    rewrite Forall_forall in Hk. by apply Hk in He.
Qed.

(** ** Pruning *)

(** The deposit of this run has been missing for 3 cycles, which is the
    stale threshold and does not exceed it; its status is active; the
    filter drops it. *)
Lemma prune_at_threshold_counterexample :
  let t := run sample_tracker
             [mkCycle [sample_poop 100 100 130 130] [] 0;
              mkCycle [] [] 1; mkCycle [] [] 2] in
  let c := mkCycle [] [] 3 in
  exists p,
    p ∈ staged_poops (staged t c) /\
    (p ∉ active_poops (step t c)) /\
    ~ (status p = cleaned \/ (stale_threshold t < missing_frames p)%Z).
Proof.
  cbv zeta.
  exists (mkPoopInstance 0 (230 # 2, 230 # 2) (mkBox 100 100 130 130)
            0 0 active None 3 0).
  split; [|split].
  - apply (list_elem_of_lookup_2 _ 0%nat). vm_compute. reflexivity.
  - assert (E : active_poops
                  (step (run sample_tracker
                     [mkCycle [sample_poop 100 100 130 130] [] 0;
                      mkCycle [] [] 1; mkCycle [] [] 2]) (mkCycle [] [] 3)) = [])
      by (vm_compute; reflexivity).
    rewrite E. apply not_elem_of_nil.
  - intros [H|H]; [discriminate H|]. vm_compute in H. discriminate H.
Qed.

(** C4, amended: the final filter of [update] removes a deposit exactly
    when its status is cleaned or its missing-frame counter has reached
    the stale threshold, whatever its status; a removed deposit is in
    neither list of the next snapshot; the filter emits nothing, and a
    deposit whose status is not cleaned has no [poop_cleaned]
    notification in the call. *)
Theorem prune_removes_cleaned_or_stale
    (t : PoopTracker) (ds : list Detection) (points : list Point) (now : Q) :
  let s := stage t ds points now in
  let t' := fst (update t ds points now) in
  (forall p, p ∈ staged_poops s ->
     (p ∉ active_poops t' <->
      status p = cleaned \/ (stale_threshold t <= missing_frames p)%Z)) /\
  (forall p, p ∈ active_poops t' -> p ∈ staged_poops s) /\
  (forall p, p ∉ active_poops t' ->
     (p ∉ st_active_poops (get_state t')) /\
     p ∉ st_pending_poops (get_state t')) /\
  snd (update t ds points now) = staged_events s /\
  (ids_ok t ->
   forall p, p ∈ staged_poops s -> status p <> cleaned ->
     forall loc, poop_cleaned (id p) loc ∉ snd (update t ds points now)).
Proof.
  cbv zeta. split; [|split; [|split; [|split]]].
  - intros p Hp. unfold update. cbn [fst active_poops].
    rewrite elem_of_filter_keep, <- keep_false_iff.
    destruct (keep (stale_threshold t) p); split; try done.
    + intros H. exfalso. by apply H.
    + by intros _ [_ ?].
  - intros p Hp. unfold update in Hp. cbn [fst active_poops] in Hp.
    by apply elem_of_filter_keep in Hp as [Hp _].
  - intros p Hp. unfold get_state. cbn [st_active_poops st_pending_poops].
    rewrite !list_elem_of_In, !filter_In, <- !list_elem_of_In.
    split; by intros [? _].
  - done.
  - intros Hok p Hp Hst loc He.
    apply cleaned_event_origin in He
      as (k & q & _ & _ & _ & _ & _ & _ & p' & Hk & Hid & Hcl).
    apply list_elem_of_lookup in Hp as [j Hj].
    assert (j = k) as ->.
    { eapply (NoDup_map_lookup_inj id); [by apply staged_ids_NoDup|..]; eauto. }
    congruence.
Qed.

Lemma prune_removes_cleaned_or_stale_witness :
  let t := run sample_tracker
             [mkCycle [sample_poop 100 100 130 130] [] 0;
              mkCycle [] [] 1; mkCycle [] [] 2] in
  let p := mkPoopInstance 0 (230 # 2, 230 # 2) (mkBox 100 100 130 130)
             0 0 active None 3 0 in
  (p ∉ active_poops (fst (update t [] [] 3))) /\
  forall loc, poop_cleaned 0 loc ∉ snd (update t [] [] 3).
Proof.
  cbv zeta.
  pose proof (prune_removes_cleaned_or_stale
                (run sample_tracker
                   [mkCycle [sample_poop 100 100 130 130] [] 0;
                    mkCycle [] [] 1; mkCycle [] [] 2]) [] [] 3)
    as (Hrm & _ & _ & _ & Hev).
  assert (Hin : mkPoopInstance 0 (230 # 2, 230 # 2) (mkBox 100 100 130 130)
                  0 0 active None 3 0
                ∈ staged_poops
                    (stage (run sample_tracker
                       [mkCycle [sample_poop 100 100 130 130] [] 0;
                        mkCycle [] [] 1; mkCycle [] [] 2]) [] [] 3)).
  { apply (list_elem_of_lookup_2 _ 0%nat). vm_compute. reflexivity. }
  split.
  - apply (Hrm _ Hin). right. vm_compute. discriminate.
  - apply (Hev (run_ids_ok _ _ (init_ids_ok _ _ _ _)) _ Hin). discriminate.
Defined.

Lemma unclaimed_detections_create_active_witness :
  List.filter is_detected
    (snd (update sample_tracker [sample_poop 100 100 130 130] [] 0)) =
    [poop_detected 0 (230 # 2, 230 # 2) (mkBox 100 100 130 130)] /\
  mkPoopInstance 0 (230 # 2, 230 # 2) (mkBox 100 100 130 130) 0 0 active None 0 0
    ∈ active_poops (fst (update sample_tracker [sample_poop 100 100 130 130] [] 0)).
Proof.
  pose proof (unclaimed_detections_create_active sample_tracker
                [sample_poop 100 100 130 130] [] 0)
    as (_ & _ & _ & _ & _ & Hev & Hlive).
  split.
  - destruct (Hev eq_refl) as [-> _]. vm_compute. reflexivity.
  - apply Hlive; [reflexivity|].
    apply (list_elem_of_lookup_2 _ 0%nat). vm_compute. reflexivity.
Defined.

Lemma event_points_create_pending_witness :
  active_poops (fst (update sample_tracker [] [(5, 5); (5, 5)] 0)) =
  [mkPoopInstance 0 (5, 5) zero_box 0 0 pending None 0 0;
   mkPoopInstance 1 (5, 5) zero_box 0 0 pending None 0 0].
Proof.
  pose proof (event_points_create_pending sample_tracker [] [(5, 5); (5, 5)] 0)
    as (_ & _ & _ & _ & _ & Hlive).
  destruct (Hlive eq_refl) as (_ & -> & _). vm_compute. reflexivity.
Defined.

(** ** Promotion of a pending deposit *)

Lemma is_confirmed_for_spec i e :
  is_confirmed_for i e = true -> event_id e = i /\ is_detected e = false.
Proof. destruct e; cbn; try done. by intros ->%bool_decide_eq_true. Qed.

Lemma is_cleaned_for_spec i e :
  is_cleaned_for i e = true -> event_id e = i /\ is_detected e = false.
Proof. destruct e; cbn; try done. by intros ->%bool_decide_eq_true. Qed.

(** C5: a pending deposit becomes active in a call exactly when an
    unclaimed poop detection has IoU above the threshold against its box.
    On the match the deposit takes the detection's box and center,
    [last_seen] is the time of the call, both counters are 0, and the
    call emits exactly one [poop_confirmed] for its id, carrying the new
    location; without a match it emits none. *)
Theorem pending_promoted_on_match
    (t : PoopTracker) (ds : list Detection) (points : list Point) (now : Q)
    (k : nat) (p : PoopInstance) :
  0 <= iou_threshold t ->
  NoDup (map id (active_poops t)) ->
  event_callback t = true ->
  active_poops t !! k = Some p ->
  status p = pending ->
  let m := matched_indices (loop_state_at t ds now k) in
  let evs := snd (update t ds points now) in
  exists p',
    staged_poops (stage t ds points now) !! k = Some p' /\
    (status p' = active <->
     exists j d, poop_detections ds !! j = Some d /\ (j ∉ m) /\
       iou_threshold t < _calculate_iou (PoopTracker.bbox p) (Detector.bbox d)) /\
    match claimed_by t ds now k p with
    | Some (j, d) =>
        poop_detections ds !! j = Some d /\ (j ∉ m) /\
        iou_threshold t < _calculate_iou (PoopTracker.bbox p) (Detector.bbox d) /\
        p' = mkPoopInstance (id p) (center d) (Detector.bbox d) (first_seen p)
               now active (deposited_by p) 0 0 /\
        List.filter (is_confirmed_for (id p)) evs =
          [poop_confirmed (id p) (center d)]
    | None =>
        status p' <> active /\
        PoopTracker.bbox p' = PoopTracker.bbox p /\
        List.filter (is_confirmed_for (id p)) evs = []
    end.
Proof.
  intros Hthr Hnd Hcb Hk Hst. cbv zeta.
  rewrite (update_events_of_id t ds points now k p _ Hnd Hk
             (is_confirmed_for_spec (id p))).
  pose proof (find_best_is_Some (iou_threshold t) (PoopTracker.bbox p)
                (matched_indices (loop_state_at t ds now k))
                (poop_detections ds) Hthr) as Hiff.
  unfold poop_events. rewrite Hcb.
  fold (claimed_by t ds now k p) in Hiff |- *.
  destruct (claimed_by t ds now k p) as [[j d]|] eqn:Hc.
  - destruct (staged_match t ds points now k p j d Hk Hc) as [Hs _].
    rewrite on_match_eq in Hs. cbv zeta in Hs.
    rewrite bool_decide_eq_true_2 in Hs by done. cbn [fst] in Hs.
    eexists. split; [exact Hs|]. cbn [status].
    apply find_best_Some in Hc as Hc'. destruct Hc' as (Hj & Hm & Hlt).
    split; [split; [intros _; by exists j, d|done]|].
    rewrite bool_decide_eq_true_2 by done. cbn.
    rewrite bool_decide_eq_true_2 by done. done.
  - destruct (staged_miss t ds points now k p Hk Hc) as [Hs _].
    rewrite on_miss_eq in Hs. cbv zeta in Hs. cbn [fst] in Hs.
    eexists. split; [exact Hs|]. cbn [status PoopTracker.bbox]. rewrite Hst.
    assert (Hna : (if _is_human_nearby p (person_detections ds) proximity_radius &&
                      (cleanup_confirm_frames t <=? cleanup_candidate_frames p + 1)%Z
                   then cleaned else pending) <> active)
      by (by destruct (_ && _)).
    split; [|split; [done|split; [done|]]].
    + split; [done|]. intros H. apply Hiff in H. by destruct H.
    + by destruct (_ && _).
Qed.

Lemma pending_promoted_on_match_witness :
  exists p',
    staged_poops (stage sample_pending_tracker
                    [sample_poop 102 101 132 131] [] 1) !! 0%nat = Some p' /\
    status p' = active /\
    List.filter (is_confirmed_for 0)
      (snd (update sample_pending_tracker [sample_poop 102 101 132 131] [] 1)) =
      [poop_confirmed 0 (234 # 2, 232 # 2)].
Proof.
  destruct (pending_promoted_on_match sample_pending_tracker
              [sample_poop 102 101 132 131] [] 1 0 sample_pending)
    as (p' & Hs & _ & Hm).
  - vm_compute. discriminate.
  - apply NoDup_singleton.
  - reflexivity.
  - reflexivity.
  - reflexivity.
  - exists p'. split; [exact Hs|].
    assert (Hc : claimed_by sample_pending_tracker
                   [sample_poop 102 101 132 131] 1 0 sample_pending =
                 Some (0%nat, sample_poop 102 101 132 131))
      by (vm_compute; reflexivity).
    rewrite Hc in Hm. destruct Hm as (_ & _ & _ & -> & Hev).
    split; [reflexivity|exact Hev].
Defined.

(** Where the deposits of the next live list come from. *)
Lemma live_origin t ds points now p' :
  p' ∈ active_poops (fst (update t ds points now)) ->
  keep (stale_threshold t) p' = true /\
  ((exists k p, active_poops t !! k = Some p /\
                staged_poops (stage t ds points now) !! k = Some p') \/
   ((status p' = active \/ status p' = pending) /\
    (uuid_supply t <= id p')%nat /\
    cleanup_candidate_frames p' = 0%Z /\ missing_frames p' = 0%Z)).
Proof.
  intros Hp'. unfold update in Hp'. cbn [fst active_poops] in Hp'.
  apply elem_of_filter_keep in Hp' as [Hp' Hkeep]. split; [done|].
  rewrite stage_eq in Hp' |- *. cbn [staged_poops] in Hp' |- *.
  apply elem_of_app in Hp' as [Hp'|Hp'].
  - left. apply list_elem_of_lookup in Hp' as [k Hk'].
    destruct (lookup_lt_is_Some_2 (active_poops t) k) as [p Hp].
    { rewrite <- (tracked_length t ds now). by eapply lookup_lt_Some. }
    exists k, p. split; [done|].
    rewrite lookup_app_l; [done|]. by eapply lookup_lt_Some.
  - right. apply elem_of_app in Hp' as [Hp'|Hp'];
      apply elem_of_lookup_imap in Hp' as (j & x & -> & _); cbn;
      (split; [auto|split; [lia|done]]).
Qed.

(** ** Status transitions *)

(** A pending deposit made from an event point at (5,5), with a person
    centred on it for two cycles and a confirm count of 2, is set to
    cleaned without ever having been active. *)
Lemma pending_to_cleaned_counterexample :
  let t := run sample_tracker
             [mkCycle [] [(5, 5)] 0;
              mkCycle [sample_person 0 0 10 10] [] 1] in
  let c := mkCycle [sample_person 0 0 10 10] [] 2 in
  exists p p',
    active_poops t !! 0%nat = Some p /\
    staged_poops (staged t c) !! 0%nat = Some p' /\
    id p' = id p /\
    status p = pending /\ status p' = cleaned /\
    ~ two_edges_only (status p) (status p').
Proof.
  cbv zeta.
  exists (mkPoopInstance 0 (5, 5) zero_box 0 0 pending None 1 1),
         (mkPoopInstance 0 (5, 5) zero_box 0 0 cleaned None 2 2).
  split; [vm_compute; reflexivity|].
  split; [vm_compute; reflexivity|].
  do 3 (split; [reflexivity|]).
  cbn. intros [H|[[_ H]|[H _]]]; discriminate H.
Qed.

(** C2, amended: through one call a deposit keeps its status or moves
    forward along one of three edges: pending to active, on a match;
    active to cleaned and pending to cleaned, when unmatched with a
    person nearby and the cleanup counter reaching the confirm count.
    Nothing moves a deposit back.  Every deposit the call leaves in the
    live list is either the successor of one that was there, or new with
    status active or pending. *)
Theorem status_moves_forward
    (t : PoopTracker) (ds : list Detection) (points : list Point) (now : Q) :
  let s := stage t ds points now in
  let t' := fst (update t ds points now) in
  (forall k p, active_poops t !! k = Some p ->
     exists p',
       staged_poops s !! k = Some p' /\ id p' = id p /\
       (status_rank (status p) <= status_rank (status p'))%nat /\
       (status p' = status p \/
        (status p = pending /\ status p' = active /\
         is_Some (claimed_by t ds now k p)) \/
        (status p <> cleaned /\ status p' = cleaned /\
         claimed_by t ds now k p = None /\
         _is_human_nearby p (person_detections ds) proximity_radius = true /\
         (cleanup_confirm_frames t <= cleanup_candidate_frames p + 1)%Z))) /\
  (forall p', p' ∈ active_poops t' ->
     (exists k p, active_poops t !! k = Some p /\ staged_poops s !! k = Some p') \/
     ((status p' = active \/ status p' = pending) /\
      (uuid_supply t <= id p')%nat)).
Proof.
  cbv zeta. split.
  - intros k p Hk.
    destruct (claimed_by t ds now k p) as [[j d]|] eqn:Hc.
    + destruct (staged_match t ds points now k p j d Hk Hc) as [Hs _].
      rewrite on_match_eq in Hs. cbv zeta in Hs. cbn [fst] in Hs.
      eexists. split; [exact Hs|]. cbn [id status]. split; [done|].
      case_bool_decide as Hb.
      * rewrite Hb. cbn. split; [lia|]. right. left. done.
      * split; [lia|]. by left.
    + destruct (staged_miss t ds points now k p Hk Hc) as [Hs _].
      rewrite on_miss_eq in Hs. cbv zeta in Hs. cbn [fst] in Hs.
      eexists. split; [exact Hs|]. cbn [id status]. split; [done|].
      destruct (_is_human_nearby _ _ _) eqn:Hnear; cbn [andb]; [|auto].
      destruct (_ <=? _)%Z eqn:Hle; [|auto]. apply Z.leb_le in Hle.
      destruct (status p) eqn:Hst; cbn; (split; [lia|]); auto;
        right; right; done.
  - intros p' Hp'. apply live_origin in Hp' as [_ [H|(H & Hid & _)]]; auto.
Qed.

Lemma status_moves_forward_witness :
  exists p',
    staged_poops (stage sample_pending_tracker
                    [sample_poop 102 101 132 131] [] 1) !! 0%nat = Some p' /\
    (status_rank pending <= status_rank (status p'))%nat.
Proof.
  destruct (status_moves_forward sample_pending_tracker
              [sample_poop 102 101 132 131] [] 1) as [H _].
  destruct (H 0%nat sample_pending) as (p' & Hs & _ & Hr & _); [reflexivity|].
  exists p'. split; [exact Hs|exact Hr].
Defined.

(** ** Deposits made from event points *)

Lemma staged_pending_zero_box t ds points now :
  pending_have_zero_box t ->
  forall p', p' ∈ staged_poops (stage t ds points now) ->
    status p' = pending -> PoopTracker.bbox p' = zero_box.
Proof.
  intros Hinv p' Hp' Hst.
  apply list_elem_of_lookup in Hp' as [k Hk'].
  destruct (active_poops t !! k) as [p|] eqn:Hk.
  - rewrite (staged_lookup _ _ _ _ _ _ Hk) in Hk'. injection Hk' as <-.
    unfold track_poop in *.
    destruct (find_best _ _ _ _) as [[j d]|] eqn:Hc.
    + rewrite on_match_eq in Hst |- *. cbv zeta in Hst. cbn in Hst.
      case_bool_decide as Hb; [done|]. congruence.
    + rewrite on_miss_eq in Hst |- *. cbv zeta in Hst |- *. cbn in Hst |- *.
      destruct (_ && _); [done|].
      apply Hinv; [by eapply list_elem_of_lookup_2|done].
  - apply lookup_ge_None in Hk. rewrite stage_eq in Hk'. cbn [staged_poops] in Hk'.
    rewrite lookup_app_r in Hk' by (by rewrite tracked_length).
    apply list_elem_of_lookup_2, elem_of_app in Hk' as [Hp|Hp];
      apply elem_of_lookup_imap in Hp as (j & x & -> & _); done.
Qed.

Lemma update_pending_zero_box t ds points now :
  pending_have_zero_box t ->
  pending_have_zero_box (fst (update t ds points now)).
Proof.
  intros Hinv p Hp. unfold update in Hp. cbn [fst active_poops] in Hp.
  apply elem_of_filter_keep in Hp as [Hp _].
  by apply (staged_pending_zero_box t ds points now Hinv).
Qed.

Lemma update_no_confirmed t ds points now :
  pending_have_zero_box t ->
  forall i loc, poop_confirmed i loc ∉ snd (update t ds points now).
Proof.
  intros Hinv i loc. rewrite update_events, elem_of_app. intros [He|He].
  - rewrite loop_end_events in He.
    apply elem_of_concat in He as (es & He & Hes).
    apply elem_of_lookup_imap in Hes as (k & p & -> & Hk).
    unfold poop_events in He.
    destruct (event_callback t); [|by apply elem_of_nil in He].
    destruct (find_best _ _ _ _) as [[idx d]|] eqn:Hc.
    + case_bool_decide as Hb; [|by apply elem_of_nil in He].
      rewrite (Hinv p) in Hc; [|by eapply list_elem_of_lookup_2|done].
      by rewrite find_best_zero_box in Hc.
    + destruct (_ && _); [|by apply elem_of_nil in He].
      by apply list_elem_of_singleton in He.
  - destruct (event_callback t); [|by apply elem_of_nil in He].
    apply elem_of_lookup_imap in He as (j & d & He & _). discriminate He.
Qed.

Lemma run_snoc t cs c : run t (cs ++ [c]) = step (run t cs) c.
Proof. unfold run. by rewrite fold_left_app. Qed.

Lemma run_events_snoc t cs c :
  run_events t (cs ++ [c]) = run_events t cs ++ cycle_events (run t cs) c.
Proof.
  revert t. induction cs as [|c' cs IH]; intros t; cbn [app run_events].
  - by rewrite app_nil_r.
  - rewrite IH, <- app_assoc. done.
Qed.

Lemma run_pending_zero_box t cs :
  pending_have_zero_box t -> pending_have_zero_box (run t cs).
Proof.
  revert t. induction cs as [|c cs IH]; intros t Hinv; [done|].
  apply (IH (step t c)). by apply update_pending_zero_box.
Qed.

Lemma run_no_confirmed t cs :
  pending_have_zero_box t ->
  forall i loc, poop_confirmed i loc ∉ run_events t cs.
Proof.
  revert t. induction cs as [|c cs IH]; intros t Hinv i loc;
    cbn [run_events]; [apply not_elem_of_nil|].
  rewrite elem_of_app. intros [He|He].
  - by apply (update_no_confirmed t (detections c) (pooping_events c) (now c)
                Hinv i loc).
  - apply (IH (step t c)) in He; [done|]. by apply update_pending_zero_box.
Qed.

(** C3: a deposit made from an event point has the box (0,0,0,0); the
    IoU of that box with a detection box whose [x1] and [y1] are
    positive is 0; so with a positive threshold the deposit claims no
    such detection, stays with the default box and is not made active by
    the call; and along any run from a fresh tracker no pending deposit
    is ever confirmed. *)
Theorem event_deposit_never_confirmed :
  (forall now u points p,
     p ∈ fresh_pending now u points ->
     status p = pending /\ PoopTracker.bbox p = zero_box) /\
  (forall b, 0 < bx1 b -> 0 < by1 b -> _calculate_iou zero_box b == 0) /\
  (forall t ds points now k p,
     0 < iou_threshold t ->
     Forall positive_corner (poop_detections ds) ->
     active_poops t !! k = Some p ->
     status p = pending -> PoopTracker.bbox p = zero_box ->
     claimed_by t ds now k p = None /\
     exists p',
       staged_poops (stage t ds points now) !! k = Some p' /\
       id p' = id p /\ status p' <> active /\
       PoopTracker.bbox p' = zero_box) /\
  (forall thr stale confirm cb cs,
     0 < thr ->
     Forall (fun c => Forall positive_corner (poop_detections (detections c))) cs ->
     let t0 := PoopTracker.init thr stale confirm cb in
     pending_have_zero_box (run t0 cs) /\
     forall i loc, poop_confirmed i loc ∉ run_events t0 cs).
Proof.
  split; [|split; [|split]].
  - intros now u points p Hp.
    by apply elem_of_lookup_imap in Hp as (j & pt & -> & _).
  - apply calculate_iou_zero_box.
  - intros t ds points now k p Hthr Hpos Hk Hst Hbox.
    assert (Hc : claimed_by t ds now k p = None).
    { unfold claimed_by. rewrite Hbox. apply find_best_None.
      intros j d Hj _ [_ Hlt].
      rewrite Forall_forall in Hpos.
      destruct (Hpos d) as [Hx Hy]; [by eapply list_elem_of_lookup_2|].
      rewrite (calculate_iou_zero_box _ Hx Hy) in Hlt. lra. }
    split; [done|].
    destruct (staged_miss t ds points now k p Hk Hc) as [Hs _].
    rewrite on_miss_eq in Hs. cbv zeta in Hs. cbn [fst] in Hs.
    eexists. split; [exact Hs|]. cbn. rewrite Hst.
    split; [done|]. split; [by destruct (_ && _)|done].
  - intros thr stale confirm cb cs _ _. cbv zeta.
    assert (Hinit : pending_have_zero_box (PoopTracker.init thr stale confirm cb))
      by (by intros p Hp%elem_of_nil).
    split; [by apply run_pending_zero_box|by apply run_no_confirmed].
Qed.

Lemma event_deposit_never_confirmed_witness :
  0 < iou_threshold sample_tracker /\
  Forall positive_corner [sample_poop 1 1 9 9] /\
  let t := run sample_tracker [mkCycle [] [(5, 5)] 0] in
  claimed_by t [sample_poop 1 1 9 9] 1 0
    (mkPoopInstance 0 (5, 5) zero_box 0 0 pending None 0 0) = None /\
  forall i loc,
    poop_confirmed i loc ∉
      run_events sample_tracker
        [mkCycle [] [(5, 5)] 0; mkCycle [sample_poop 1 1 9 9] [] 1].
Proof.
  assert (Hthr : 0 < iou_threshold sample_tracker) by reflexivity.
  assert (Hpos : Forall positive_corner [sample_poop 1 1 9 9]).
  { constructor; [split; reflexivity|constructor]. }
  destruct event_deposit_never_confirmed as (_ & _ & Hstep & Hrun).
  split; [exact Hthr|]. split; [exact Hpos|]. cbv zeta. split.
  - destruct (Hstep (run sample_tracker [mkCycle [] [(5, 5)] 0])
                [sample_poop 1 1 9 9] [] 1 0%nat
                (mkPoopInstance 0 (5, 5) zero_box 0 0 pending None 0 0))
      as [Hc _];
      [reflexivity|exact Hpos|reflexivity|reflexivity|reflexivity|exact Hc].
  - apply (Hrun (3 # 10) 3%Z 2%Z true
             [mkCycle [] [(5, 5)] 0; mkCycle [sample_poop 1 1 9 9] [] 1]).
    + reflexivity.
    + repeat constructor.
Defined.

(** ** The cleanup streak *)

Lemma is_human_nearby_iff p pers threshold :
  _is_human_nearby p pers threshold = true <->
  exists person,
    person ∈ pers /\ 0 < threshold /\
    Qsquare (fst (location p) - fst (center person)) +
    Qsquare (snd (location p) - snd (center person)) < Qsquare threshold.
Proof.
  unfold _is_human_nearby, distance_lt. rewrite existsb_exists. split.
  - intros (person & Hin & H). apply andb_true_iff in H as [H1 H2].
    exists person. rewrite list_elem_of_In. by rewrite <- !Qlt_bool_iff.
  - intros (person & Hin & H1 & H2). exists person.
    rewrite <- list_elem_of_In. split; [done|].
    apply andb_true_iff. by rewrite !Qlt_bool_iff.
Qed.

Lemma update_counters_below_confirm t ds points now :
  (1 <= cleanup_confirm_frames t)%Z ->
  counters_below_confirm t ->
  counters_below_confirm (fst (update t ds points now)).
Proof.
  intros Hc Hinv p' Hp'.
  change (cleanup_confirm_frames (fst (update t ds points now)))
    with (cleanup_confirm_frames t).
  apply live_origin in Hp' as [Hkeep [(k & p & Hk & Hs)|(_ & _ & -> & _)]];
    [|lia].
  rewrite (staged_lookup _ _ _ _ _ _ Hk) in Hs. injection Hs as <-.
  specialize (Hinv p (list_elem_of_lookup_2 _ _ _ Hk)).
  unfold track_poop in *.
  destruct (find_best _ _ _ _) as [[j d]|].
  - rewrite on_match_eq. cbn. lia.
  - rewrite on_miss_eq in Hkeep |- *. cbv zeta in Hkeep |- *.
    cbn [fst cleanup_candidate_frames] in Hkeep |- *.
    apply keep_true_iff in Hkeep as [Hst _]. cbn [status] in Hst.
    destruct (_is_human_nearby _ _ _); [|lia]. cbn [andb] in Hst.
    destruct (_ <=? _)%Z eqn:Hle; [done|]. apply Z.leb_gt in Hle. lia.
Qed.

Lemma run_counters_below_confirm t cs :
  (1 <= cleanup_confirm_frames t)%Z ->
  counters_below_confirm t -> counters_below_confirm (run t cs).
Proof.
  revert t. induction cs as [|c cs IH]; intros t Hc Hinv; [done|].
  apply (IH (step t c)); [done|]. by apply update_counters_below_confirm.
Qed.

(** A live deposit whose cleanup counter exceeds [j] was, [j] cycles
    before the last one, missed with a person nearby; and so back to the
    last cycle. *)
Lemma streak_history t0 cs :
  (forall p, p ∈ active_poops t0 -> (cleanup_candidate_frames p <= 0)%Z) ->
  forall p, p ∈ active_poops (run t0 cs) ->
  forall j : nat, (Z.of_nat j < cleanup_candidate_frames p)%Z ->
    (j < length cs)%nat /\
    exists cj, cs !! (length cs - 1 - j)%nat = Some cj /\
      missed_near (run t0 (take (length cs - 1 - j) cs)) cj (id p).
Proof.
  intros H0. induction cs as [|c cs IH] using rev_ind; intros p' Hp' j Hj.
  { specialize (H0 p' Hp'). lia. }
  rewrite run_snoc in Hp'. set (t := run t0 cs) in *.
  apply live_origin in Hp' as [_ [(k & p & Hk & Hs)|(_ & _ & Hz & _)]];
    [|lia].
  rewrite (staged_lookup _ _ _ _ _ _ Hk) in Hs. injection Hs as <-.
  rewrite track_poop_id. rewrite length_app. cbn [length].
  unfold track_poop in Hj.
  destruct (find_best _ _ _ _) as [[idx d]|] eqn:Hc.
  { rewrite on_match_eq in Hj. cbn in Hj. lia. }
  rewrite on_miss_eq in Hj. cbv zeta in Hj.
  cbn [fst cleanup_candidate_frames] in Hj.
  destruct (_is_human_nearby _ _ _) eqn:Hnear; [|lia].
  destruct j as [|j].
  - split; [lia|].
    exists c. replace (length cs + 1 - 1 - 0)%nat with (length cs) by lia.
    rewrite lookup_app_r, Nat.sub_diag by lia. split; [done|].
    rewrite take_app_length. by exists k, p.
  - destruct (IH p (list_elem_of_lookup_2 _ _ _ Hk) j) as (Hlt & cj & Hcj & Hm);
      [lia|].
    split; [lia|]. exists cj.
    replace (length cs + 1 - 1 - S j)%nat with (length cs - 1 - j)%nat by lia.
    rewrite lookup_app_l by lia. split; [done|].
    rewrite take_app_le by lia. done.
Qed.

Lemma uuid_supply_mono t ds points now :
  (uuid_supply t <= uuid_supply (fst (update t ds points now)))%nat.
Proof. unfold update. cbn [fst uuid_supply]. rewrite stage_eq. cbn. lia. Qed.

Lemma live_ids_after t ds points now p' :
  p' ∈ active_poops (fst (update t ds points now)) ->
  (exists p, p ∈ active_poops t /\ id p' = id p) \/ (uuid_supply t <= id p')%nat.
Proof.
  intros Hp'.
  apply live_origin in Hp' as [_ [(k & p & Hk & Hs)|(_ & Hid & _)]]; [left|by right].
  rewrite (staged_lookup _ _ _ _ _ _ Hk) in Hs. injection Hs as <-.
  exists p. split; [by eapply list_elem_of_lookup_2|apply track_poop_id].
Qed.

Lemma poop_events_length t pds pers m p :
  (length (poop_events t pds pers m p) <= 1)%nat.
Proof.
  unfold poop_events. destruct (event_callback t); [|cbn; lia].
  destruct (find_best _ _ _ _) as [[idx d]|].
  - case_bool_decide; cbn; lia.
  - destruct (_ && _); cbn; lia.
Qed.

Lemma filter_length_le {A} (f : A -> bool) (l : list A) :
  (length (List.filter f l) <= length l)%nat.
Proof. induction l as [|x l IH]; cbn; [lia|]. destruct (f x); cbn; lia. Qed.

(** Once its [poop_cleaned] is emitted, a deposit is gone from the live
    list. *)
Lemma cleaned_id_removed t ds points now i loc :
  ids_ok t ->
  poop_cleaned i loc ∈ snd (update t ds points now) ->
  forall p', p' ∈ active_poops (fst (update t ds points now)) -> id p' <> i.
Proof.
  intros Hok He p' Hp' Hid.
  apply cleaned_event_origin in He
    as (k & q & _ & _ & _ & _ & _ & _ & q' & Hk & Hid' & Hcl).
  unfold update in Hp'. cbn [fst active_poops] in Hp'.
  apply elem_of_filter_keep in Hp' as [Hp' Hkeep].
  apply list_elem_of_lookup in Hp' as [j Hj].
  assert (j = k) as ->.
  { eapply (NoDup_map_lookup_inj id); [by apply staged_ids_NoDup|..]; eauto.
    congruence. }
  assert (p' = q') as -> by congruence.
  apply keep_true_iff in Hkeep as [Hst _]. done.
Qed.

Lemma filter_not_nil_elem {A} (f : A -> bool) (l : list A) :
  List.filter f l <> [] -> exists x, x ∈ l /\ f x = true.
Proof.
  induction l as [|x l IH]; cbn; [done|].
  destruct (f x) eqn:E.
  - intros _. exists x. split; [by left|done].
  - intros H. destruct (IH H) as (y & Hy & Hf). exists y.
    split; [by right|done].
Qed.

Lemma is_cleaned_for_inv i e :
  is_cleaned_for i e = true -> exists loc, e = poop_cleaned i loc.
Proof.
  destruct e; cbn; try done. intros ->%bool_decide_eq_true. by eexists.
Qed.

(** Along a run, at most one [poop_cleaned] carries a given id, and the
    id is not in the live list afterwards. *)
Lemma run_cleaned_once t0 cs i :
  ids_ok t0 ->
  (length (List.filter (is_cleaned_for i) (run_events t0 cs)) <= 1)%nat /\
  (List.filter (is_cleaned_for i) (run_events t0 cs) <> [] ->
   (i < uuid_supply (run t0 cs))%nat /\
   forall p, p ∈ active_poops (run t0 cs) -> id p <> i).
Proof.
  intros Hok0. induction cs as [|c cs IH] using rev_ind.
  { cbn. split; [lia|done]. }
  destruct IH as [IHlen IHgone].
  rewrite run_events_snoc, run_snoc, List.filter_app.
  set (t := run t0 cs) in *.
  assert (Hok : ids_ok t) by (by apply run_ids_ok).
  unfold cycle_events, step.
  destruct (List.filter (is_cleaned_for i) (run_events t0 cs)) as [|e0 E0].
  - cbn [app].
    destruct (List.filter (is_cleaned_for i) (snd _)) as [|e1 E1] eqn:HEc;
      [cbn; split; [lia|done]|].
    assert (Hne : List.filter (is_cleaned_for i)
                    (snd (update t (detections c) (pooping_events c) (now c)))
                  <> []) by (by rewrite HEc).
    destruct (filter_not_nil_elem _ _ Hne) as (e & He & Hf).
    apply is_cleaned_for_inv in Hf as [loc ->].
    pose proof (cleaned_id_removed _ _ _ _ _ _ Hok He) as Hgone.
    apply cleaned_event_origin in He as (k & p & Hk & Hid & _).
    destruct Hok as [Hnd Hlt].
    split.
    + rewrite <- HEc. subst i.
      rewrite (update_events_of_id _ _ _ _ k p _ Hnd Hk
                 (is_cleaned_for_spec (id p))).
      etransitivity; [apply filter_length_le|apply poop_events_length].
    + intros _. split; [|exact Hgone].
      rewrite Forall_forall in Hlt.
      specialize (Hlt p (list_elem_of_lookup_2 _ _ _ Hk)).
      pose proof (uuid_supply_mono t (detections c) (pooping_events c) (now c)).
      lia.
  - destruct IHgone as [Hlt Hgone]; [done|].
    assert (HEc : List.filter (is_cleaned_for i)
                    (snd (update t (detections c) (pooping_events c) (now c)))
                  = []).
    { destruct (List.filter (is_cleaned_for i) (snd _)) as [|e1 E1] eqn:HEc;
        [done|]. exfalso.
      assert (Hne : List.filter (is_cleaned_for i)
                      (snd (update t (detections c) (pooping_events c) (now c)))
                    <> []) by (by rewrite HEc).
      destruct (filter_not_nil_elem _ _ Hne) as (e & He & Hf).
      apply is_cleaned_for_inv in Hf as [loc ->].
      apply cleaned_event_origin in He as (k & p & Hk & Hid & _).
      by apply (Hgone p (list_elem_of_lookup_2 _ _ _ Hk)). }
    rewrite HEc, app_nil_r. split; [done|]. intros _. split.
    + pose proof (uuid_supply_mono t (detections c) (pooping_events c) (now c)).
      lia.
    + intros p' Hp'.
      apply live_ids_after in Hp' as [(p & Hp & ->)|Hge]; [by apply Hgone|lia].
Qed.

(** C1: a deposit that claims no detection in a call has its
    missing-frame counter incremented; if a person's center is within
    the radius of 100 of its location its cleanup counter is
    incremented, otherwise reset to 0; when the incremented counter
    reaches the confirm count the deposit is set to cleaned,
    [cleaned_count] grows by 1 and one [poop_cleaned] with its id and
    location is emitted.  Along a run from a fresh tracker with a
    positive confirm count, a [poop_cleaned] for an id is emitted when
    the counter is exactly the confirm count, each of the last
    confirm-count cycles found that deposit unmatched with a person
    nearby, the deposit then leaves the live list, and no second
    [poop_cleaned] for that id is ever emitted. *)
Theorem cleanup_after_consecutive_proximity :
  (forall t ds points now k p,
     active_poops t !! k = Some p ->
     claimed_by t ds now k p = None ->
     let near := _is_human_nearby p (person_detections ds) proximity_radius in
     let fires :=
       near && (cleanup_confirm_frames t <=? cleanup_candidate_frames p + 1)%Z in
     (near = true <->
      exists person, person ∈ person_detections ds /\
        Qsquare (fst (location p) - fst (center person)) +
        Qsquare (snd (location p) - snd (center person)) < Qsquare 100) /\
     staged_poops (stage t ds points now) !! k =
       Some (mkPoopInstance (id p) (location p) (PoopTracker.bbox p)
               (first_seen p) (last_seen p)
               (if fires then cleaned else status p) (deposited_by p)
               (missing_frames p + 1)
               (if near then cleanup_candidate_frames p + 1 else 0)%Z) /\
     ls_cleaned_count (loop_state_at t ds now (S k)) =
       (ls_cleaned_count (loop_state_at t ds now k) +
        (if fires then 1 else 0))%Z /\
     (event_callback t = true -> NoDup (map id (active_poops t)) ->
      List.filter (is_cleaned_for (id p)) (snd (update t ds points now)) =
        if fires then [poop_cleaned (id p) (location p)] else [])) /\
  (forall t ds points now,
     ls_cleaned_count (loop_state_at t ds now 0) = cleaned_count t /\
     cleaned_count (fst (update t ds points now)) =
       ls_cleaned_count (loop_state_at t ds now (length (active_poops t)))) /\
  (forall thr stale confirm cb cs c i loc,
     (1 <= confirm)%Z ->
     let t0 := PoopTracker.init thr stale confirm cb in
     let t := run t0 cs in
     poop_cleaned i loc ∈ cycle_events t c ->
     (exists k p, active_poops t !! k = Some p /\ id p = i /\ location p = loc /\
                  (cleanup_candidate_frames p + 1 = confirm)%Z) /\
     (forall j : nat, (Z.of_nat j < confirm)%Z ->
        (j <= length cs)%nat /\
        exists cj, (cs ++ [c]) !! (length cs - j)%nat = Some cj /\
          missed_near (run t0 (take (length cs - j) cs)) cj i) /\
     (forall p', p' ∈ active_poops (step t c) -> id p' <> i)) /\
  (forall thr stale confirm cb cs i,
     (length (List.filter (is_cleaned_for i)
                (run_events (PoopTracker.init thr stale confirm cb) cs)) <= 1)%nat).
Proof.
  split; [|split; [|split]].
  - intros t ds points now k p Hk Hc. cbv zeta.
    destruct (staged_miss t ds points now k p Hk Hc) as [Hs Hst].
    rewrite on_miss_eq in Hs, Hst. cbv zeta in Hs, Hst. cbn [fst snd] in Hs, Hst.
    split; [|split; [exact Hs|split]].
    + rewrite is_human_nearby_iff. unfold proximity_radius.
      split; intros (person & Hin & H); exists person; [by destruct H|].
      split; [done|]. split; [reflexivity|done].
    + by rewrite Hst.
    + intros Hcb Hnd.
      rewrite (update_events_of_id t ds points now k p _ Hnd Hk
                 (is_cleaned_for_spec (id p))).
      unfold poop_events. rewrite Hcb. unfold claimed_by in Hc. rewrite Hc.
      destruct (_ && _); [|done]. cbn.
      by rewrite bool_decide_eq_true_2.
  - intros t ds points now. split; [done|].
    unfold update. cbn [fst cleaned_count]. by rewrite stage_eq.
  - intros thr stale confirm cb cs c i loc Hconf. cbv zeta. intros He.
    set (t0 := PoopTracker.init thr stale confirm cb) in *.
    set (t := run t0 cs) in *.
    assert (Hok : ids_ok t) by apply run_ids_ok, init_ids_ok.
    destruct (run_config t0 cs) as (_ & _ & Hcf & _). fold t in Hcf.
    change (cleanup_confirm_frames t0) with confirm in Hcf.
    assert (Hbound : counters_below_confirm t).
    { apply run_counters_below_confirm; [done|]. by intros p Hp%elem_of_nil. }
    pose proof (cleaned_id_removed _ _ _ _ _ _ Hok He) as Hgone.
    apply cleaned_event_origin in He
      as (k & p & Hk & Hid & Hloc & Hc & Hnear & Hle & _).
    pose proof (Hbound p (list_elem_of_lookup_2 _ _ _ Hk)) as Hb.
    rewrite Hcf in Hb, Hle.
    split; [exists k, p; repeat (split; [done|]); lia|].
    split; [|exact Hgone].
    intros [|j] Hj.
    + split; [lia|]. exists c. rewrite Nat.sub_0_r.
      rewrite lookup_app_r, Nat.sub_diag by lia. split; [done|].
      rewrite firstn_all. by exists k, p.
    + destruct (streak_history t0 cs) with (p := p) (j := j)
        as (Hlt & cj & Hcj & Hm).
      * by intros q Hq%elem_of_nil.
      * by eapply list_elem_of_lookup_2.
      * lia.
      * split; [lia|]. exists cj.
        replace (length cs - S j)%nat with (length cs - 1 - j)%nat by lia.
        rewrite lookup_app_l by lia. rewrite <- Hid. done.
  - intros thr stale confirm cb cs i.
    apply run_cleaned_once, init_ids_ok.
Qed.

Lemma cleanup_after_consecutive_proximity_witness :
  let c0 := mkCycle [] [(5, 5)] 0 in
  let c1 := mkCycle [sample_person 0 0 10 10] [] 1 in
  let c2 := mkCycle [sample_person 0 0 10 10] [] 2 in
  poop_cleaned 0 (5, 5) ∈ cycle_events (run sample_tracker [c0; c1]) c2 /\
  missed_near (run sample_tracker [c0]) c1 0 /\
  List.filter (is_cleaned_for 0)
    (snd (update (run sample_tracker [c0; c1]) (detections c2) [] 2)) =
    [poop_cleaned 0 (5, 5)].
Proof.
  cbv zeta.
  destruct cleanup_after_consecutive_proximity as (Hstep & _ & Hrun & _).
  assert (He : poop_cleaned 0 (5, 5) ∈
               cycle_events
                 (run sample_tracker
                    [mkCycle [] [(5, 5)] 0;
                     mkCycle [sample_person 0 0 10 10] [] 1])
                 (mkCycle [sample_person 0 0 10 10] [] 2)).
  { apply (list_elem_of_lookup_2 _ 0%nat). vm_compute. reflexivity. }
  split; [exact He|]. split.
  - destruct (Hrun (3 # 10) 3%Z 2%Z true
                [mkCycle [] [(5, 5)] 0; mkCycle [sample_person 0 0 10 10] [] 1]
                (mkCycle [sample_person 0 0 10 10] [] 2) 0%nat (5, 5))
      as (_ & Hstreak & _); [lia|exact He|].
    destruct (Hstreak 1%nat) as (_ & cj & Hcj & Hm); [lia|].
    cbn in Hcj. injection Hcj as <-. exact Hm.
  - destruct (Hstep (run sample_tracker
                       [mkCycle [] [(5, 5)] 0;
                        mkCycle [sample_person 0 0 10 10] [] 1])
                [sample_person 0 0 10 10] [] 2 0%nat
                (mkPoopInstance 0 (5, 5) zero_box 0 0 pending None 1 1))
      as (_ & _ & _ & Hev).
    + vm_compute. reflexivity.
    + vm_compute. reflexivity.
    + apply Hev; [reflexivity|]. apply NoDup_singleton.
Defined.

(** ** The behavioural event detector *)

Section Gates.

Import EventDetector.

Variable root : Q -> Q.

Lemma collect_events_spec ed tracks acc :
  collect_events root ed tracks acc =
  acc ++ map get_ground_location
           (List.filter (_is_pooping root ed) (map snd tracks)).
Proof.
  revert acc. induction tracks as [|[tid track] tracks IH]; intros acc;
    cbn [collect_events map List.filter snd].
  - by rewrite app_nil_r.
  - destruct (_is_pooping root ed track); rewrite IH; [|done].
    by rewrite <- app_assoc.
Qed.

Lemma is_pooping_iff ed track :
  _is_pooping root ed track = true <->
  stationary_threshold ed <= get_track_duration track /\
  ext_le (get_average_movement root track) (movement_threshold ed) /\
  get_average_aspect_ratio track <= aspect_ratio_threshold ed.
Proof.
  unfold _is_pooping.
  destruct (Qlt_bool (get_track_duration track) _) eqn:E1.
  { apply Qlt_bool_iff in E1. split; [done|]. intros [H _]. lra. }
  apply Qlt_bool_false_iff in E1.
  destruct (ext_gt _ _) eqn:E2.
  { split; [done|]. intros (_ & H & _). exfalso.
    destruct (get_average_movement root track) as [q|]; cbn in *; [|done].
    apply Qlt_bool_iff in E2. lra. }
  assert (H2 : ext_le (get_average_movement root track) (movement_threshold ed)).
  { destruct (get_average_movement root track) as [q|]; cbn in *; [|done].
    by apply Qlt_bool_false_iff in E2. }
  destruct (Qlt_bool (aspect_ratio_threshold ed) _) eqn:E3.
  { apply Qlt_bool_iff in E3. split; [done|]. intros (_ & _ & H). lra. }
  apply Qlt_bool_false_iff in E3. done.
Qed.

Lemma fold_left_Qplus (l : list Q) (acc : Q) :
  fold_left Qplus l acc == acc + fold_right Qplus 0 l.
Proof.
  revert acc. induction l as [|x l IH]; intros acc; cbn [fold_left fold_right].
  - ring.
  - rewrite IH. ring.
Qed.

Lemma stepwise_displacements_cons a b rest :
  stepwise_displacements root (a :: b :: rest) =
  step_distance root a b :: stepwise_displacements root (b :: rest).
Proof.
  unfold stepwise_displacements.
  change (length (a :: b :: rest) - 1)%nat with (S (length rest)).
  change (length (b :: rest) - 1)%nat with (length rest - 0)%nat.
  rewrite Nat.sub_0_r. cbn [seq map]. f_equal.
  rewrite <- seq_shift, map_map. by apply map_ext.
Qed.

Lemma stepwise_displacements_length ps :
  length (stepwise_displacements root ps) = (length ps - 1)%nat.
Proof. unfold stepwise_displacements. by rewrite length_map, length_seq. Qed.

Lemma total_movement_sum acc ps :
  total_movement root acc ps ==
  acc + fold_right Qplus 0 (stepwise_displacements root ps).
Proof.
  revert acc. induction ps as [|a ps IH]; intros acc.
  { cbn. ring. }
  destruct ps as [|b rest].
  { cbn. ring. }
  change (total_movement root acc (a :: b :: rest))
    with (total_movement root (acc + step_distance root a b) (b :: rest)).
  rewrite IH, stepwise_displacements_cons. cbn [fold_right]. ring.
Qed.

(** The three measures of [DogTrack] are those of the specification. *)
Lemma track_measures track :
  ((2 <= length (positions track))%nat ->
     get_track_duration track = duration_of (positions track) /\
     exists q, get_average_movement root track = Finite q /\
               q == mean (stepwise_displacements root (positions track))) /\
  (positions track <> [] ->
     get_average_aspect_ratio track
       == mean (map p_aspect_ratio (positions track))) /\
  (positions track = [] -> get_average_aspect_ratio track = 1) /\
  ((length (positions track) < 2)%nat ->
     get_track_duration track = 0 /\
     get_average_movement root track = Infinity).
Proof.
  split; [|split; [|split]].
  - intros Hlen.
    assert (Hb : (length (positions track) <? 2)%nat = false)
      by (apply Nat.ltb_ge; lia).
    split.
    + unfold get_track_duration, duration_of. by rewrite Hb.
    + unfold get_average_movement. rewrite Hb. eexists. split; [done|].
      unfold mean. rewrite stepwise_displacements_length.
      rewrite total_movement_sum, Qplus_0_l. reflexivity.
  - intros Hne. unfold get_average_aspect_ratio.
    destruct (positions track) as [|p ps]; [done|].
    unfold mean, Qsum. rewrite length_map, fold_left_Qplus, Qplus_0_l.
    reflexivity.
  - intros Hnil. unfold get_average_aspect_ratio. by rewrite Hnil.
  - intros Hlen.
    assert (Hb : (length (positions track) <? 2)%nat = true)
      by (by apply Nat.ltb_lt).
    unfold get_track_duration, get_average_movement. by rewrite Hb.
Qed.

(** C8: a track is reported exactly when it has at least two samples,
    the time from its first sample to its last is at least the
    stationary threshold, the mean Euclidean distance between the
    centers of consecutive samples is at most the movement threshold,
    and the mean of the samples' aspect ratios is at most the posture
    threshold; the three measures of the code are these (duration 0 and
    infinite movement below two samples, aspect ratio 1 without
    samples); [process] returns, in track order, the ground location
    (bottom centre of the latest box) of every track that passes; a
    track with fewer than two samples has infinite average movement and
    is not reported. *)
Theorem pooping_gates :
  (forall ed track,
     _is_pooping root ed track = true <->
     stationary_threshold ed <= get_track_duration track /\
     ext_le (get_average_movement root track) (movement_threshold ed) /\
     get_average_aspect_ratio track <= aspect_ratio_threshold ed) /\
  (forall ed detections now,
     let dogs :=
       List.filter (fun d => bool_decide (class_name d = "dog")) detections in
     let ed1 := _update_tracks ed dogs now in
     snd (process root ed detections now) =
       map get_ground_location
         (List.filter (_is_pooping root ed1) (map snd (dog_tracks ed1))) /\
     forall pt, pt ∈ snd (process root ed detections now) <->
       exists tid track,
         (tid, track) ∈ dog_tracks ed1 /\
         _is_pooping root ed1 track = true /\
         pt = get_ground_location track) /\
  (forall track final,
     last (positions track) = Some final ->
     get_ground_location track =
       ((bx1 (p_bbox final) + bx2 (p_bbox final)) / 2, by2 (p_bbox final))) /\
  (forall ed track,
     (length (positions track) < 2)%nat ->
     get_average_movement root track = Infinity /\
     _is_pooping root ed track = false) /\
  (forall ed track,
     _is_pooping root ed track = true <->
     (2 <= length (positions track))%nat /\
     stationary_threshold ed <= duration_of (positions track) /\
     mean (stepwise_displacements root (positions track))
       <= movement_threshold ed /\
     mean (map p_aspect_ratio (positions track))
       <= aspect_ratio_threshold ed) /\
  (forall track,
     ((2 <= length (positions track))%nat ->
        get_track_duration track = duration_of (positions track) /\
        exists q, get_average_movement root track = Finite q /\
                  q == mean (stepwise_displacements root (positions track))) /\
     (positions track <> [] ->
        get_average_aspect_ratio track
          == mean (map p_aspect_ratio (positions track))) /\
     (positions track = [] -> get_average_aspect_ratio track = 1) /\
     ((length (positions track) < 2)%nat ->
        get_track_duration track = 0 /\
        get_average_movement root track = Infinity)) /\
  (forall ps i a b,
     ps !! i = Some a -> ps !! S i = Some b ->
     stepwise_displacements root ps !! i =
       Some (root ((fst (p_center b) - fst (p_center a)) *
                   (fst (p_center b) - fst (p_center a)) +
                   (snd (p_center b) - snd (p_center a)) *
                   (snd (p_center b) - snd (p_center a))))) /\
  (forall ps, length (stepwise_displacements root ps)
              = (length ps - 1)%nat).
Proof.
  split; [apply is_pooping_iff|].
  split; [|split; [|split; [|split; [|split; [|split]]]]].
  - intros ed detections now. cbv zeta.
    assert (Hev : snd (process root ed detections now) =
                  map get_ground_location
                    (List.filter
                       (_is_pooping root
                          (_update_tracks ed
                             (List.filter
                                (fun d => bool_decide (class_name d = "dog"))
                                detections) now))
                       (map snd
                          (dog_tracks
                             (_update_tracks ed
                                (List.filter
                                   (fun d => bool_decide (class_name d = "dog"))
                                   detections) now))))).
    { unfold process. cbn [snd]. by rewrite collect_events_spec. }
    split; [exact Hev|]. intros pt. rewrite Hev.
    rewrite list_elem_of_In, in_map_iff. split.
    + intros (track & <- & Hin). apply filter_In in Hin as [Hin Hp].
      apply in_map_iff in Hin as ([tid track'] & <- & Hin).
      exists tid, track'. by rewrite list_elem_of_In.
    + intros (tid & track & Hin & Hp & ->). exists track. split; [done|].
      apply filter_In. split; [|done].
      apply in_map_iff. exists (tid, track). by rewrite <- list_elem_of_In.
  - intros track final Hlast. unfold get_ground_location. by rewrite Hlast.
  - intros ed track Hlen.
    assert (Hm : get_average_movement root track = Infinity).
    { unfold get_average_movement.
      apply Nat.ltb_lt in Hlen. by rewrite Hlen. }
    split; [done|]. unfold _is_pooping. rewrite Hm. cbn [ext_gt].
    by destruct (Qlt_bool _ _).
  - intros ed track. rewrite is_pooping_iff.
    destruct (track_measures track) as (Hlong & Hasp & _ & Hshort).
    destruct (decide (2 <= length (positions track))%nat) as [Hlen|Hlen].
    + destruct (Hlong Hlen) as (-> & q & -> & Hq). cbn [ext_le].
      assert (Hne : positions track <> [])
        by (intros E; rewrite E in Hlen; cbn in Hlen; lia).
      rewrite (Hasp Hne), Hq. tauto.
    + destruct Hshort as [_ ->]; [lia|]. cbn [ext_le]. tauto.
  - apply track_measures.
  - intros ps i a b Ha Hb. unfold stepwise_displacements.
    change (map ?g ?l) with (g <$> l). rewrite list_lookup_fmap.
    rewrite lookup_seq_lt.
    2:{ apply lookup_lt_Some in Hb. lia. }
    cbn [fmap option_fmap option_map Nat.add]. by rewrite Ha, Hb.
  - apply stepwise_displacements_length.
Qed.

End Gates.

Lemma pooping_gates_witness :
  let ed := sample_detector in
  snd (EventDetector.process sample_root ed [sample_dog 100 100 200 150] 4)
    = [(300 # 2, 150)] /\
  snd (EventDetector.process sample_root ed [sample_dog 100 100 200 150] 2)
    = [] /\
  EventDetector._is_pooping sample_root ed
    (EventDetector.new_track (sample_dog 100 100 200 150) 0) = false /\
  EventDetector._is_pooping sample_root ed sample_moving_track = false /\
  mean (stepwise_displacements sample_root
          (EventDetector.positions sample_moving_track)) == 50 /\
  EventDetector._is_pooping sample_root ed sample_upright_track = false /\
  mean (stepwise_displacements sample_root
          (EventDetector.positions sample_upright_track)) == 0 /\
  mean (map EventDetector.p_aspect_ratio
          (EventDetector.positions sample_upright_track)) == 9 # 4 /\
  EventDetector._is_pooping sample_root ed sample_still_track = true.
Proof.
  cbv zeta.
  destruct (pooping_gates sample_root)
    as (_ & Hproc & _ & Hshort & Hgates & _).
  split; [|split; [|split; [|split; [|split; [|split; [|split; [|split]]]]]]].
  - destruct (Hproc sample_detector [sample_dog 100 100 200 150] 4) as [-> _].
    vm_compute. reflexivity.
  - destruct (Hproc sample_detector [sample_dog 100 100 200 150] 2) as [-> _].
    vm_compute. reflexivity.
  - apply Hshort. vm_compute. lia.
  - apply not_true_is_false. intros H.
    apply Hgates in H as (_ & _ & Hmove & _).
    vm_compute in Hmove. by apply Hmove.
  - vm_compute. reflexivity.
  - apply not_true_is_false. intros H.
    apply Hgates in H as (_ & _ & _ & Hasp).
    vm_compute in Hasp. by apply Hasp.
  - vm_compute. reflexivity.
  - vm_compute. reflexivity.
  - apply Hgates. split; [vm_compute; lia|].
    split; [|split]; vm_compute; discriminate.
Defined.

(** ** The alert aggregator *)

Section Alerts.

Import StateManager.

Lemma alert_new_ids_spec new_ids known alerts :
  alert_new_ids new_ids known alerts =
  (list_to_set new_ids ∪ known, alerts ++ map new_poop_alert new_ids).
Proof.
  revert known alerts. induction new_ids as [|i l IH]; intros known alerts;
    cbn [alert_new_ids map].
  - rewrite app_nil_r. f_equal. rewrite list_to_set_nil.
    by rewrite (left_id_L ∅ (∪)).
  - rewrite IH, <- app_assoc. f_equal. rewrite list_to_set_cons.
    by rewrite (assoc_L (∪)), (comm_L (∪) (list_to_set l)).
Qed.

Lemma alert_aged_spec sm now active alerts :
  alert_aged sm now active alerts =
  alerts ++ map (fun poop => aged_poop_alert (id poop))
              (List.filter (is_aged sm now) active).
Proof.
  revert alerts. induction active as [|p l IH]; intros alerts;
    cbn [alert_aged List.filter map].
  - by rewrite app_nil_r.
  - destruct (is_aged sm now p); rewrite IH; [|done].
    by rewrite <- app_assoc.
Qed.

Lemma elem_of_current_ids i active :
  i ∈ current_ids active <-> exists p, p ∈ active /\ id p = i.
Proof.
  unfold current_ids. rewrite elem_of_list_to_set.
  change (map id active) with (id <$> active). rewrite list_elem_of_fmap.
  split; intros (p & H1 & H2); exists p; done.
Qed.

(** The alerts of a call, kind by kind. *)
Lemma update_alerts sm st now :
  snd (StateManager.update sm st now) =
  (if alert_new_poop sm
   then map new_poop_alert
          (elements (current_ids (st_active_poops st) ∖ known_poop_ids sm))
   else []) ++
  (if alert_cleanup sm &&
      (default 0%Z (last_state sm !! "cleaned_count") <? st_cleaned_count st)%Z
   then [cleanup_alert (st_cleaned_count st -
                        default 0%Z (last_state sm !! "cleaned_count"))]
   else []) ++
  map (fun poop => aged_poop_alert (id poop))
      (List.filter (is_aged sm now) (st_active_poops st)).
Proof.
  unfold StateManager.update.
  destruct (alert_new_poop sm).
  - rewrite alert_new_ids_spec. cbn [snd app]. rewrite alert_aged_spec.
    destruct (alert_cleanup sm); cbn [andb]; [|done].
    destruct (_ <? _)%Z; [|done]. by rewrite <- app_assoc.
  - cbn [snd app]. rewrite alert_aged_spec.
    destruct (alert_cleanup sm); cbn [andb]; [|done].
    by destruct (_ <? _)%Z.
Qed.

Lemma update_known sm st now :
  known_poop_ids (fst (StateManager.update sm st now)) =
  if alert_new_poop sm
  then known_poop_ids sm ∪ current_ids (st_active_poops st)
  else known_poop_ids sm.
Proof.
  unfold StateManager.update.
  destruct (alert_new_poop sm); [|done].
  rewrite alert_new_ids_spec. cbn [fst known_poop_ids].
  rewrite list_to_set_elements_L.
  apply set_eq. intros i. rewrite !elem_of_union, elem_of_difference.
  destruct (decide (i ∈ known_poop_ids sm)); tauto.
Qed.

Lemma filter_map_none {A B} (f : B -> bool) (g : A -> B) (l : list A) :
  (forall x, f (g x) = false) -> List.filter f (map g l) = [].
Proof.
  intros H. apply filter_nil_Forall, Forall_forall. intros y Hy.
  change (map g l) with (g <$> l) in Hy.
  apply list_elem_of_fmap in Hy as (x & -> & _). apply H.
Qed.

Lemma filter_map_all {A B} (f : B -> bool) (g : A -> B) (l : list A) :
  (forall x, f (g x) = true) -> List.filter f (map g l) = map g l.
Proof.
  intros H. apply filter_all_Forall, Forall_forall. intros y Hy.
  change (map g l) with (g <$> l) in Hy.
  apply list_elem_of_fmap in Hy as (x & -> & _). apply H.
Qed.

End Alerts.

(** The snapshot of this run holds one pending deposit, id 0, which the
    aggregator has never seen; no alert is raised for it. *)
Lemma pending_deposit_no_alert_counterexample :
  let t := step sample_tracker (mkCycle [] [(5, 5)] 0) in
  let snapshot := get_state t in
  let sm := StateManager.init true true 10 in
  (exists p, p ∈ st_pending_poops snapshot /\ id p = 0%nat) /\
  (0%nat ∉ StateManager.known_poop_ids sm) /\
  StateManager.alert_new_poop sm = true /\
  StateManager.new_poop_alert 0 ∉ snd (StateManager.update sm snapshot 0).
Proof.
  cbv zeta. split; [|split; [|split]].
  - exists (mkPoopInstance 0 (5, 5) zero_box 0 0 pending None 0 0).
    split; [|done]. apply (list_elem_of_lookup_2 _ 0%nat). vm_compute. reflexivity.
  - cbn. apply not_elem_of_empty.
  - reflexivity.
  - assert (E : snd (StateManager.update (StateManager.init true true 10)
                       (get_state (step sample_tracker (mkCycle [] [(5, 5)] 0))) 0)
                = []) by (vm_compute; reflexivity).
    rewrite E. apply not_elem_of_nil.
Qed.

(** C10, amended: with the new-poop alert on, a call raises one
    [new_poop_alert] per id of the snapshot's active list that is not
    among the known ids, and adds those ids to the known ids (the
    pending list raises none); with it off, none is raised and the known
    ids stay.  With the cleanup alert on and [cleaned_count] above the
    count of the previous call (0 before the first), exactly one
    [cleanup_alert] is raised and carries the difference; otherwise
    none. *)
Theorem alerts_follow_active_list
    (sm : StateManager.StateManager) (st : State) (now : Q) :
  let sm' := fst (StateManager.update sm st now) in
  let alerts := snd (StateManager.update sm st now) in
  let fresh :=
    StateManager.current_ids (st_active_poops st) ∖
    StateManager.known_poop_ids sm in
  let prev := default 0%Z (StateManager.last_state sm !! "cleaned_count") in
  (StateManager.alert_new_poop sm = true ->
     List.filter is_new_poop_alert alerts =
       map StateManager.new_poop_alert (elements fresh) /\
     NoDup (map StateManager.new_poop_alert (elements fresh)) /\
     (forall i, StateManager.new_poop_alert i ∈ alerts <->
        (exists p, p ∈ st_active_poops st /\ id p = i) /\
        i ∉ StateManager.known_poop_ids sm) /\
     StateManager.known_poop_ids sm' = StateManager.known_poop_ids sm ∪ fresh) /\
  (StateManager.alert_new_poop sm = false ->
     List.filter is_new_poop_alert alerts = [] /\
     StateManager.known_poop_ids sm' = StateManager.known_poop_ids sm) /\
  (StateManager.alert_cleanup sm = true -> (prev < st_cleaned_count st)%Z ->
     List.filter is_cleanup_alert alerts =
       [StateManager.cleanup_alert (st_cleaned_count st - prev)] /\
     (0 < st_cleaned_count st - prev)%Z) /\
  (StateManager.alert_cleanup sm = false \/ (st_cleaned_count st <= prev)%Z ->
     List.filter is_cleanup_alert alerts = []) /\
  StateManager.last_state sm' !! "cleaned_count" = Some (st_cleaned_count st).
Proof.
  cbv zeta. rewrite update_alerts, update_known.
  set (fresh := StateManager.current_ids (st_active_poops st) ∖
                StateManager.known_poop_ids sm).
  set (prev := default 0%Z (StateManager.last_state sm !! "cleaned_count")).
  set (aged := map _ (List.filter (StateManager.is_aged sm now) _)).
  assert (Haged1 : List.filter is_new_poop_alert aged = [])
    by (by apply filter_map_none).
  assert (Haged2 : List.filter is_cleanup_alert aged = [])
    by (by apply filter_map_none).
  assert (Hnew2 : List.filter is_cleanup_alert
                    (map StateManager.new_poop_alert (elements fresh)) = [])
    by (by apply filter_map_none).
  split; [|split; [|split; [|split]]].
  - intros ->. split; [|split; [|split]].
    + rewrite !List.filter_app, Haged1, app_nil_r.
      rewrite (filter_map_all is_new_poop_alert) by done.
      destruct (_ && _); cbn; by rewrite app_nil_r.
    + change (map ?g ?l) with (g <$> l). apply NoDup_fmap_2; [|apply NoDup_elements].
      by intros i j [= ->].
    + intros i. rewrite !elem_of_app.
      rewrite <- elem_of_current_ids.
      split.
      * intros [H|[H|H]].
        -- change (map ?g ?l) with (g <$> l) in H.
           apply list_elem_of_fmap in H as (j & [= <-] & Hj).
           apply elem_of_elements in Hj. unfold fresh in Hj.
           by apply elem_of_difference in Hj.
        -- destruct (_ && _); [|by apply elem_of_nil in H].
           by apply list_elem_of_singleton in H.
        -- unfold aged in H. change (map ?g ?l) with (g <$> l) in H.
           by apply list_elem_of_fmap in H as (q & [=] & _).
      * intros [Hc Hk]. left. change (map ?g ?l) with (g <$> l).
        apply list_elem_of_fmap. exists i. split; [done|].
        apply elem_of_elements. unfold fresh. by apply elem_of_difference.
    + apply set_eq. intros i. unfold fresh.
      rewrite !elem_of_union, elem_of_difference.
      destruct (decide (i ∈ StateManager.known_poop_ids sm)); tauto.
  - intros ->. split; [|done]. cbn [app].
    rewrite List.filter_app, Haged1, app_nil_r. by destruct (_ && _).
  - intros -> Hlt. split; [|lia]. apply Z.ltb_lt in Hlt. rewrite Hlt. cbn [andb].
    rewrite !List.filter_app, Haged2.
    by destruct (StateManager.alert_new_poop sm); rewrite ?Hnew2.
  - intros H.
    assert (Hoff : StateManager.alert_cleanup sm &&
                   (prev <? st_cleaned_count st)%Z = false).
    { destruct H as [->|H]; [done|]. apply andb_false_iff. right.
      by apply Z.ltb_ge. }
    rewrite Hoff. rewrite !List.filter_app, Haged2.
    by destruct (StateManager.alert_new_poop sm); rewrite ?Hnew2.
  - unfold StateManager.update.
    destruct (if StateManager.alert_new_poop sm then _ else _) as [known alerts1].
    cbn [fst StateManager.last_state].
    rewrite lookup_insert_ne by done. apply lookup_insert_eq.
Qed.

Lemma alerts_follow_active_list_witness :
  let sm := StateManager.init true true 10 in
  let snapshot :=
    get_state (step sample_tracker (mkCycle [sample_poop 100 100 130 130] [] 0)) in
  StateManager.new_poop_alert 0 ∈ snd (StateManager.update sm snapshot 0) /\
  List.filter is_cleanup_alert
    (snd (StateManager.update sm (mkState [] [] 1 1) 0)) =
    [StateManager.cleanup_alert 1].
Proof.
  cbv zeta. split.
  - destruct (alerts_follow_active_list (StateManager.init true true 10)
                (get_state (step sample_tracker
                   (mkCycle [sample_poop 100 100 130 130] [] 0))) 0)
      as (Hnew & _).
    destruct (Hnew eq_refl) as (_ & _ & Hin & _). apply Hin. split.
    + exists (mkPoopInstance 0 (230 # 2, 230 # 2) (mkBox 100 100 130 130)
                0 0 active None 0 0).
      split; [|reflexivity].
      apply (list_elem_of_lookup_2 _ 0%nat). vm_compute. reflexivity.
    + apply not_elem_of_empty.
  - destruct (alerts_follow_active_list (StateManager.init true true 10)
                (mkState [] [] 1 1) 0) as (_ & _ & Hclean & _).
    destruct Hclean as [Hc _]; [reflexivity|reflexivity|]. exact Hc.
Defined.

(** The corner convention matters for the self-overlap: with both pairs
    of corners swapped the area expression is positive and the result
    is 0. *)
Remark calculate_iou_swapped_corners :
  0 < box_area (mkBox 10 10 0 0) /\
  _calculate_iou (mkBox 10 10 0 0) (mkBox 10 10 0 0) == 0.
Proof. split; reflexivity. Qed.

(** * Further properties of the code *)

(** ** poop_tracker.py: overlap and matching *)

Lemma Qmult_le_mono_nonneg (a b c d : Q) :
  0 <= a -> a <= b -> 0 <= c -> c <= d -> a * c <= b * d.
Proof.
  intros Ha Hab Hc Hcd.
  apply Qle_trans with (b * c).
  - apply Qmult_le_compat_r; assumption.
  - rewrite (Qmult_comm b c), (Qmult_comm b d).
    apply Qmult_le_compat_r; [assumption|]. lra.
Qed.

(** X1: [_calculate_iou] returns a score between 0 and 1, as its
    docstring says, whatever the two tuples are (swapped corners
    included). *)
Theorem iou_in_unit_interval (a b : Box) :
  0 <= _calculate_iou a b <= 1.
Proof.
  unfold _calculate_iou. cbv zeta.
  destruct (Qlt_bool (Qmin (bx2 a) (bx2 b)) (Qmax (bx1 a) (bx1 b))) eqn:Ex;
    [cbn; lra|].
  destruct (Qlt_bool (Qmin (by2 a) (by2 b)) (Qmax (by1 a) (by1 b))) eqn:Ey;
    [cbn; lra|].
  cbn [orb]. apply Qlt_bool_false_iff in Ex, Ey.
  pose proof (Q.le_min_l (bx2 a) (bx2 b)). pose proof (Q.le_min_r (bx2 a) (bx2 b)).
  pose proof (Q.le_min_l (by2 a) (by2 b)). pose proof (Q.le_min_r (by2 a) (by2 b)).
  pose proof (Q.le_max_l (bx1 a) (bx1 b)). pose proof (Q.le_max_r (bx1 a) (bx1 b)).
  pose proof (Q.le_max_l (by1 a) (by1 b)). pose proof (Q.le_max_r (by1 a) (by1 b)).
  set (x1 := Qmax (bx1 a) (bx1 b)) in *. set (x2 := Qmin (bx2 a) (bx2 b)) in *.
  set (y1 := Qmax (by1 a) (by1 b)) in *. set (y2 := Qmin (by2 a) (by2 b)) in *.
  assert (Hi0 : 0 <= (x2 - x1) * (y2 - y1)) by (apply Qmult_le_0_compat; lra).
  assert (Hia : (x2 - x1) * (y2 - y1) <= (bx2 a - bx1 a) * (by2 a - by1 a))
    by (apply Qmult_le_mono_nonneg; lra).
  assert (Hib : (x2 - x1) * (y2 - y1) <= (bx2 b - bx1 b) * (by2 b - by1 b))
    by (apply Qmult_le_mono_nonneg; lra).
  destruct (Qlt_bool 0 _) eqn:Eu; [|lra].
  apply Qlt_bool_iff in Eu.
  set (i := (x2 - x1) * (y2 - y1)) in *.
  set (u := _ + _ - i) in *.
  split.
  - apply Qle_shift_div_l; [assumption|]. lra.
  - apply Qle_shift_div_r; [assumption|]. unfold u. lra.
Qed.

(** The scan keeps the unclaimed detection of highest IoU, the earliest
    one among equals. *)
Lemma scan_detections_best thr pb m i ds b best r d :
  scan_detections thr pb m i ds b best = Some (r, d) ->
  (best = Some (r, d) /\
   forall j d', ds !! j = Some d' -> (i + j)%nat ∉ m ->
     ~ (b < _calculate_iou pb (Detector.bbox d') /\
        thr < _calculate_iou pb (Detector.bbox d'))) \/
  (exists j,
     r = (i + j)%nat /\ ds !! j = Some d /\ (r ∉ m) /\
     b < _calculate_iou pb (Detector.bbox d) /\
     thr < _calculate_iou pb (Detector.bbox d) /\
     forall j' d', ds !! j' = Some d' -> (i + j')%nat ∉ m ->
       _calculate_iou pb (Detector.bbox d') <= _calculate_iou pb (Detector.bbox d) /\
       ((j' < j)%nat ->
        _calculate_iou pb (Detector.bbox d') < _calculate_iou pb (Detector.bbox d))).
Proof.
  revert i b best. induction ds as [|x ds IH]; intros i b best;
    cbn [scan_detections].
  { intros ->. left. split; [done|]. intros j d' Hj. by destruct j. }
  case_bool_decide as Hm.
  - intros H. apply IH in H as [[-> H]|(j & -> & Hj & Hn & Hb & Ht & Hmax)].
    + left. split; [done|]. intros [|j] d' Hj Hn.
      * exfalso. apply Hn. by rewrite Nat.add_0_r.
      * apply (H j d' Hj). by rewrite Nat.add_succ_comm.
    + right. exists (S j). rewrite <- Nat.add_succ_comm.
      repeat (split; [done|]). intros [|j'] d' Hj' Hn'.
      * exfalso. apply Hn'. by rewrite Nat.add_0_r.
      * destruct (Hmax j' d' Hj') as [Hle Hlt]; [by rewrite Nat.add_succ_comm|].
        split; [done|]. intros ?. apply Hlt. lia.
  - cbv zeta.
    destruct (Qlt_bool b _ && Qlt_bool thr _) eqn:E.
    + apply andb_true_iff in E as [E1 E2]. apply Qlt_bool_iff in E1, E2.
      intros H. apply IH in H as [[Heq H]|(j & -> & Hj & Hn & Hb & Ht & Hmax)].
      * injection Heq as <- <-. right. exists 0%nat. rewrite Nat.add_0_r.
        repeat (split; [done|]). intros [|j'] d' Hj' Hn'.
        -- injection Hj' as <-. split; [lra|lia].
        -- split; [|lia].
           assert (Hnot := H j' d' Hj'). rewrite Nat.add_succ_comm in Hnot.
           specialize (Hnot Hn').
           destruct (Qlt_le_dec (_calculate_iou pb (Detector.bbox x))
                       (_calculate_iou pb (Detector.bbox d'))) as [Hlt|Hle];
             [|done].
           destruct (Qlt_le_dec thr (_calculate_iou pb (Detector.bbox d')))
             as [Hlt'|Hle']; [by exfalso; apply Hnot|lra].
      * right. exists (S j). rewrite <- Nat.add_succ_comm.
        repeat (split; [done|]). split; [lra|]. split; [done|].
        intros [|j'] d' Hj' Hn'.
        -- injection Hj' as <-. split; [lra|]. intros _. done.
        -- destruct (Hmax j' d' Hj') as [Hle Hlt]; [by rewrite Nat.add_succ_comm|].
           split; [done|]. intros ?. apply Hlt. lia.
    + intros H. apply IH in H as [[-> H]|(j & -> & Hj & Hn & Hb & Ht & Hmax)].
      * left. split; [done|]. intros [|j] d' Hj Hn.
        -- injection Hj as <-. rewrite <- !Qlt_bool_iff. intros [E1 E2].
           rewrite E1, E2 in E. discriminate E.
        -- apply (H j d' Hj). by rewrite Nat.add_succ_comm.
      * right. exists (S j). rewrite <- Nat.add_succ_comm.
        repeat (split; [done|]). intros [|j'] d' Hj' Hn'.
        -- injection Hj' as <-.
           assert (Hx : _calculate_iou pb (Detector.bbox x)
                        < _calculate_iou pb (Detector.bbox d)).
           { apply andb_false_iff in E as [E|E]; apply Qlt_bool_false_iff in E; lra. }
           split; [lra|done].
        -- destruct (Hmax j' d' Hj') as [Hle Hlt]; [by rewrite Nat.add_succ_comm|].
           split; [done|]. intros ?. apply Hlt. lia.
Qed.

(** X2: the detection a deposit claims is unclaimed so far, has IoU
    above the threshold (and above 0) against the deposit's box, and no
    unclaimed detection has a higher IoU; among detections of equal IoU
    the one of lowest index is taken. *)
Theorem find_best_maximal (thr : Q) (pbox : Box) (m : gset nat)
    (ds : list Detection) (r : nat) (d : Detection) :
  find_best thr pbox m ds = Some (r, d) ->
  ds !! r = Some d /\ (r ∉ m) /\
  thr < _calculate_iou pbox (Detector.bbox d) /\
  0 < _calculate_iou pbox (Detector.bbox d) /\
  forall j d', ds !! j = Some d' -> j ∉ m ->
    _calculate_iou pbox (Detector.bbox d') <= _calculate_iou pbox (Detector.bbox d) /\
    ((j < r)%nat ->
     _calculate_iou pbox (Detector.bbox d') < _calculate_iou pbox (Detector.bbox d)).
Proof.
  unfold find_best. intros H.
  apply scan_detections_best in H
    as [[H _]|(j & -> & Hj & Hn & Hb & Ht & Hmax)]; [done|].
  cbn [Nat.add] in *. done.
Qed.

Lemma find_best_maximal_witness :
  let ds := [sample_poop 100 100 130 130; sample_poop 102 101 132 131] in
  find_best (3 # 10) (mkBox 102 101 132 131) ∅ ds
    = Some (1%nat, sample_poop 102 101 132 131) /\
  _calculate_iou (mkBox 102 101 132 131) (mkBox 100 100 130 130)
    < _calculate_iou (mkBox 102 101 132 131) (mkBox 102 101 132 131).
Proof.
  cbv zeta.
  assert (H : find_best (3 # 10) (mkBox 102 101 132 131) ∅
                [sample_poop 100 100 130 130; sample_poop 102 101 132 131]
              = Some (1%nat, sample_poop 102 101 132 131))
    by (vm_compute; reflexivity).
  split; [exact H|].
  destruct (find_best_maximal _ _ _ _ _ _ H) as (_ & _ & _ & _ & Hmax).
  destruct (Hmax 0%nat (sample_poop 100 100 130 130)) as [_ Hlt];
    [reflexivity|apply not_elem_of_empty|].
  apply Hlt. lia.
Defined.

Lemma matched_indices_S t ds now k p :
  active_poops t !! k = Some p ->
  matched_indices (loop_state_at t ds now (S k)) =
  match claimed_by t ds now k p with
  | Some (i, _) => {[ i ]} ∪ matched_indices (loop_state_at t ds now k)
  | None => matched_indices (loop_state_at t ds now k)
  end.
Proof.
  intros Hk. rewrite (loop_state_at_S _ _ _ _ _ Hk).
  unfold claimed_by, track_poop.
  destruct (find_best _ _ _ _) as [[i d]|].
  - by rewrite on_match_eq.
  - by rewrite on_miss_eq.
Qed.

Lemma loop_state_at_ge t ds now k :
  (length (active_poops t) <= k)%nat ->
  loop_state_at t ds now k = loop_end t ds now.
Proof.
  intros Hk. unfold loop_end, loop_state_at. by rewrite !take_ge by lia.
Qed.

(** The indices claimed when the loop reaches index [k] are those
    claimed by the deposits before [k]. *)
Lemma matched_indices_at t ds now k i :
  i ∈ matched_indices (loop_state_at t ds now k) <->
  exists k0 p d, (k0 < k)%nat /\ active_poops t !! k0 = Some p /\
                 claimed_by t ds now k0 p = Some (i, d).
Proof.
  induction k as [|k IH].
  - rewrite loop_state_at_0. cbn. split; [by intros ?%elem_of_empty|].
    intros (k0 & _ & _ & Hlt & _). lia.
  - destruct (active_poops t !! k) as [p|] eqn:Hk.
    + rewrite (matched_indices_S _ _ _ _ _ Hk). split.
      * destruct (claimed_by t ds now k p) as [[j d]|] eqn:Hc.
        -- rewrite elem_of_union, elem_of_singleton. intros [->|H].
           ++ exists k, p, d. split; [lia|done].
           ++ apply IH in H as (k0 & q & d0 & Hlt & H). exists k0, q, d0.
              split; [lia|done].
        -- intros H. apply IH in H as (k0 & q & d0 & Hlt & H). exists k0, q, d0.
           split; [lia|done].
      * intros (k0 & q & d0 & Hlt & Hq & Hc0).
        destruct (decide (k0 = k)) as [->|Hne].
        -- assert (q = p) as -> by congruence. rewrite Hc0.
           apply elem_of_union. left. by apply elem_of_singleton.
        -- assert (Hin : i ∈ matched_indices (loop_state_at t ds now k)).
           { apply IH. exists k0, q, d0. split; [lia|done]. }
           destruct (claimed_by t ds now k p) as [[j d]|]; [|done].
           apply elem_of_union. by right.
    + apply lookup_ge_None in Hk.
      rewrite (loop_state_at_ge _ _ _ (S k)) by lia.
      rewrite <- (loop_state_at_ge _ _ _ k) by lia. rewrite IH.
      split; intros (k0 & q & d0 & Hlt & Hq & Hc0); exists k0, q, d0;
        (split; [|done]).
      * lia.
      * apply lookup_lt_Some in Hq. lia.
Qed.

(** X3: within one call no detection is claimed by two deposits; the
    indices left in [matched_indices] are exactly those some deposit
    claimed, and each is the index of a poop detection of the call. *)
Theorem no_detection_claimed_twice
    (t : PoopTracker) (ds : list Detection) (now : Q) :
  (forall k1 k2 p1 p2 i1 d1 i2 d2,
     (k1 < k2)%nat ->
     active_poops t !! k1 = Some p1 -> active_poops t !! k2 = Some p2 ->
     claimed_by t ds now k1 p1 = Some (i1, d1) ->
     claimed_by t ds now k2 p2 = Some (i2, d2) ->
     i1 <> i2) /\
  (forall i,
     i ∈ matched_indices (loop_end t ds now) <->
     exists k p d, active_poops t !! k = Some p /\
                   claimed_by t ds now k p = Some (i, d)) /\
  (forall i, i ∈ matched_indices (loop_end t ds now) ->
     is_Some (poop_detections ds !! i)).
Proof.
  assert (Hend : forall i,
            i ∈ matched_indices (loop_end t ds now) <->
            exists k p d, active_poops t !! k = Some p /\
                          claimed_by t ds now k p = Some (i, d)).
  { intros i. unfold loop_end. rewrite matched_indices_at.
    split; intros (k & p & d & H).
    - exists k, p, d. by destruct H.
    - exists k, p, d. destruct H as [Hk Hc]. split; [|done].
      by eapply lookup_lt_Some. }
  split; [|split; [exact Hend|]].
  - intros k1 k2 p1 p2 i1 d1 i2 d2 Hlt Hk1 Hk2 Hc1 Hc2 ->.
    apply find_best_Some in Hc2 as (_ & Hn & _). apply Hn.
    apply matched_indices_at. by exists k1, p1, d1.
  - intros i Hi. apply Hend in Hi as (k & p & d & _ & Hc).
    apply find_best_Some in Hc as (Hi & _). by exists d.
Qed.

Lemma no_detection_claimed_twice_witness :
  let t := run sample_tracker
             [mkCycle [sample_poop 100 100 130 130;
                       sample_poop 101 100 131 130] [] 0] in
  let ds := [sample_poop 101 100 131 130] in
  claimed_by t ds 1 0 (mkPoopInstance 0 (230 # 2, 230 # 2)
                         (mkBox 100 100 130 130) 0 0 active None 0 0)
    = Some (0%nat, sample_poop 101 100 131 130) /\
  claimed_by t ds 1 1 (mkPoopInstance 1 (232 # 2, 230 # 2)
                         (mkBox 101 100 131 130) 0 0 active None 0 0)
    = None.
Proof.
  cbv zeta. split; [vm_compute; reflexivity|].
  destruct (claimed_by _ _ _ 1 _) as [[i2 d2]|] eqn:Hc2; [exfalso|reflexivity].
  destruct (no_detection_claimed_twice
              (run sample_tracker
                 [mkCycle [sample_poop 100 100 130 130;
                           sample_poop 101 100 131 130] [] 0])
              [sample_poop 101 100 131 130] 1) as (Hone & _ & Hin).
  assert (Hc1 : claimed_by
                  (run sample_tracker
                     [mkCycle [sample_poop 100 100 130 130;
                               sample_poop 101 100 131 130] [] 0])
                  [sample_poop 101 100 131 130] 1 0
                  (mkPoopInstance 0 (230 # 2, 230 # 2)
                     (mkBox 100 100 130 130) 0 0 active None 0 0)
                = Some (0%nat, sample_poop 101 100 131 130))
    by (vm_compute; reflexivity).
  apply find_best_Some in Hc2 as Hc2'. destruct Hc2' as (Hlook & _).
  assert (i2 = 0%nat) as ->.
  { apply lookup_lt_Some in Hlook. vm_compute in Hlook. lia. }
  eapply (Hone 0%nat 1%nat); [lia| | |exact Hc1|exact Hc2|reflexivity];
    reflexivity.
Defined.

(** ** poop_tracker.py: what every reachable tracker satisfies *)

Lemma update_counters_ordered t ds points now :
  (forall p, p ∈ active_poops t ->
     (0 <= cleanup_candidate_frames p <= missing_frames p)%Z) ->
  forall p, p ∈ active_poops (fst (update t ds points now)) ->
    (0 <= cleanup_candidate_frames p <= missing_frames p)%Z.
Proof.
  intros Hinv p' Hp'.
  apply live_origin in Hp' as [_ [(k & p & Hk & Hs)|(_ & _ & -> & ->)]];
    [|lia].
  rewrite (staged_lookup _ _ _ _ _ _ Hk) in Hs. injection Hs as <-.
  specialize (Hinv p (list_elem_of_lookup_2 _ _ _ Hk)).
  unfold track_poop.
  destruct (find_best _ _ _ _) as [[j d]|].
  - rewrite on_match_eq. cbn. lia.
  - rewrite on_miss_eq. cbv zeta. cbn [fst cleanup_candidate_frames missing_frames].
    destruct (_is_human_nearby _ _ _); lia.
Qed.

Lemma filter_partition_length {A} (f g : A -> bool) (l : list A) :
  Forall (fun x => xorb (f x) (g x) = true) l ->
  (length (List.filter f l) + length (List.filter g l) = length l)%nat.
Proof.
  induction 1 as [|x l Hx _ IH]; [done|]. cbn.
  destruct (f x), (g x); cbn in *; try discriminate; lia.
Qed.

(** X4: in every tracker reached from a fresh one, the deposits of the
    live list have distinct ids below the supply, none is cleaned, each
    has been missing for fewer cycles than the stale threshold, and each
    cleanup counter is between 0 and the missing-frame counter; so the
    two lists of [get_state] split the live list with nothing left
    over. *)
Theorem reachable_live_list
    (thr : Q) (stale confirm : Z) (cb : bool) (cs : list Cycle) :
  let t := run (PoopTracker.init thr stale confirm cb) cs in
  NoDup (map id (active_poops t)) /\
  (forall p, p ∈ active_poops t ->
     (id p < uuid_supply t)%nat /\ status p <> cleaned /\
     (missing_frames p < stale)%Z /\
     (0 <= cleanup_candidate_frames p <= missing_frames p)%Z) /\
  (length (st_active_poops (get_state t)) +
   length (st_pending_poops (get_state t)) = length (active_poops t))%nat /\
  (forall p, p ∈ active_poops t <->
     p ∈ st_active_poops (get_state t) \/ p ∈ st_pending_poops (get_state t)).
Proof.
  cbv zeta. set (t0 := PoopTracker.init thr stale confirm cb).
  assert (Hlive : forall p, p ∈ active_poops (run t0 cs) ->
            status p <> cleaned /\ (missing_frames p < stale)%Z /\
            (0 <= cleanup_candidate_frames p <= missing_frames p)%Z).
  { induction cs as [|c cs IH] using rev_ind; [by intros p Hp%elem_of_nil|].
    rewrite run_snoc. intros p Hp.
    assert (Hk := Hp). apply live_origin in Hk as [Hk _].
    apply keep_true_iff in Hk as [Hst Hmiss].
    destruct (run_config t0 cs) as (_ & Hstale & _). rewrite Hstale in Hmiss.
    repeat (split; [done|]).
    apply (update_counters_ordered (run t0 cs) (detections c)
             (pooping_events c) (now c)); [|exact Hp].
    intros q Hq. by apply IH. }
  assert (Hok : ids_ok (run t0 cs)) by apply run_ids_ok, init_ids_ok.
  destruct Hok as [Hnd Hlt]. rewrite Forall_forall in Hlt.
  split; [done|]. split; [|split].
  - intros p Hp. split; [by apply Hlt|by apply Hlive].
  - unfold get_state. cbn [st_active_poops st_pending_poops].
    apply filter_partition_length, Forall_forall. intros p Hp.
    destruct (Hlive p Hp) as [Hst _]. by destruct (status p).
  - intros p. unfold get_state. cbn [st_active_poops st_pending_poops].
    rewrite !list_elem_of_In, !filter_In, <- !list_elem_of_In,
      !bool_decide_eq_true.
    split; [|by intros [[? _]|[? _]]].
    intros Hp. destruct (Hlive p Hp) as [Hst _].
    destruct (status p); [by right|by left|done].
Qed.

Lemma track_poop_cleaned_count t pds pers now st p :
  event_callback t = true ->
  (ls_cleaned_count (snd (track_poop t pds pers now st p)) -
   Z.of_nat (length (List.filter is_cleaned_event
                       (ls_events (snd (track_poop t pds pers now st p)))))
   = ls_cleaned_count st -
     Z.of_nat (length (List.filter is_cleaned_event (ls_events st))))%Z.
Proof.
  intros Hcb. unfold track_poop.
  destruct (find_best _ _ _ _) as [[j d]|].
  - rewrite on_match_eq. cbv zeta. cbn [snd ls_cleaned_count ls_events].
    rewrite List.filter_app, length_app.
    destruct (_ && _); cbn; lia.
  - rewrite on_miss_eq. cbv zeta. cbn [snd ls_cleaned_count ls_events].
    rewrite List.filter_app, length_app, Hcb, andb_true_r.
    destruct (_ && _); cbn; lia.
Qed.

Lemma update_counts_events t ds points now :
  event_callback t = true ->
  cleaned_count (fst (update t ds points now)) =
    (cleaned_count t +
     Z.of_nat (length (List.filter is_cleaned_event
                         (snd (update t ds points now)))))%Z /\
  total_deposits (fst (update t ds points now)) =
    (total_deposits t +
     Z.of_nat (length (List.filter is_detected
                         (snd (update t ds points now)))))%Z.
Proof.
  intros Hcb.
  assert (Hloop : forall k,
            (ls_cleaned_count (loop_state_at t ds now k) -
             Z.of_nat (length (List.filter is_cleaned_event
                                 (ls_events (loop_state_at t ds now k))))
             = cleaned_count t)%Z).
  { induction k as [|k IH]; [rewrite loop_state_at_0; cbn; lia|].
    destruct (active_poops t !! k) as [p|] eqn:Hk.
    - rewrite (loop_state_at_S _ _ _ _ _ Hk).
      by rewrite track_poop_cleaned_count.
    - apply lookup_ge_None in Hk.
      rewrite (loop_state_at_ge _ _ _ (S k)) by lia.
      by rewrite <- (loop_state_at_ge _ _ _ k) by lia. }
  rewrite update_events, Hcb. unfold update. cbn [fst cleaned_count total_deposits].
  rewrite stage_eq. cbn [staged_cleaned_count staged_total_deposits].
  rewrite !List.filter_app, !length_app.
  set (us := unclaimed _ _ _).
  rewrite (filter_nil_Forall is_cleaned_event (detected_events _ us)).
  2:{ eapply Forall_impl; [apply detected_events_kind|]. by intros [] ?. }
  rewrite (filter_all_Forall is_detected (detected_events _ us))
    by apply detected_events_kind.
  rewrite (filter_nil_Forall is_detected (ls_events _)).
  2:{ eapply Forall_impl; [apply loop_events_ids|]. by intros e [He _]. }
  cbn [length]. unfold detected_events. rewrite length_imap.
  specialize (Hloop (length (active_poops t))). fold (loop_end t ds now) in Hloop.
  split; lia.
Qed.

Lemma counters_count_events_run t cs :
  event_callback t = true ->
  cleaned_count (run t cs) =
    (cleaned_count t +
     Z.of_nat (length (List.filter is_cleaned_event (run_events t cs))))%Z /\
  total_deposits (run t cs) =
    (total_deposits t +
     Z.of_nat (length (List.filter is_detected (run_events t cs))))%Z.
Proof.
  revert t. induction cs as [|c cs IH]; intros t Hcb; [cbn; lia|].
  change (run t (c :: cs)) with (run (step t c) cs). cbn [run_events].
  destruct (IH (step t c)) as [-> ->]; [done|].
  destruct (update_counts_events t (detections c) (pooping_events c) (now c) Hcb)
    as [Hc Ht].
  unfold step, cycle_events. rewrite Hc, Ht.
  rewrite !List.filter_app, !length_app. lia.
Qed.

(** X5: with a callback registered, over any run the growth of
    [cleaned_count] is the number of [poop_cleaned] notifications and the
    growth of [total_deposits] is the number of [poop_detected]
    notifications. *)
Theorem counters_count_notifications (t : PoopTracker) (cs : list Cycle) :
  event_callback t = true ->
  cleaned_count (run t cs) =
    (cleaned_count t +
     Z.of_nat (length (List.filter is_cleaned_event (run_events t cs))))%Z /\
  total_deposits (run t cs) =
    (total_deposits t +
     Z.of_nat (length (List.filter is_detected (run_events t cs))))%Z.
Proof. apply counters_count_events_run. Qed.

Lemma counters_count_notifications_witness :
  let cs := [mkCycle [] [(5, 5)] 0;
             mkCycle [sample_person 0 0 10 10; sample_poop 100 100 130 130] [] 1;
             mkCycle [sample_person 0 0 10 10] [] 2] in
  cleaned_count (run sample_tracker cs) = 1%Z /\
  total_deposits (run sample_tracker cs) = 1%Z.
Proof.
  cbv zeta.
  destruct (counters_count_notifications sample_tracker
              [mkCycle [] [(5, 5)] 0;
               mkCycle [sample_person 0 0 10 10; sample_poop 100 100 130 130] [] 1;
               mkCycle [sample_person 0 0 10 10] [] 2]) as [-> ->];
    [reflexivity|].
  split; vm_compute; reflexivity.
Defined.

(** ** poop_tracker.py: cycles without detections *)

Lemma track_poop_idle t now st p :
  track_poop t [] [] now st p = (missed p, st).
Proof.
  unfold track_poop. cbn [find_best scan_detections].
  rewrite on_miss_eq. cbn. rewrite app_nil_r, Z.add_0_r. by destruct st.
Qed.

Lemma track_poops_idle t now st l :
  track_poops t [] [] now st l = (map missed l, st).
Proof.
  induction l as [|p l IH]; [done|]. cbn [track_poops map].
  by rewrite track_poop_idle, IH.
Qed.

(** X6: a call that is given no poop detection, no person detection and
    no event point (a frame on which inference was skipped, for one)
    counts as a missed frame for every deposit: each missing-frame
    counter grows by 1, each cleanup counter is reset to 0, deposits that
    reach the stale threshold are dropped; nothing is emitted, created or
    counted. *)
Theorem update_without_detections
    (t : PoopTracker) (ds : list Detection) (now : Q) :
  poop_detections ds = [] ->
  person_detections ds = [] ->
  update t ds [] now =
    (mkPoopTracker (iou_threshold t) (stale_threshold t)
       (cleanup_confirm_frames t) (event_callback t)
       (List.filter (keep (stale_threshold t)) (map missed (active_poops t)))
       (cleaned_count t) (total_deposits t) (uuid_supply t),
     []).
Proof.
  intros Hp Hq. unfold update, stage. rewrite Hp, Hq, track_poops_idle.
  cbn [create_tracks create_pending created cs_total_deposits cs_events
       cs_uuid staged_poops staged_cleaned_count staged_total_deposits
       staged_uuid staged_events loop_start ls_cleaned_count ls_events].
  done.
Qed.

Lemma update_without_detections_witness :
  let t := run sample_tracker [mkCycle [sample_poop 100 100 130 130] [] 0] in
  active_poops (fst (update t [sample_dog 0 0 50 50] [] 1)) =
    [mkPoopInstance 0 (230 # 2, 230 # 2) (mkBox 100 100 130 130)
       0 0 active None 1 0] /\
  snd (update t [sample_dog 0 0 50 50] [] 1) = [].
Proof.
  cbv zeta.
  rewrite (update_without_detections
             (run sample_tracker [mkCycle [sample_poop 100 100 130 130] [] 0])
             [sample_dog 0 0 50 50] 1 eq_refl eq_refl).
  split; [vm_compute; reflexivity|reflexivity].
Defined.

Lemma run_events_elem t cs e :
  e ∈ run_events t cs ->
  exists n c, cs !! n = Some c /\ e ∈ cycle_events (run t (take n cs)) c.
Proof.
  induction cs as [|c cs IH] using rev_ind; [by intros ?%elem_of_nil|].
  rewrite run_events_snoc, elem_of_app. intros [He|He].
  - destruct (IH He) as (n & c' & Hn & Hc'). exists n, c'.
    assert (Hlt := lookup_lt_Some _ _ _ Hn).
    rewrite lookup_app_l by done. rewrite take_app_le by lia. done.
  - exists (length cs), c. rewrite lookup_app_r, Nat.sub_diag by lia.
    by rewrite take_app_length.
Qed.

Lemma is_human_nearby_nil p threshold : _is_human_nearby p [] threshold = false.
Proof. reflexivity. Qed.

Lemma run_without_consecutive_persons
    (thr : Q) (stale confirm : Z) (cb : bool) (cs : list Cycle) :
  (2 <= confirm)%Z ->
  no_adjacent_person_cycles cs ->
  (forall i loc,
     poop_cleaned i loc ∉ run_events (PoopTracker.init thr stale confirm cb) cs) /\
  (cb = true ->
   cleaned_count (run (PoopTracker.init thr stale confirm cb) cs) = 0%Z).
Proof.
  intros Hconf Hadj. set (t0 := PoopTracker.init thr stale confirm cb).
  assert (Hnone : forall i loc, poop_cleaned i loc ∉ run_events t0 cs).
  { intros i loc He.
    apply run_events_elem in He as (n & c & Hn & He).
    destruct (run_config t0 (take n cs)) as (_ & _ & Hcf & _).
    apply cleaned_event_origin in He
      as (k & p & Hk & _ & _ & _ & Hnear & Hle & _).
    rewrite Hcf in Hle. change (cleanup_confirm_frames t0) with confirm in Hle.
    destruct (streak_history t0 (take n cs)) with (p := p) (j := 0%nat)
      as (Hlen & cj & Hcj & (k' & q & _ & _ & _ & Hnear')).
    { by intros q Hq%elem_of_nil. }
    { by eapply list_elem_of_lookup_2. }
    { lia. }
    assert (Hn' := lookup_lt_Some _ _ _ Hn).
    rewrite length_take_le in Hlen, Hcj by lia.
    rewrite Nat.sub_0_r in Hcj.
    apply lookup_take_Some in Hcj as [Hcj _].
    destruct (Hadj (n - 1)%nat cj c Hcj) as [H|H].
    - by replace (S (n - 1)) with n by lia.
    - rewrite H in Hnear'. discriminate Hnear'.
    - rewrite H in Hnear. discriminate Hnear. }
  split; [exact Hnone|]. intros ->.
  destruct (counters_count_events_run t0 cs) as [-> _]; [done|].
  rewrite filter_nil_Forall; [done|].
  apply Forall_forall. intros [] He; try done. by apply Hnone in He.
Qed.

(** X7: with a confirm count of at least 2, a run from a fresh tracker
    in which no two cycles in a row both carry a person detection never
    emits [poop_cleaned] and leaves [cleaned_count] at 0: the cycle
    without a person resets every cleanup counter. *)
Theorem no_cleanup_without_consecutive_persons
    (thr : Q) (stale confirm : Z) (cb : bool) (cs : list Cycle) :
  (2 <= confirm)%Z ->
  no_adjacent_person_cycles cs ->
  (forall i loc,
     poop_cleaned i loc ∉ run_events (PoopTracker.init thr stale confirm cb) cs) /\
  (cb = true ->
   cleaned_count (run (PoopTracker.init thr stale confirm cb) cs) = 0%Z).
Proof. apply run_without_consecutive_persons. Qed.

Lemma no_cleanup_without_consecutive_persons_witness :
  let cs := [mkCycle [] [(5, 5)] 0;
             mkCycle [sample_person 0 0 10 10] [] 1;
             mkCycle [] [] 2;
             mkCycle [sample_person 0 0 10 10] [] 3] in
  no_adjacent_person_cycles cs /\
  cleaned_count (run sample_tracker cs) = 0%Z.
Proof.
  cbv zeta.
  assert (Hadj : no_adjacent_person_cycles
                   [mkCycle [] [(5, 5)] 0;
                    mkCycle [sample_person 0 0 10 10] [] 1;
                    mkCycle [] [] 2;
                    mkCycle [sample_person 0 0 10 10] [] 3]).
  { intros k c1 c2 H1 H2.
    destruct k as [|[|[|k]]]; cbn in H1, H2.
    - injection H1 as <-. by left.
    - injection H2 as <-. by right.
    - injection H1 as <-. by left.
    - by destruct k. }
  split; [exact Hadj|].
  destruct (no_cleanup_without_consecutive_persons (3 # 10) 3 2 true _
              ltac:(lia) Hadj) as [_ H].
  by apply H.
Defined.

(** ** detector.py *)

Lemma collect_boxes_spec thr boxes acc :
  Detector.collect_boxes thr boxes acc =
  acc ++ map to_detection (List.filter (passes thr) boxes).
Proof.
  revert acc. induction boxes as [|b boxes IH]; intros acc;
    cbn [Detector.collect_boxes List.filter map].
  - by rewrite app_nil_r.
  - unfold passes at 1.
    destruct (Qlt_bool (Detector.raw_conf b) thr); cbn [negb andb]; [apply IH|].
    destruct (Detector.relevant_class b); [|apply IH].
    rewrite IH, <- app_assoc. done.
Qed.

Lemma collect_results_spec thr results acc :
  Detector.collect_results thr results acc =
  acc ++ map to_detection (List.filter (passes thr) (concat results)).
Proof.
  revert acc. induction results as [|boxes results IH]; intros acc;
    cbn [Detector.collect_results concat].
  - by rewrite app_nil_r.
  - rewrite IH, collect_boxes_spec, List.filter_app, map_app, app_assoc. done.
Qed.

(** X8: [detect] counts the call; with interval 0 it raises; on a call
    whose number is not a multiple of the interval it returns no
    detection; otherwise it returns, in the model's order, the boxes
    whose confidence is not below the threshold and whose class is
    person (0), dog (16) or named poop, so every detection it returns
    passes both tests. *)
Theorem detect_filters (d : Detector.Detector)
    (results : list (list Detector.RawBox)) :
  let n := (Detector.frame_count d + 1)%Z in
  Detector.frame_count (fst (Detector.detect d results)) = n /\
  (Detector.inference_interval d = 0%Z ->
     snd (Detector.detect d results) = None) /\
  (Detector.inference_interval d <> 0%Z ->
     (n mod Detector.inference_interval d <> 0)%Z ->
     snd (Detector.detect d results) = Some []) /\
  (Detector.inference_interval d <> 0%Z ->
     (n mod Detector.inference_interval d = 0)%Z ->
     snd (Detector.detect d results) =
       Some (map to_detection
               (List.filter (passes (Detector.confidence_threshold d))
                  (concat results)))) /\
  (forall dets det,
     snd (Detector.detect d results) = Some dets -> det ∈ dets ->
     Detector.confidence_threshold d <= confidence det /\
     (class_id det = 0%Z \/ class_id det = 16%Z \/ class_name det = "poop")).
Proof.
  cbv zeta.
  assert (Hrun : Detector.inference_interval d <> 0%Z ->
            ((Detector.frame_count d + 1) mod Detector.inference_interval d = 0)%Z ->
            snd (Detector.detect d results) =
              Some (map to_detection
                      (List.filter (passes (Detector.confidence_threshold d))
                         (concat results)))).
  { intros Hn Hm. unfold Detector.detect. cbn [Detector.frame_count].
    apply Z.eqb_neq in Hn. rewrite Hn.
    apply Z.eqb_eq in Hm. rewrite Hm. cbn [negb snd].
    by rewrite collect_results_spec. }
  assert (Hskip : Detector.inference_interval d <> 0%Z ->
            ((Detector.frame_count d + 1) mod Detector.inference_interval d <> 0)%Z ->
            snd (Detector.detect d results) = Some []).
  { intros Hn Hm. unfold Detector.detect. cbn [Detector.frame_count].
    apply Z.eqb_neq in Hn. rewrite Hn.
    apply Z.eqb_neq in Hm. by rewrite Hm. }
  split; [|split; [|split; [exact Hskip|split; [exact Hrun|]]]].
  - unfold Detector.detect.
    destruct (_ =? 0)%Z; [done|]. by destruct (negb _).
  - intros Hn. unfold Detector.detect. by rewrite Hn.
  - intros dets det Hd Hin.
    destruct (decide (Detector.inference_interval d = 0%Z)) as [Hn|Hn].
    { unfold Detector.detect in Hd. by rewrite Hn in Hd. }
    destruct (decide (((Detector.frame_count d + 1)
                       mod Detector.inference_interval d)%Z = 0%Z)) as [Hm|Hm].
    + rewrite (Hrun Hn Hm) in Hd. injection Hd as <-.
      change (map ?g ?l) with (g <$> l) in Hin.
      apply list_elem_of_fmap in Hin as (b & -> & Hb).
      apply list_elem_of_In, filter_In in Hb as [_ Hb].
      unfold passes in Hb. apply andb_true_iff in Hb as [Hc Hr].
      apply negb_true_iff, Qlt_bool_false_iff in Hc. split; [done|].
      unfold Detector.relevant_class in Hr. cbn.
      apply orb_true_iff in Hr as [Hr|Hr];
        [apply orb_true_iff in Hr as [Hr|Hr]; apply Z.eqb_eq in Hr; auto|].
      apply bool_decide_eq_true in Hr. auto.
    + rewrite (Hskip Hn Hm) in Hd. injection Hd as <-.
      by apply elem_of_nil in Hin.
Qed.

Lemma detect_filters_witness :
  snd (Detector.detect sample_model_detector sample_results) =
    Some [sample_dogs_and_poop_dog; sample_dogs_and_poop_poop] /\
  snd (Detector.detect
         (fst (Detector.detect sample_model_detector sample_results))
         sample_results) = Some [].
Proof.
  split.
  - destruct (detect_filters sample_model_detector sample_results)
      as (_ & _ & _ & Hrun & _).
    rewrite Hrun; [vm_compute; reflexivity|discriminate|reflexivity].
  - destruct (detect_filters
                (fst (Detector.detect sample_model_detector sample_results))
                sample_results) as (_ & _ & Hskip & _).
    apply Hskip; [discriminate|vm_compute; discriminate].
Defined.

Lemma detect_eq d results :
  Detector.inference_interval d <> 0%Z ->
  Detector.detect d results =
  (Detector.mkDetector (Detector.model_path d) (Detector.confidence_threshold d)
     (Detector.inference_interval d) (Detector.frame_count d + 1),
   Some (if ((Detector.frame_count d + 1) mod Detector.inference_interval d =? 0)%Z
         then map to_detection
                (List.filter (passes (Detector.confidence_threshold d))
                   (concat results))
         else [])).
Proof.
  intros Hn. unfold Detector.detect. cbn [Detector.frame_count].
  apply Z.eqb_neq in Hn. rewrite Hn.
  destruct ((Detector.frame_count d + 1)
            mod Detector.inference_interval d =? 0)%Z; cbn [negb]; [|done].
  by rewrite collect_results_spec.
Qed.

(** X9: called on a sequence of frames with a non-zero interval,
    [detect] counts every call and runs the model exactly on the calls
    whose number is a multiple of the interval; every other call returns
    the empty list. *)
Theorem inference_schedule (d : Detector.Detector)
    (frames : list (list (list Detector.RawBox))) :
  Detector.inference_interval d <> 0%Z ->
  Detector.frame_count (fst (detect_frames d frames)) =
    (Detector.frame_count d + Z.of_nat (length frames))%Z /\
  forall k results, frames !! k = Some results ->
    snd (detect_frames d frames) !! k =
      Some (Some
        (if ((Detector.frame_count d + Z.of_nat k + 1)
             mod Detector.inference_interval d =? 0)%Z
         then map to_detection
                (List.filter (passes (Detector.confidence_threshold d))
                   (concat results))
         else [])).
Proof.
  revert d. induction frames as [|r frames IH]; intros d Hn.
  { cbn. split; [lia|done]. }
  cbn [detect_frames]. rewrite (detect_eq d r Hn).
  set (d' := Detector.mkDetector _ _ _ _).
  destruct (IH d') as [Hc Hl]; [done|].
  destruct (detect_frames d' frames) as [d'' outs]. cbn [fst snd] in *.
  split.
  - rewrite Hc. cbn [length Detector.frame_count d']. lia.
  - intros [|k] results Hk.
    + injection Hk as <-. cbn. by rewrite Z.add_0_r.
    + etransitivity; [exact (Hl k results Hk)|].
      cbn [Detector.frame_count Detector.inference_interval
           Detector.confidence_threshold d'].
      replace (Detector.frame_count d + 1 + Z.of_nat k + 1)%Z
        with (Detector.frame_count d + Z.of_nat (S k) + 1)%Z by lia.
      done.
Qed.

Lemma inference_schedule_witness :
  snd (detect_frames (Detector.mkDetector "yolov8n.pt" (1 # 2) 3 0)
         [sample_results; sample_results; sample_results; sample_results]) =
  [Some []; Some [];
   Some [sample_dogs_and_poop_dog; sample_dogs_and_poop_poop]; Some []].
Proof.
  destruct (inference_schedule (Detector.mkDetector "yolov8n.pt" (1 # 2) 3 0)
              [sample_results; sample_results; sample_results; sample_results])
    as [_ H]; [discriminate|].
  apply list_eq. intros [|[|[|[|k]]]].
  - by rewrite (H 0%nat sample_results eq_refl).
  - by rewrite (H 1%nat sample_results eq_refl).
  - rewrite (H 2%nat sample_results eq_refl). vm_compute. reflexivity.
  - by rewrite (H 3%nat sample_results eq_refl).
  - vm_compute. reflexivity.
Defined.

(** ** main.py: the processing loop *)

Lemma detect_interval d results :
  Detector.inference_interval (fst (Detector.detect d results)) =
  Detector.inference_interval d.
Proof.
  unfold Detector.detect. destruct (_ =? 0)%Z; [done|]. by destruct (negb _).
Qed.

(** What the tracker of the loop goes through is a run over the cycles
    the detector and the event detector hand it. *)
Lemma process_frames_run root s frames s' outs :
  Main.process_frames root s frames = Some (s', outs) ->
  let cs := tracker_cycles root (Main.detector s) (Main.event_detector s) frames in
  length cs = length frames /\
  Main.poop_tracker s' = run (Main.poop_tracker s) cs /\
  forall k out, outs !! k = Some out ->
    exists c, cs !! k = Some c /\
      Main.out_events out = cycle_events (run (Main.poop_tracker s) (take k cs)) c /\
      Main.out_state out = get_state (run (Main.poop_tracker s) (take (S k) cs)).
Proof.
  revert s outs. induction frames as [|f frames IH]; intros s outs;
    cbn [Main.process_frames tracker_cycles].
  { intros [= <- <-]. cbn. split; [done|]. split; [done|]. by intros k out. }
  unfold Main.process_frame.
  destruct (Detector.detect (Main.detector s) (Main.frame_results f))
    as [d' [dets|]]; [|done].
  destruct (EventDetector.process root (Main.event_detector s) dets
              (Main.frame_time f)) as [ed' pooping] eqn:Hed.
  destruct (update (Main.poop_tracker s) dets pooping (Main.frame_time f))
    as [pt' events] eqn:Hup.
  destruct (StateManager.update _ _ _) as [sm' alerts].
  set (s1 := Main.mkSystem d' ed' pt' sm').
  destruct (Main.process_frames root s1 frames) as [[s2 outs2]|] eqn:Hrest;
    [|done].
  intros [= <- <-]. cbv zeta.
  destruct (IH s1 outs2 Hrest) as (Hlen & Hrun & Hout). cbv zeta in *.
  cbn [Main.detector Main.event_detector Main.poop_tracker s1] in *.
  set (c := mkCycle dets pooping (Main.frame_time f)) in *.
  assert (Hstep : step (Main.poop_tracker s) c = pt').
  { unfold step, c. cbn [detections pooping_events now]. by rewrite Hup. }
  split; [cbn; by rewrite Hlen|]. split.
  - rewrite Hrun. cbn [run fold_left]. by rewrite Hstep.
  - intros [|k] out Hk.
    + injection Hk as <-. exists c. split; [done|]. cbn [Main.out_events
        Main.out_state take run fold_left]. split.
      * unfold cycle_events, c. cbn [detections pooping_events now].
        by rewrite Hup.
      * by rewrite Hstep.
    + destruct (Hout k out Hk) as (c' & Hc' & Hev & Hst).
      exists c'. split; [done|].
      cbn [take run fold_left]. rewrite Hstep. done.
Qed.

Lemma process_frames_total root s frames :
  Detector.inference_interval (Main.detector s) <> 0%Z ->
  is_Some (Main.process_frames root s frames).
Proof.
  revert s. induction frames as [|f frames IH]; intros s Hn;
    cbn [Main.process_frames]; [done|].
  unfold Main.process_frame.
  pose proof (detect_interval (Main.detector s) (Main.frame_results f)) as Hi.
  rewrite (detect_eq _ _ Hn) in Hi |- *.
  destruct (EventDetector.process _ _ _ _) as [ed' pooping].
  destruct (update _ _ _ _) as [pt' events].
  destruct (StateManager.update _ _ _) as [sm' alerts].
  match goal with |- context [Main.process_frames root ?s1 frames] =>
    destruct (IH s1) as [[s2 outs2] ->]; [cbn in *; congruence|done] end.
Qed.

(** On which frames the tracker of the loop is given any detection. *)
Lemma tracker_cycles_schedule root d ed frames k c :
  Detector.inference_interval d <> 0%Z ->
  tracker_cycles root d ed frames !! k = Some c ->
  detections c = [] \/
  ((Detector.frame_count d + Z.of_nat k + 1)
   mod Detector.inference_interval d = 0)%Z.
Proof.
  revert d ed k. induction frames as [|f frames IH]; intros d ed k Hn;
    cbn [tracker_cycles]; [done|].
  rewrite (detect_eq _ _ Hn).
  destruct (EventDetector.process _ _ _ _) as [ed' pooping].
  destruct k as [|k].
  - intros [= <-]. cbn [detections]. rewrite Z.add_0_r.
    destruct (_ =? 0)%Z eqn:E; [right; by apply Z.eqb_eq|by left].
  - intros Hk. apply IH in Hk; [|done].
    cbn [Detector.frame_count Detector.inference_interval] in Hk.
    destruct Hk as [Hk|Hk]; [by left|right].
    replace (Detector.frame_count d + Z.of_nat (S k) + 1)%Z
      with (Detector.frame_count d + 1 + Z.of_nat k + 1)%Z by lia. done.
Qed.

Lemma tracker_cycles_no_adjacent root d ed frames :
  (2 <= Detector.inference_interval d)%Z ->
  no_adjacent_person_cycles (tracker_cycles root d ed frames).
Proof.
  intros Hn k c1 c2 H1 H2.
  assert (Hne : Detector.inference_interval d <> 0%Z) by lia.
  destruct (tracker_cycles_schedule root d ed frames k c1 Hne H1) as [E1|E1];
    [left; by rewrite E1|].
  destruct (tracker_cycles_schedule root d ed frames (S k) c2 Hne H2) as [E2|E2];
    [right; by rewrite E2|].
  clear H1 H2. rename E1 into H1, E2 into H2.
  exfalso.
  set (n := Detector.inference_interval d) in *.
  set (a := (Detector.frame_count d + Z.of_nat k + 1)%Z) in *.
  replace (Detector.frame_count d + Z.of_nat (S k) + 1)%Z with (a + 1)%Z in H2
    by (unfold a; lia).
  apply Z.mod_divide in H1, H2; try lia.
  destruct H1 as [x Hx], H2 as [y Hy].
  assert (Hd : ((y - x) * n = 1)%Z) by lia.
  assert (0 < y - x)%Z by nia. nia.
Qed.

Lemma no_adjacent_person_cycles_take n cs :
  no_adjacent_person_cycles cs -> no_adjacent_person_cycles (take n cs).
Proof.
  intros H k c1 c2 H1 H2.
  apply lookup_take_Some in H1 as [H1 _], H2 as [H2 _]. by apply (H k).
Qed.

(** X10: when the detector runs the model only on every second frame or
    less often, and the confirm count is at least 2, the loop of [main]
    never raises, never reports a deposit as cleaned and never counts
    one: the frames on which inference is skipped reach the tracker as
    frames without any person and reset every cleanup counter. *)
Theorem skipped_frames_block_cleanup
    (root : Q -> Q) (s : Main.System) (frames : list Main.Frame)
    (thr : Q) (stale confirm : Z) :
  (2 <= Detector.inference_interval (Main.detector s))%Z ->
  (2 <= confirm)%Z ->
  Main.poop_tracker s = PoopTracker.init thr stale confirm true ->
  exists s' outs,
    Main.process_frames root s frames = Some (s', outs) /\
    length outs = length frames /\
    cleaned_count (Main.poop_tracker s') = 0%Z /\
    forall out, out ∈ outs ->
      (forall i loc, poop_cleaned i loc ∉ Main.out_events out) /\
      st_cleaned_count (Main.out_state out) = 0%Z.
Proof.
  intros Hn Hconf Ht.
  destruct (process_frames_total root s frames) as [[s' outs] Hrun]; [lia|].
  exists s', outs. split; [done|].
  destruct (process_frames_run root s frames s' outs Hrun)
    as (Hlen & Hpt & Hout). cbv zeta in *.
  set (cs := tracker_cycles root (Main.detector s) (Main.event_detector s) frames)
    in *.
  assert (Hadj : no_adjacent_person_cycles cs)
    by (by apply tracker_cycles_no_adjacent).
  rewrite Ht in *.
  assert (Houts : forall out, out ∈ outs ->
            (forall i loc, poop_cleaned i loc ∉ Main.out_events out) /\
            st_cleaned_count (Main.out_state out) = 0%Z).
  { intros out Hin. apply list_elem_of_lookup in Hin as [k Hk].
    destruct (Hout k out Hk) as (c & Hc & Hev & Hst).
    destruct (run_without_consecutive_persons thr stale confirm true
                (take (S k) cs) Hconf) as [Hnone Hzero];
      [by apply no_adjacent_person_cycles_take|].
    split.
    - intros i loc He. apply (Hnone i loc).
      rewrite (take_S_r _ _ _ Hc), run_events_snoc, elem_of_app. right.
      by rewrite <- Hev.
    - rewrite Hst. cbn [get_state st_cleaned_count]. by apply Hzero. }
  split; [|split; [|exact Houts]].
  - apply Nat.le_antisymm.
    + destruct (decide (length outs <= length frames)%nat) as [|Hgt]; [done|].
      destruct (lookup_lt_is_Some_2 outs (length frames)) as [out Hk]; [lia|].
      destruct (Hout _ _ Hk) as (c & Hc & _).
      apply lookup_lt_Some in Hc. lia.
    + clear -Hrun. revert s outs Hrun.
      induction frames as [|f frames IH]; intros s outs;
        cbn [Main.process_frames]; [intros [= <- <-]; done|].
      destruct (Main.process_frame root s f) as [[s1 out]|]; [|done].
      destruct (Main.process_frames root s1 frames) as [[s2 outs2]|] eqn:Hr;
        [|done].
      intros [= <- <-]. cbn. specialize (IH _ _ Hr). lia.
  - rewrite Hpt.
    destruct (run_without_consecutive_persons thr stale confirm true cs Hconf Hadj)
      as [_ Hzero]. by apply Hzero.
Qed.

Lemma skipped_frames_block_cleanup_witness :
  exists s' outs,
    Main.process_frames sample_root sample_system sample_frames
      = Some (s', outs) /\
    length outs = 3%nat /\
    cleaned_count (Main.poop_tracker s') = 0%Z.
Proof.
  destruct (skipped_frames_block_cleanup sample_root sample_system
              sample_frames (3 # 10) 3 2)
    as (s' & outs & Hrun & Hlen & Hzero & _); [cbn; lia|lia|reflexivity|].
  exists s', outs. split; [exact Hrun|]. split; [exact Hlen|exact Hzero].
Defined.

(** ** event_detector.py: the nearest detection *)

Lemma nearest_detection_best c m i ds best idx r :
  EventDetector.nearest_detection c m i ds best idx = Some r ->
  (idx = Some r /\
   forall j d, ds !! j = Some d -> (i + j)%nat ∉ m ->
     ~ (EventDetector.lt_ext (EventDetector.distance2 c (center d)) best = true /\
        EventDetector.distance2 c (center d) < Qsquare 100)) \/
  (exists j d,
     r = (i + j)%nat /\ ds !! j = Some d /\ (r ∉ m) /\
     EventDetector.lt_ext (EventDetector.distance2 c (center d)) best = true /\
     EventDetector.distance2 c (center d) < Qsquare 100 /\
     forall j' d', ds !! j' = Some d' -> (i + j')%nat ∉ m ->
       EventDetector.distance2 c (center d') < Qsquare 100 ->
       EventDetector.distance2 c (center d)
         <= EventDetector.distance2 c (center d') /\
       ((j' < j)%nat ->
        EventDetector.distance2 c (center d)
          < EventDetector.distance2 c (center d'))).
Proof.
  revert i best idx. induction ds as [|x ds IH]; intros i best idx;
    cbn [EventDetector.nearest_detection].
  { intros ->. left. split; [done|]. intros j d Hj. by destruct j. }
  case_bool_decide as Hm.
  - intros H. apply IH in H as [[-> H]|(j & d & -> & Hj & Hn & Hb & Hg & Hmin)].
    + left. split; [done|]. intros [|j] d Hj Hn.
      * exfalso. apply Hn. by rewrite Nat.add_0_r.
      * apply (H j d Hj). by rewrite Nat.add_succ_comm.
    + right. exists (S j), d. rewrite <- Nat.add_succ_comm.
      repeat (split; [done|]). intros [|j'] d' Hj' Hn' Hg'.
      * exfalso. apply Hn'. by rewrite Nat.add_0_r.
      * destruct (Hmin j' d' Hj') as [Hle Hlt];
          [by rewrite Nat.add_succ_comm|done|].
        split; [done|]. intros ?. apply Hlt. lia.
  - cbv zeta.
    destruct (EventDetector.lt_ext _ best && Qlt_bool _ _) eqn:E.
    + apply andb_true_iff in E as [E1 E2]. apply Qlt_bool_iff in E2.
      intros H. apply IH in H as [[Heq H]|(j & d & -> & Hj & Hn & Hb & Hg & Hmin)].
      * injection Heq as <-. right. exists 0%nat, x. rewrite Nat.add_0_r.
        repeat (split; [done|]). intros [|j'] d' Hj' Hn' Hg'.
        -- injection Hj' as <-. split; [lra|lia].
        -- split; [|lia].
           assert (Hnot := H j' d' Hj'). rewrite Nat.add_succ_comm in Hnot.
           specialize (Hnot Hn'). cbn [EventDetector.lt_ext] in Hnot.
           destruct (Qlt_le_dec (EventDetector.distance2 c (center d'))
                       (EventDetector.distance2 c (center x))) as [Hlt|Hle];
             [|done].
           exfalso. apply Hnot. split; [by apply Qlt_bool_iff|done].
      * cbn [EventDetector.lt_ext] in Hb. apply Qlt_bool_iff in Hb.
        right. exists (S j), d. rewrite <- Nat.add_succ_comm.
        repeat (split; [done|]). split.
        { destruct best as [q|]; cbn in *; [|done].
          apply Qlt_bool_iff in E1. apply Qlt_bool_iff. lra. }
        split; [done|]. intros [|j'] d' Hj' Hn' Hg'.
        -- injection Hj' as <-. split; [lra|]. intros _. done.
        -- destruct (Hmin j' d' Hj') as [Hle Hlt];
             [by rewrite Nat.add_succ_comm|done|].
           split; [done|]. intros ?. apply Hlt. lia.
    + intros H. apply IH in H as [[-> H]|(j & d & -> & Hj & Hn & Hb & Hg & Hmin)].
      * left. split; [done|]. intros [|j] d Hj Hn.
        -- injection Hj as <-. intros [E1 E2]. apply Qlt_bool_iff in E2.
           rewrite E1, E2 in E. discriminate E.
        -- apply (H j d Hj). by rewrite Nat.add_succ_comm.
      * right. exists (S j), d. rewrite <- Nat.add_succ_comm.
        repeat (split; [done|]). intros [|j'] d' Hj' Hn' Hg'.
        -- injection Hj' as <-.
           assert (Hx : EventDetector.distance2 c (center d)
                        < EventDetector.distance2 c (center x)).
           { apply andb_false_iff in E as [E|E].
             - destruct best as [q|]; cbn in *; [|discriminate E].
               apply Qlt_bool_false_iff in E. apply Qlt_bool_iff in Hb. lra.
             - apply Qlt_bool_false_iff in E. lra. }
           split; [lra|done].
        -- destruct (Hmin j' d' Hj') as [Hle Hlt];
             [by rewrite Nat.add_succ_comm|done|].
           split; [done|]. intros ?. apply Hlt. lia.
Qed.




(** ** event_detector.py: the tracks *)

Lemma deque_append_length dq x :
  (length dq <= EventDetector.maxlen)%nat ->
  (1 <= length (EventDetector.deque_append dq x) <= EventDetector.maxlen)%nat.
Proof.
  intros Hlen. unfold EventDetector.deque_append.
  destruct (EventDetector.maxlen <=? length dq)%nat eqn:E.
  - apply Nat.leb_le in E. rewrite length_app, length_drop. cbn.
    unfold EventDetector.maxlen in *. lia.
  - apply Nat.leb_gt in E. rewrite length_app. cbn. lia.
Qed.

Lemma deque_append_last dq x :
  last (EventDetector.deque_append dq x) = Some x.
Proof.
  unfold EventDetector.deque_append.
  destruct (_ <=? _)%nat; apply last_snoc.
Qed.

Lemma add_position_spec track d now :
  last (EventDetector.positions (EventDetector.add_position track d now))
    = Some (sample_of d now) /\
  EventDetector.last_update (EventDetector.add_position track d now) = now.
Proof. split; [apply deque_append_last|done]. Qed.

(** One pass of the matching loop: ids are kept, a track is either left
    alone or given one detection of the frame, and every newly claimed
    index is the latest sample of some track. *)
Lemma match_tracks_spec dets now m tracks tracks' m' :
  EventDetector.match_tracks dets now m tracks = (tracks', m') ->
  map fst tracks' = map fst tracks /\
  Forall2 (fun a b =>
             fst b = fst a /\
             (snd b = snd a \/
              exists d, snd b = EventDetector.add_position (snd a) d now))
          tracks tracks' /\
  forall idx, idx ∈ m' ->
    idx ∈ m \/
    exists d tid tr,
      dets !! idx = Some d /\ (tid, tr) ∈ tracks' /\
      last (EventDetector.positions tr) = Some (sample_of d now) /\
      EventDetector.last_update tr = now.
Proof.
  revert m tracks' m'.
  induction tracks as [|[tid track] tracks IH]; intros m tracks' m';
    cbn [EventDetector.match_tracks].
  { intros [= <- <-]. split; [done|]. split; [constructor|]. by left. }
  assert (Hcons : forall track1 m1 rest1 m2,
            EventDetector.match_tracks dets now m1 tracks = (rest1, m2) ->
            (snd (tid, track1) = snd (tid, track) \/
             exists d, snd (tid, track1)
                       = EventDetector.add_position (snd (tid, track)) d now) ->
            (forall idx, idx ∈ m1 ->
               idx ∈ m \/
               exists d, dets !! idx = Some d /\
                 last (EventDetector.positions track1) = Some (sample_of d now) /\
                 EventDetector.last_update track1 = now) ->
            map fst ((tid, track1) :: rest1) = map fst ((tid, track) :: tracks) /\
            Forall2 (fun a b =>
                       fst b = fst a /\
                       (snd b = snd a \/
                        exists d, snd b
                                  = EventDetector.add_position (snd a) d now))
                    ((tid, track) :: tracks) ((tid, track1) :: rest1) /\
            forall idx, idx ∈ m2 ->
              idx ∈ m \/
              exists d tid0 tr,
                dets !! idx = Some d /\ (tid0, tr) ∈ (tid, track1) :: rest1 /\
                last (EventDetector.positions tr) = Some (sample_of d now) /\
                EventDetector.last_update tr = now).
  { intros track1 m1 rest1 m2 Hrest Hrel Hm1.
    destruct (IH _ _ _ Hrest) as (Hids & Hall & Hnew).
    split; [cbn; by rewrite Hids|]. split; [by constructor|].
    intros idx Hidx. destruct (Hnew idx Hidx) as [Hin|(d & tid0 & tr & Hd & Htr & Hl)].
    - destruct (Hm1 idx Hin) as [?|(d & Hd & Hl)]; [by left|right].
      exists d, tid, track1. split; [done|]. split; [by left|done].
    - right. exists d, tid0, tr. split; [done|]. split; [by right|done]. }
  destruct (last (EventDetector.positions track)) as [final|].
  - destruct (EventDetector.nearest_detection _ _ _ _ _ _) as [idx|] eqn:Hn.
    + destruct (EventDetector.match_tracks dets now ({[idx]} ∪ m) tracks)
        as [rest1 m2] eqn:Hrest.
      intros [= <- <-].
      apply nearest_detection_best in Hn
        as [[Hn _]|(j & d & -> & Hj & _)]; [done|]. cbn [Nat.add] in *.
      rewrite Hj. apply (Hcons _ _ _ _ Hrest).
      * right. by exists d.
      * intros idx. rewrite elem_of_union, elem_of_singleton.
        intros [->|?]; [right|by left]. exists d. split; [done|].
        apply add_position_spec.
    + destruct (EventDetector.match_tracks dets now m tracks)
        as [rest1 m2] eqn:Hrest.
      intros [= <- <-]. apply (Hcons _ _ _ _ Hrest); [by left|by left].
  - destruct (EventDetector.match_tracks dets now m tracks)
      as [rest1 m2] eqn:Hrest.
    intros [= <- <-]. apply (Hcons _ _ _ _ Hrest); [by left|by left].
Qed.

Lemma spawn_tracks_spec m now i ds tracks next :
  EventDetector.spawn_tracks m now i ds tracks next =
  (tracks ++ imap (fun j d => ((next + j)%nat, EventDetector.new_track d now))
                  (unclaimed m i ds),
   (next + length (unclaimed m i ds))%nat).
Proof.
  revert i tracks next. induction ds as [|d ds IH]; intros i tracks next;
    cbn [EventDetector.spawn_tracks unclaimed].
  - cbn. by rewrite app_nil_r, Nat.add_0_r.
  - case_bool_decide as Hm; [apply IH|].
    rewrite IH. cbn [imap length]. rewrite <- app_assoc, Nat.add_0_r. cbn [app].
    f_equal; [|lia]. do 2 f_equal. apply imap_ext. intros j x _. cbn.
    f_equal. lia.
Qed.

Lemma update_tracks_eq ed dogs now :
  exists tracks m,
    EventDetector.match_tracks dogs now ∅ (EventDetector.dog_tracks ed)
      = (tracks, m) /\
    EventDetector._update_tracks ed dogs now =
      EventDetector.mkEventDetector
        (EventDetector.stationary_threshold ed)
        (EventDetector.aspect_ratio_threshold ed)
        (tracks ++ imap (fun j d =>
                           ((EventDetector.next_track_id ed + j)%nat,
                            EventDetector.new_track d now))
                        (unclaimed m 0 dogs))
        (EventDetector.next_track_id ed + length (unclaimed m 0 dogs))
        (EventDetector.movement_threshold ed).
Proof.
  unfold EventDetector._update_tracks.
  destruct (EventDetector.match_tracks _ _ _ _) as [tracks m].
  exists tracks, m. split; [done|]. by rewrite spawn_tracks_spec.
Qed.

Lemma update_tracks_ok ed dogs now :
  tracks_ok ed -> tracks_ok (EventDetector._update_tracks ed dogs now).
Proof.
  intros [Hnd Hall].
  destruct (update_tracks_eq ed dogs now) as (tracks & m & Hm & ->).
  destruct (match_tracks_spec _ _ _ _ _ _ Hm) as (Hids & Hrel & _).
  set (news := imap _ _).
  assert (Hnews : map fst news
                  = seq (EventDetector.next_track_id ed)
                        (length (unclaimed m 0 dogs))).
  { unfold news. generalize (EventDetector.next_track_id ed) as n.
    induction (unclaimed m 0 dogs) as [|d us IH]; intros n; [done|].
    cbn [imap map length seq fst]. rewrite Nat.add_0_r. f_equal.
    rewrite <- IH. f_equal. apply imap_ext. intros j x _. cbn. f_equal. lia. }
  rewrite Forall_forall in Hall.
  split; cbn [EventDetector.dog_tracks EventDetector.next_track_id].
  - rewrite map_app, Hids, Hnews. apply NoDup_app. split; [done|].
    split; [|apply NoDup_seq].
    intros i Hi Hs. apply list_elem_of_In, in_seq in Hs.
    change (map fst ?l) with (fst <$> l) in Hi.
    apply list_elem_of_fmap in Hi as (x & -> & Hx).
    destruct (Hall x Hx) as [Hlt _]. lia.
  - apply Forall_app. split.
    + apply Forall_forall. intros b Hb.
      apply list_elem_of_lookup in Hb as [k Hk].
      destruct (Forall2_lookup_r _ _ _ _ _ Hrel Hk) as (a & Ha & Hf & Hs).
      destruct (Hall a (list_elem_of_lookup_2 _ _ _ Ha)) as [Hlt Hlen].
      rewrite Hf. split; [lia|].
      destruct Hs as [->|[d ->]]; [done|].
      apply deque_append_length. lia.
    + apply Forall_forall. intros b Hb.
      apply elem_of_lookup_imap in Hb as (j & d & -> & Hj).
      apply lookup_lt_Some in Hj. cbn [fst snd]. split; [lia|].
      apply deque_append_length. cbn. unfold EventDetector.maxlen. lia.
Qed.

Lemma process_tracks_ok root ed ds now :
  tracks_ok ed -> tracks_ok (fst (EventDetector.process root ed ds now)).
Proof.
  intros Hok. unfold EventDetector.process. cbn [fst].
  destruct (update_tracks_ok ed
              (List.filter (fun d => bool_decide (class_name d = "dog")) ds)
              now Hok) as [Hnd Hall].
  set (ed1 := EventDetector._update_tracks _ _ _) in *.
  split; cbn [EventDetector.dog_tracks EventDetector.next_track_id].
  - eapply sublist_NoDup; [exact Hnd|].
    change (map fst ?l) with (fst <$> l). apply fmap_sublist, filter_sublist.
  - rewrite Forall_forall in Hall |- *. intros x Hx.
    apply list_elem_of_In, filter_In in Hx as [Hx _].
    apply Hall. by apply list_elem_of_In.
Qed.

(** X12: however [process] is called from a new event detector, track
    ids stay distinct and below [next_track_id], and every track holds
    at least 1 and at most 90 samples. *)
Theorem tracks_stay_bounded
    (root : Q -> Q) (stationary aspect : Q) (inputs : list (list Detection * Q)) :
  let ed := process_all root (EventDetector.init stationary aspect) inputs in
  NoDup (map fst (EventDetector.dog_tracks ed)) /\
  forall tid track, (tid, track) ∈ EventDetector.dog_tracks ed ->
    (tid < EventDetector.next_track_id ed)%nat /\
    (1 <= length (EventDetector.positions track) <= 90)%nat.
Proof.
  cbv zeta.
  assert (Hok : tracks_ok
                  (process_all root (EventDetector.init stationary aspect) inputs)).
  { unfold process_all.
    assert (H0 : tracks_ok (EventDetector.init stationary aspect))
      by (split; cbn; constructor).
    revert H0. generalize (EventDetector.init stationary aspect) as ed.
    induction inputs as [|[ds now] inputs IH]; intros ed Hed; [done|].
    cbn [fold_left fst snd]. apply IH. by apply process_tracks_ok. }
  destruct Hok as [Hnd Hall]. split; [done|]. intros tid track Hin.
  rewrite Forall_forall in Hall. apply (Hall _ Hin).
Qed.

(** X13: after [process], every dog detection of the frame is the latest
    sample of a track that is kept, stamped with the time of the call;
    and no kept track has gone more than one second without an update. *)
Theorem every_dog_detection_recorded
    (root : Q -> Q) (ed : EventDetector.EventDetector)
    (ds : list Detection) (now : Q) :
  let ed' := fst (EventDetector.process root ed ds now) in
  (forall i d, dog_detections ds !! i = Some d ->
     exists tid track,
       (tid, track) ∈ EventDetector.dog_tracks ed' /\
       last (EventDetector.positions track) = Some (sample_of d now) /\
       EventDetector.last_update track = now) /\
  (forall tid track, (tid, track) ∈ EventDetector.dog_tracks ed' ->
     now - EventDetector.last_update track <= 1).
Proof.
  cbv zeta. unfold EventDetector.process. cbn [fst EventDetector.dog_tracks].
  fold (dog_detections ds).
  destruct (update_tracks_eq ed (dog_detections ds) now)
    as (tracks & m & Hm & ->). cbn [EventDetector.dog_tracks].
  destruct (match_tracks_spec _ _ _ _ _ _ Hm) as (_ & _ & Hnew).
  assert (Hkeep : forall track,
            EventDetector.last_update track = now ->
            negb (EventDetector.is_stale track now 1) = true).
  { intros track Hl. apply negb_true_iff.
    unfold EventDetector.is_stale. apply Qlt_bool_false_iff. rewrite Hl. lra. }
  split.
  - intros i d Hi.
    assert (Hrec : exists tid track,
              (tid, track) ∈ tracks ++
                imap (fun j d0 =>
                        ((EventDetector.next_track_id ed + j)%nat,
                         EventDetector.new_track d0 now))
                     (unclaimed m 0 (dog_detections ds)) /\
              last (EventDetector.positions track) = Some (sample_of d now) /\
              EventDetector.last_update track = now).
    { destruct (decide (i ∈ m)) as [Hin|Hout].
      - destruct (Hnew i Hin) as [H|(d' & tid & tr & Hd' & Htr & Hl)];
          [by apply elem_of_empty in H|].
        assert (d' = d) as -> by congruence.
        exists tid, tr. split; [|done]. apply elem_of_app. by left.
      - assert (Hu : d ∈ unclaimed m 0 (dog_detections ds))
          by (apply elem_of_unclaimed; by exists i).
        apply list_elem_of_lookup in Hu as [j Hj].
        exists (EventDetector.next_track_id ed + j)%nat,
               (EventDetector.new_track d now).
        split; [|apply add_position_spec].
        apply elem_of_app. right. apply elem_of_lookup_imap. by exists j, d. }
    destruct Hrec as (tid & track & Hin & Hlast & Hupd).
    exists tid, track. split; [|done].
    apply list_elem_of_In, filter_In. split; [by apply list_elem_of_In|].
    by apply Hkeep.
  - intros tid track Hin.
    apply list_elem_of_In, filter_In in Hin as [_ Hf].
    apply negb_true_iff in Hf. unfold EventDetector.is_stale in Hf.
    by apply Qlt_bool_false_iff in Hf.
Qed.

Lemma every_dog_detection_recorded_witness :
  exists tid track,
    (tid, track) ∈ EventDetector.dog_tracks
                     (fst (EventDetector.process sample_root sample_detector
                             [sample_dog 105 100 205 150;
                              sample_dog 500 500 600 550] 4)) /\
    last (EventDetector.positions track)
      = Some (sample_of (sample_dog 500 500 600 550) 4) /\
    EventDetector.last_update track = 4.
Proof.
  destruct (every_dog_detection_recorded sample_root sample_detector
              [sample_dog 105 100 205 150; sample_dog 500 500 600 550] 4)
    as [Hrec _].
  apply (Hrec 1%nat). reflexivity.
Defined.

(** ** state_manager.py: the alerts over many calls *)

Lemma update_config sm st clock :
  StateManager.alert_new_poop (fst (StateManager.update sm st clock))
    = StateManager.alert_new_poop sm /\
  StateManager.alert_cleanup (fst (StateManager.update sm st clock))
    = StateManager.alert_cleanup sm /\
  StateManager.aged_minutes (fst (StateManager.update sm st clock))
    = StateManager.aged_minutes sm.
Proof.
  unfold StateManager.update.
  by destruct (if StateManager.alert_new_poop sm then _ else _).
Qed.

Lemma update_last_cleaned sm st clock :
  StateManager.last_state (fst (StateManager.update sm st clock))
    !! "cleaned_count" = Some (st_cleaned_count st).
Proof.
  unfold StateManager.update.
  destruct (if StateManager.alert_new_poop sm then _ else _) as [known alerts1].
  cbn [fst StateManager.last_state].
  rewrite lookup_insert_ne by done. apply lookup_insert_eq.
Qed.

Lemma filter_new_poop_alerts sm st clock :
  List.filter is_new_poop_alert (snd (StateManager.update sm st clock)) =
  if StateManager.alert_new_poop sm
  then map StateManager.new_poop_alert
         (elements (StateManager.current_ids (st_active_poops st) ∖
                    StateManager.known_poop_ids sm))
  else [].
Proof.
  rewrite update_alerts, !List.filter_app.
  rewrite (filter_map_none is_new_poop_alert) by done. rewrite app_nil_r.
  assert (Hc : forall (b : bool) l,
            List.filter is_new_poop_alert
              (if b then [StateManager.cleanup_alert l] else []) = [])
    by (by intros []).
  rewrite Hc, app_nil_r.
  destruct (StateManager.alert_new_poop sm); [|done].
  by apply filter_map_all.
Qed.

Lemma filter_cleanup_alerts sm st clock :
  List.filter is_cleanup_alert (snd (StateManager.update sm st clock)) =
  if StateManager.alert_cleanup sm &&
     (default 0%Z (StateManager.last_state sm !! "cleaned_count")
      <? st_cleaned_count st)%Z
  then [StateManager.cleanup_alert
          (st_cleaned_count st -
           default 0%Z (StateManager.last_state sm !! "cleaned_count"))]
  else [].
Proof.
  rewrite update_alerts, !List.filter_app.
  rewrite (filter_map_none is_cleanup_alert) by done. rewrite app_nil_r.
  assert (Hn : List.filter is_cleanup_alert
                 (if StateManager.alert_new_poop sm
                  then map StateManager.new_poop_alert
                         (elements
                            (StateManager.current_ids (st_active_poops st) ∖
                             StateManager.known_poop_ids sm))
                  else []) = []).
  { destruct (StateManager.alert_new_poop sm); [|done].
    by apply filter_map_none. }
  rewrite Hn. cbn [app]. by destruct (_ && _).
Qed.

Lemma filter_aged_alerts sm st clock :
  List.filter is_aged_alert (snd (StateManager.update sm st clock)) =
  map (fun poop => StateManager.aged_poop_alert (id poop))
      (List.filter (StateManager.is_aged sm clock) (st_active_poops st)).
Proof.
  rewrite update_alerts, !List.filter_app.
  assert (Hn : List.filter is_aged_alert
                 (if StateManager.alert_new_poop sm
                  then map StateManager.new_poop_alert
                         (elements
                            (StateManager.current_ids (st_active_poops st) ∖
                             StateManager.known_poop_ids sm))
                  else []) = []).
  { destruct (StateManager.alert_new_poop sm); [|done].
    by apply filter_map_none. }
  rewrite Hn. cbn [app].
  rewrite (filter_map_all is_aged_alert) by done.
  by destruct (_ && _).
Qed.

Lemma elem_of_filter_alerts (f : StateManager.Alert -> bool) a l :
  f a = true -> a ∈ l <-> a ∈ List.filter f l.
Proof.
  intros Hf. rewrite !list_elem_of_In, filter_In. tauto.
Qed.

Lemma new_poop_alert_elem sm st clock i :
  StateManager.new_poop_alert i ∈ snd (StateManager.update sm st clock) <->
  StateManager.alert_new_poop sm = true /\
  i ∈ StateManager.current_ids (st_active_poops st) /\
  i ∉ StateManager.known_poop_ids sm.
Proof.
  rewrite (elem_of_filter_alerts is_new_poop_alert) by done.
  rewrite filter_new_poop_alerts.
  destruct (StateManager.alert_new_poop sm).
  - change (map ?g ?l) with (g <$> l). rewrite list_elem_of_fmap. split.
    + intros (j & [= <-] & Hj). apply elem_of_elements in Hj.
      by apply elem_of_difference in Hj.
    + intros (_ & Hc & Hk). exists i. split; [done|].
      apply elem_of_elements. by apply elem_of_difference.
  - split; [by intros H%elem_of_nil|by intros [? _]].
Qed.

Lemma update_all_cons sm st clock rest :
  update_all sm ((st, clock) :: rest) =
  (fst (update_all (fst (StateManager.update sm st clock)) rest),
   snd (StateManager.update sm st clock)
   :: snd (update_all (fst (StateManager.update sm st clock)) rest)).
Proof.
  cbn [update_all]. destruct (StateManager.update sm st clock) as [sm' a].
  cbn [fst snd]. by destruct (update_all sm' rest).
Qed.

Lemma update_all_config sm snapshots :
  StateManager.alert_new_poop (fst (update_all sm snapshots))
    = StateManager.alert_new_poop sm /\
  StateManager.alert_cleanup (fst (update_all sm snapshots))
    = StateManager.alert_cleanup sm /\
  StateManager.aged_minutes (fst (update_all sm snapshots))
    = StateManager.aged_minutes sm.
Proof.
  revert sm. induction snapshots as [|[st clock] rest IH]; intros sm; [done|].
  rewrite update_all_cons. cbn [fst].
  destruct (IH (fst (StateManager.update sm st clock))) as (-> & -> & ->).
  apply update_config.
Qed.

Lemma update_all_lookup sm snapshots k st clock :
  snapshots !! k = Some (st, clock) ->
  snd (update_all sm snapshots) !! k =
  Some (snd (StateManager.update
               (fst (update_all sm (take k snapshots))) st clock)).
Proof.
  revert sm k. induction snapshots as [|[st0 clock0] rest IH]; intros sm k;
    [done|].
  rewrite update_all_cons. destruct k as [|k].
  - by intros [= -> ->].
  - intros Hk. cbn [snd take]. rewrite update_all_cons. cbn [fst].
    by apply IH.
Qed.

(** X14: with the new-poop alert on, over any sequence of calls no id is
    announced twice, and an id is announced exactly when it was not
    known at the start and is in the active list of one of the
    snapshots; a deposit that leaves the active list and comes back is
    not announced again. *)
Theorem each_deposit_announced_once
    (sm : StateManager.StateManager) (snapshots : list (State * Q)) :
  StateManager.alert_new_poop sm = true ->
  let alerts := concat (snd (update_all sm snapshots)) in
  NoDup (List.filter is_new_poop_alert alerts) /\
  forall i, StateManager.new_poop_alert i ∈ alerts <->
    (i ∉ StateManager.known_poop_ids sm) /\
    exists st clock p,
      (st, clock) ∈ snapshots /\ p ∈ st_active_poops st /\ id p = i.
Proof.
  revert sm. induction snapshots as [|[st clock] rest IH]; intros sm Hon;
    cbv zeta.
  { cbn. split; [constructor|]. intros i. split; [by intros H%elem_of_nil|].
    by intros (_ & st & clock & p & H%elem_of_nil & _). }
  rewrite update_all_cons. cbn [snd concat].
  set (sm' := fst (StateManager.update sm st clock)).
  assert (Hon' : StateManager.alert_new_poop sm' = true).
  { unfold sm'. destruct (update_config sm st clock) as [-> _]. done. }
  destruct (IH sm' Hon') as [Hnd Hiff]. cbv zeta in Hnd, Hiff.
  assert (Hk : StateManager.known_poop_ids sm' =
               StateManager.known_poop_ids sm ∪
               StateManager.current_ids (st_active_poops st)).
  { unfold sm'. by rewrite update_known, Hon. }
  split.
  - rewrite List.filter_app. apply NoDup_app. split; [|split; [|done]].
    + rewrite filter_new_poop_alerts, Hon.
      change (map ?g ?l) with (g <$> l).
      apply NoDup_fmap_2; [|apply NoDup_elements]. by intros i j [= ->].
    + intros a Ha Hb.
      apply list_elem_of_In, filter_In in Ha as [Ha Hfa].
      apply list_elem_of_In, filter_In in Hb as [Hb _].
      destruct a as [i| |]; try discriminate.
      apply list_elem_of_In in Ha, Hb.
      apply new_poop_alert_elem in Ha as (_ & Hc & _).
      apply Hiff in Hb as [Hb _]. apply Hb. rewrite Hk.
      apply elem_of_union. by right.
  - intros i. rewrite elem_of_app, new_poop_alert_elem, Hiff, Hk. split.
    + intros [(_ & Hc & Hn)|(Hn & st' & clock' & p & Hin & Hp)].
      * split; [done|]. apply elem_of_current_ids in Hc as (p & Hp & Hid).
        exists st, clock, p. split; [apply elem_of_cons; by left|done].
      * split; [intros H; apply Hn, elem_of_union; by left|].
        exists st', clock', p. split; [apply elem_of_cons; by right|done].
    + intros (Hn & st' & clock' & p & Hin & Hp & Hid).
      apply elem_of_cons in Hin as [[= -> ->]|Hin].
      * left. split; [done|]. split; [|done].
        apply elem_of_current_ids. by exists p.
      * destruct (decide (i ∈ StateManager.current_ids (st_active_poops st)))
          as [Hc|Hc]; [by left|right].
        split; [rewrite elem_of_union; tauto|]. by exists st', clock', p.
Qed.

Lemma each_deposit_announced_once_witness :
  let snapshots := [(mkState [sample_active] [] 0 1, 0);
                    (mkState [] [] 0 1, 1);
                    (mkState [sample_active] [] 0 1, 2)] in
  let alerts :=
    concat (snd (update_all (StateManager.init true true 10) snapshots)) in
  NoDup (List.filter is_new_poop_alert alerts) /\
  StateManager.new_poop_alert 0 ∈ alerts.
Proof.
  cbv zeta.
  destruct (each_deposit_announced_once (StateManager.init true true 10)
              [(mkState [sample_active] [] 0 1, 0);
               (mkState [] [] 0 1, 1);
               (mkState [sample_active] [] 0 1, 2)] eq_refl) as [Hnd Hiff].
  split; [exact Hnd|]. apply Hiff. split; [apply not_elem_of_empty|].
  exists (mkState [sample_active] [] 0 1), 0, sample_active.
  split; [apply elem_of_cons; by left|].
  split; [apply elem_of_cons; by left|reflexivity].
Defined.

Lemma cleanup_total_app l1 l2 :
  cleanup_total (l1 ++ l2) = (cleanup_total l1 + cleanup_total l2)%Z.
Proof.
  induction l1 as [|a l1 IH]; [done|]. cbn [app cleanup_total fold_right].
  fold (cleanup_total (l1 ++ l2)). fold (cleanup_total l1).
  rewrite IH. destruct a; lia.
Qed.

Lemma cleanup_total_filter l :
  cleanup_total l = cleanup_total (List.filter is_cleanup_alert l).
Proof.
  induction l as [|a l IH]; [done|].
  destruct a; cbn [List.filter is_cleanup_alert]; cbn [cleanup_total fold_right];
    fold (cleanup_total l);
    fold (cleanup_total (List.filter is_cleanup_alert l)); by rewrite IH.
Qed.

Lemma last_cons_default {A} (c d : A) (l : list A) :
  List.last (c :: l) d = List.last l c.
Proof.
  revert c d. induction l as [|x l IH]; intros c d; [done|].
  change (List.last (c :: x :: l) d) with (List.last (x :: l) d).
  by rewrite !IH.
Qed.

(** X15: with the cleanup alert on and snapshots whose [cleaned_count]
    never goes down from the count of the previous call, the counts the
    cleanup alerts carry add up to the growth of [cleaned_count] over the
    calls. *)
Theorem cleanup_alerts_add_up
    (sm : StateManager.StateManager) (snapshots : list (State * Q)) :
  let prev := default 0%Z (StateManager.last_state sm !! "cleaned_count") in
  let counts := map (fun s => st_cleaned_count (fst s)) snapshots in
  StateManager.alert_cleanup sm = true ->
  nondecreasing (prev :: counts) ->
  cleanup_total (concat (snd (update_all sm snapshots))) =
    (List.last counts prev - prev)%Z.
Proof.
  cbv zeta. revert sm.
  induction snapshots as [|[st clock] rest IH]; intros sm Hon Hmono.
  { cbn. lia. }
  rewrite update_all_cons. cbn [snd concat map fst].
  set (sm' := fst (StateManager.update sm st clock)).
  set (prev := default 0%Z (StateManager.last_state sm !! "cleaned_count")) in *.
  assert (Hon' : StateManager.alert_cleanup sm' = true).
  { unfold sm'. destruct (update_config sm st clock) as (_ & -> & _). done. }
  assert (Hprev' : default 0%Z (StateManager.last_state sm' !! "cleaned_count")
                   = st_cleaned_count st).
  { unfold sm'. by rewrite update_last_cleaned. }
  assert (Hle : (prev <= st_cleaned_count st)%Z)
    by (by apply (Hmono 0%nat)).
  rewrite cleanup_total_app, (IH sm' Hon').
  2:{ rewrite Hprev'. intros k a b Ha Hb. by apply (Hmono (S k)). }
  rewrite Hprev', cleanup_total_filter, filter_cleanup_alerts, Hon.
  cbn [andb]. fold prev.
  replace (List.last (st_cleaned_count st
                      :: map (fun s => st_cleaned_count (fst s)) rest) prev)
    with (List.last (map (fun s => st_cleaned_count (fst s)) rest)
            (st_cleaned_count st)).
  2:{ by rewrite last_cons_default. }
  destruct (prev <? st_cleaned_count st)%Z eqn:E; cbn; [lia|].
  apply Z.ltb_ge in E. lia.
Qed.

Lemma cleanup_alerts_add_up_witness :
  cleanup_total
    (concat (snd (update_all (StateManager.init true true 10)
                    [(mkState [] [] 0 1, 0); (mkState [] [] 2 3, 1);
                     (mkState [] [] 2 3, 2); (mkState [] [] 5 6, 3)])))
  = 5%Z.
Proof.
  rewrite (cleanup_alerts_add_up (StateManager.init true true 10)
             [(mkState [] [] 0 1, 0); (mkState [] [] 2 3, 1);
              (mkState [] [] 2 3, 2); (mkState [] [] 5 6, 3)]).
  - reflexivity.
  - reflexivity.
  - intros [|[|[|[|[|k]]]]] a b Ha Hb; vm_compute in Ha, Hb;
      try discriminate; injection Ha as <-; injection Hb as <-; lia.
Defined.

(** X16: aged alerts are raised anew on every call and cannot be
    switched off: whatever came before, the call on a snapshot raises
    an aged alert for an id exactly when an active deposit of the
    snapshot with that id is [aged_minutes] old or more at the clock
    reading of the call. *)
Theorem aged_alert_every_call
    (sm : StateManager.StateManager) (snapshots : list (State * Q))
    (k : nat) (st : State) (clock : Q) (alerts : list StateManager.Alert) :
  snapshots !! k = Some (st, clock) ->
  snd (update_all sm snapshots) !! k = Some alerts ->
  forall i, StateManager.aged_poop_alert i ∈ alerts <->
    exists p, p ∈ st_active_poops st /\ id p = i /\
              StateManager.aged_minutes sm <= (clock - first_seen p) / 60.
Proof.
  intros Hk Ha i. rewrite (update_all_lookup _ _ _ _ _ Hk) in Ha.
  injection Ha as <-.
  rewrite (elem_of_filter_alerts is_aged_alert) by done.
  rewrite filter_aged_alerts.
  change (map ?g ?l) with (g <$> l). rewrite list_elem_of_fmap.
  unfold StateManager.is_aged.
  destruct (update_all_config sm (take k snapshots)) as (_ & _ & ->).
  split.
  - intros (p & [= ->] & Hp). apply list_elem_of_In, filter_In in Hp as [Hp Hage].
    exists p. split; [by apply list_elem_of_In|]. split; [done|].
    by apply Qle_bool_iff.
  - intros (p & Hp & <- & Hage). exists p. split; [done|].
    apply list_elem_of_In, filter_In. split; [by apply list_elem_of_In|].
    by apply Qle_bool_iff.
Qed.

Lemma aged_alert_every_call_witness :
  exists alerts,
    snd (update_all (StateManager.init true true 10)
           [(mkState [sample_active] [] 0 1, 600);
            (mkState [sample_active] [] 0 1, 601)]) !! 1%nat = Some alerts /\
    StateManager.aged_poop_alert 0 ∈ alerts.
Proof.
  exists [StateManager.aged_poop_alert 0]. split; [reflexivity|].
  apply (aged_alert_every_call (StateManager.init true true 10)
           [(mkState [sample_active] [] 0 1, 600);
            (mkState [sample_active] [] 0 1, 601)]
           1 (mkState [sample_active] [] 0 1) 601
           [StateManager.aged_poop_alert 0] eq_refl eq_refl 0%nat).
  exists sample_active. split; [apply elem_of_cons; by left|].
  split; [reflexivity|]. vm_compute. discriminate.
Defined.

(** ** main.py: what the alerts say about the tracker *)

Lemma process_frames_cleanup_alerts root s frames s' outs :
  Main.process_frames root s frames = Some (s', outs) ->
  StateManager.alert_cleanup (Main.state_manager s) = true ->
  event_callback (Main.poop_tracker s) = true ->
  default 0%Z (StateManager.last_state (Main.state_manager s) !! "cleaned_count")
    = cleaned_count (Main.poop_tracker s) ->
  forall out, out ∈ outs ->
    let n := length (List.filter is_cleaned_event (Main.out_events out)) in
    List.filter is_cleanup_alert (Main.out_alerts out) =
      if (n =? 0)%nat then []
      else [StateManager.cleanup_alert (Z.of_nat n)].
Proof.
  revert s outs. induction frames as [|f frames IH]; intros s outs;
    cbn [Main.process_frames].
  { intros [= <- <-] _ _ _ out H. by apply elem_of_nil in H. }
  unfold Main.process_frame.
  destruct (Detector.detect (Main.detector s) (Main.frame_results f))
    as [d' [dets|]]; [|done].
  destruct (EventDetector.process root (Main.event_detector s) dets
              (Main.frame_time f)) as [ed' pooping].
  destruct (update (Main.poop_tracker s) dets pooping (Main.frame_time f))
    as [pt' events] eqn:Hup.
  destruct (StateManager.update (Main.state_manager s) (get_state pt')
              (Main.frame_time f)) as [sm' alerts] eqn:Hsm.
  set (s1 := Main.mkSystem d' ed' pt' sm').
  destruct (Main.process_frames root s1 frames) as [[s2 outs2]|] eqn:Hrest;
    [|done].
  intros [= <- <-] Hon Hcb Hprev out Hin.
  destruct (update_counts_events (Main.poop_tracker s) dets pooping
              (Main.frame_time f) Hcb) as [Hcount _].
  rewrite Hup in Hcount. cbn [fst snd] in Hcount.
  apply elem_of_cons in Hin as [->|Hin].
  - cbv zeta. cbn [Main.out_events Main.out_alerts].
    replace alerts
      with (snd (StateManager.update (Main.state_manager s) (get_state pt')
                   (Main.frame_time f))) by (by rewrite Hsm).
    rewrite filter_cleanup_alerts, Hon, Hprev. cbn [andb].
    cbn [get_state st_cleaned_count]. rewrite Hcount.
    set (n := length (List.filter is_cleaned_event events)).
    destruct (n =? 0)%nat eqn:E.
    + apply Nat.eqb_eq in E. rewrite E, Z.add_0_r, Z.ltb_irrefl. done.
    + apply Nat.eqb_neq in E.
      replace (cleaned_count (Main.poop_tracker s) <?
               cleaned_count (Main.poop_tracker s) + Z.of_nat n)%Z
        with true by (symmetry; apply Z.ltb_lt; lia).
      do 2 f_equal. lia.
  - apply (IH s1 outs2 Hrest); [| |  |exact Hin];
      cbn [s1 Main.state_manager Main.poop_tracker].
    + replace sm' with (fst (StateManager.update (Main.state_manager s)
                               (get_state pt') (Main.frame_time f)))
        by (by rewrite Hsm).
      destruct (update_config (Main.state_manager s) (get_state pt')
                  (Main.frame_time f)) as (_ & -> & _). done.
    + replace pt' with (run (Main.poop_tracker s)
                          [mkCycle dets pooping (Main.frame_time f)]).
      * destruct (run_config (Main.poop_tracker s)
                    [mkCycle dets pooping (Main.frame_time f)])
          as (_ & _ & _ & ->). done.
      * cbn [run fold_left]. unfold step. cbn [detections pooping_events now].
        by rewrite Hup.
    + replace sm' with (fst (StateManager.update (Main.state_manager s)
                               (get_state pt') (Main.frame_time f)))
        by (by rewrite Hsm).
      by rewrite update_last_cleaned.
Qed.

(** X17: in the loop of [main], started with a new tracker that has a
    callback and a new aggregator with the cleanup alert on, every
    iteration raises at most one cleanup alert: none when the tracker
    reported no cleaned deposit in that iteration, and otherwise one
    that carries the number of deposits reported cleaned in it. *)
Theorem cleanup_alert_counts_cleaned_deposits
    (root : Q -> Q) (s : Main.System) (frames : list Main.Frame)
    (thr : Q) (stale confirm : Z) (new_poop : bool) (aged : Q) :
  Detector.inference_interval (Main.detector s) <> 0%Z ->
  Main.poop_tracker s = PoopTracker.init thr stale confirm true ->
  Main.state_manager s = StateManager.init new_poop true aged ->
  exists s' outs,
    Main.process_frames root s frames = Some (s', outs) /\
    forall out, out ∈ outs ->
      let n := length (List.filter is_cleaned_event (Main.out_events out)) in
      List.filter is_cleanup_alert (Main.out_alerts out) =
        if (n =? 0)%nat then []
        else [StateManager.cleanup_alert (Z.of_nat n)].
Proof.
  intros Hn Ht Hsm.
  destruct (process_frames_total root s frames Hn) as [[s' outs] Hrun].
  exists s', outs. split; [done|].
  apply (process_frames_cleanup_alerts root s frames s' outs Hrun).
  - by rewrite Hsm.
  - by rewrite Ht.
  - by rewrite Hsm, Ht.
Qed.

Lemma cleanup_alert_counts_cleaned_deposits_witness :
  exists s' outs out,
    Main.process_frames sample_root sample_live_system sample_cleanup_frames
      = Some (s', outs) /\
    outs !! 2%nat = Some out /\
    List.filter is_cleaned_event (Main.out_events out)
      = [poop_cleaned 0 (230 # 2, 230 # 2)] /\
    List.filter is_cleanup_alert (Main.out_alerts out)
      = [StateManager.cleanup_alert 1].
Proof.
  destruct (cleanup_alert_counts_cleaned_deposits sample_root
              sample_live_system sample_cleanup_frames (3 # 10) 3 2 true 10)
    as (s' & outs & Hrun & Hall); [cbn; lia|reflexivity|reflexivity|].
  destruct (lookup_lt_is_Some_2 outs 2) as [out Hout].
  { assert (Hlen : option_map (fun r => length (snd r))
                     (Main.process_frames sample_root sample_live_system
                        sample_cleanup_frames) = Some 3%nat)
      by (vm_compute; reflexivity).
    rewrite Hrun in Hlen. injection Hlen as ->. lia. }
  assert (Hev : option_map
                  (fun r => option_map
                              (fun o => List.filter is_cleaned_event
                                          (Main.out_events o))
                              (snd r !! 2%nat))
                  (Main.process_frames sample_root sample_live_system
                     sample_cleanup_frames)
                = Some (Some [poop_cleaned 0 (230 # 2, 230 # 2)]))
    by (vm_compute; reflexivity).
  rewrite Hrun in Hev. cbn [option_map snd] in Hev. rewrite Hout in Hev.
  injection Hev as Hev.
  exists s', outs, out. split; [exact Hrun|]. split; [exact Hout|].
  split; [exact Hev|].
  rewrite (Hall out (list_elem_of_lookup_2 _ _ _ Hout)), Hev. reflexivity.
Defined.

(** ** web_server.py: the status response *)

Lemma update_timestamps t ds points clock hi :
  (forall p, p ∈ active_poops t ->
     first_seen p <= last_seen p /\ last_seen p <= hi) ->
  hi <= clock ->
  forall p, p ∈ active_poops (fst (update t ds points clock)) ->
    first_seen p <= last_seen p /\ last_seen p <= clock.
Proof.
  intros Hinv Hhi p' Hp'. unfold update in Hp'. cbn [fst active_poops] in Hp'.
  apply elem_of_filter_keep in Hp' as [Hp' _].
  rewrite stage_eq in Hp'. cbn [staged_poops] in Hp'.
  apply elem_of_app in Hp' as [Hp'|Hp'].
  - apply list_elem_of_lookup in Hp' as [k Hk'].
    destruct (lookup_lt_is_Some_2 (active_poops t) k) as [p Hp].
    { rewrite <- (tracked_length t ds clock). by eapply lookup_lt_Some. }
    rewrite (tracked_lookup _ _ _ _ _ Hp) in Hk'. injection Hk' as <-.
    destruct (Hinv p (list_elem_of_lookup_2 _ _ _ Hp)) as [H1 H2].
    unfold track_poop. destruct (find_best _ _ _ _) as [[j d]|].
    + rewrite on_match_eq. cbn. split; lra.
    + rewrite on_miss_eq. cbn. split; lra.
  - apply elem_of_app in Hp' as [Hp'|Hp'];
      apply elem_of_lookup_imap in Hp' as (j & x & -> & _); cbn; split; lra.
Qed.

Lemma run_timestamps thr stale confirm cb cs :
  clocks_nondecreasing cs ->
  forall p, p ∈ active_poops (run (PoopTracker.init thr stale confirm cb) cs) ->
    first_seen p <= last_seen p /\
    forall hi, (forall c, c ∈ cs -> now c <= hi) -> last_seen p <= hi.
Proof.
  set (t0 := PoopTracker.init thr stale confirm cb).
  induction cs as [|c cs IH] using rev_ind; [by intros _ p Hp%elem_of_nil|].
  intros Hmono p Hp. rewrite run_snoc in Hp.
  assert (Hcs : clocks_nondecreasing cs).
  { intros j k cj ck Hjk Hj Hk. apply (Hmono j k); [done| |].
    - rewrite lookup_app_l; [done|]. by eapply lookup_lt_Some.
    - rewrite lookup_app_l; [done|]. by eapply lookup_lt_Some. }
  assert (Hlast : forall c', c' ∈ cs -> now c' <= now c).
  { intros c' Hc'. apply list_elem_of_lookup in Hc' as [j Hj].
    apply (Hmono j (length cs)).
    - apply lookup_lt_Some in Hj. lia.
    - rewrite lookup_app_l; [done|]. by eapply lookup_lt_Some.
    - rewrite lookup_app_r by lia. by rewrite Nat.sub_diag. }
  destruct (update_timestamps (run t0 cs) (detections c) (pooping_events c)
              (now c) (now c)) with (p := p) as [H1 H2].
  - intros q Hq. destruct (IH Hcs q Hq) as [Hq1 Hq2]. split; [done|].
    by apply Hq2.
  - lra.
  - exact Hp.
  - split; [done|]. intros hi Hhi.
    assert (now c <= hi) by (apply Hhi, elem_of_app; right; apply elem_of_cons;
                             by left).
    lra.
Qed.

Lemma run_live_not_cleaned thr stale confirm cb cs p :
  p ∈ active_poops (run (PoopTracker.init thr stale confirm cb) cs) ->
  status p <> cleaned.
Proof.
  destruct cs as [|c cs _] using rev_ind; [by intros Hp%elem_of_nil|].
  rewrite run_snoc. intros Hp. apply live_origin in Hp as [Hk _].
  by apply keep_true_iff in Hk as [Hst _].
Qed.

Lemma NoDup_ids_two_filters (f g : PoopInstance -> bool) (l : list PoopInstance) :
  NoDup (map id l) ->
  (forall p, p ∈ l -> f p && g p = false) ->
  NoDup (map id (List.filter f l) ++ map id (List.filter g l)).
Proof.
  induction l as [|x l IH]; [constructor|].
  cbn [map List.filter]. intros Hnd Hfg. apply NoDup_cons in Hnd as [Hx Hnd].
  assert (IH' : NoDup (map id (List.filter f l) ++ map id (List.filter g l))).
  { apply IH; [done|]. intros p Hp. apply Hfg, elem_of_cons. by right. }
  assert (Hout : id x ∉ map id (List.filter f l) ++ map id (List.filter g l)).
  { intros H. apply Hx. change (map id ?l) with (id <$> l) in *.
    apply elem_of_app in H as [H|H];
      apply list_elem_of_fmap in H as (q & Hq & Hin);
      apply list_elem_of_In, filter_In in Hin as [Hin _];
      apply list_elem_of_fmap; exists q; by rewrite <- list_elem_of_In in Hin. }
  specialize (Hfg x (proj2 (elem_of_cons _ _ _) (or_introl eq_refl))).
  destruct (f x), (g x); try discriminate; cbn [map app].
  - by apply NoDup_cons.
  - rewrite <- Permutation_middle. by apply NoDup_cons.
  - done.
Qed.

(** X18: the status response built from the state of a tracker that
    started new and ran any cycles whose clock never went back, at a
    clock reading not before the cycles: every live deposit was first
    seen no later than last seen, and last seen no later than the
    reading; no age in the response is negative; the entries of the
    active list have status active and those of the pending list status
    pending; the two counts of the metrics add up to the number of live
    deposits; no id occurs twice in the response.  From the state before
    the first update the response has two empty lists and four zero
    metrics. *)
Theorem status_response_of_run
    (thr : Q) (stale confirm : Z) (cb : bool) (cs : list Cycle) (clock : Q) :
  clocks_nondecreasing cs ->
  (forall c, c ∈ cs -> now c <= clock) ->
  let t := run (PoopTracker.init thr stale confirm cb) cs in
  let r := WebServer._format_status clock (WebServer.of_state (get_state t)) in
  (forall p, p ∈ active_poops t ->
     first_seen p <= last_seen p /\ last_seen p <= clock) /\
  (forall e, e ∈ WebServer.r_active_poops r ->
     0 <= WebServer.a_age_seconds e /\ WebServer.a_status e = active) /\
  (forall e, e ∈ WebServer.r_pending_poops r ->
     WebServer.p_status e = pending) /\
  (WebServer.active_count (WebServer.metrics r) +
   WebServer.pending_count (WebServer.metrics r)
   = length (active_poops t))%nat /\
  NoDup (map WebServer.a_id (WebServer.r_active_poops r) ++
         map WebServer.p_id (WebServer.r_pending_poops r)) /\
  WebServer._format_status clock WebServer.empty_state
    = WebServer.mkStatusResponse [] [] (WebServer.mkMetrics 0 0 0 0).
Proof.
  intros Hmono Hclock. cbv zeta.
  set (t := run (PoopTracker.init thr stale confirm cb) cs).
  assert (Htime : forall p, p ∈ active_poops t ->
            first_seen p <= last_seen p /\ last_seen p <= clock).
  { intros p Hp.
    destruct (run_timestamps thr stale confirm cb cs Hmono p Hp) as [H1 H2].
    split; [done|]. by apply H2. }
  unfold WebServer._format_status, WebServer.of_state, get_state.
  cbn [WebServer.d_active_poops WebServer.d_pending_poops
       WebServer.d_cleaned_count WebServer.d_total_deposits
       st_active_poops st_pending_poops st_cleaned_count st_total_deposits
       default WebServer.r_active_poops WebServer.r_pending_poops
       WebServer.metrics WebServer.active_count WebServer.pending_count
       WebServer.empty_state].
  split; [exact Htime|]. split; [|split; [|split; [|split; [|done]]]].
  - intros e He. change (map ?g ?l) with (g <$> l) in He.
    apply list_elem_of_fmap in He as (p & -> & Hp).
    apply list_elem_of_In, filter_In in Hp as [Hp Hst].
    apply list_elem_of_In in Hp. apply bool_decide_eq_true in Hst.
    cbn [WebServer.a_age_seconds WebServer.a_status]. split; [|done].
    destruct (Htime p Hp). lra.
  - intros e He. change (map ?g ?l) with (g <$> l) in He.
    apply list_elem_of_fmap in He as (p & -> & Hp).
    apply list_elem_of_In, filter_In in Hp as [_ Hst].
    by apply bool_decide_eq_true in Hst.
  - apply filter_partition_length, Forall_forall. intros p Hp.
    pose proof (run_live_not_cleaned thr stale confirm cb cs p Hp) as Hst.
    by destruct (status p).
  - rewrite !map_map. cbn [WebServer.a_id WebServer.p_id].
    apply (NoDup_ids_two_filters
             (fun p => bool_decide (status p = active))
             (fun p => bool_decide (status p = pending))).
    + apply (run_ids_ok (PoopTracker.init thr stale confirm cb) cs),
        init_ids_ok.
    + intros p _. by destruct (status p).
Qed.

Lemma status_response_of_run_witness :
  let cs := [mkCycle [sample_poop 100 100 130 130] [(5, 5)] 0;
             mkCycle [sample_poop 100 100 130 130] [] 2] in
  let t := run sample_tracker cs in
  let r := WebServer._format_status 5 (WebServer.of_state (get_state t)) in
  map WebServer.a_age_seconds (WebServer.r_active_poops r) = [5] /\
  (WebServer.active_count (WebServer.metrics r) +
   WebServer.pending_count (WebServer.metrics r)
   = length (active_poops t))%nat /\
  length (active_poops t) = 2%nat.
Proof.
  cbv zeta.
  destruct (status_response_of_run (3 # 10) 3 2 true
              [mkCycle [sample_poop 100 100 130 130] [(5, 5)] 0;
               mkCycle [sample_poop 100 100 130 130] [] 2] 5)
    as (_ & _ & _ & Hcount & _).
  - intros [|[|j]] [|[|k]] cj ck Hjk Hj Hk; cbn in Hj, Hk;
      try discriminate; try lia;
      injection Hj as <-; injection Hk as <-; cbn; lra.
  - intros c Hc. apply elem_of_cons in Hc as [->|Hc]; [cbn; lra|].
    apply elem_of_cons in Hc as [->|Hc]; [cbn; lra|].
    by apply elem_of_nil in Hc.
  - split; [vm_compute; reflexivity|]. split; [exact Hcount|].
    vm_compute. reflexivity.
Defined.
